(** * Real-time transcription pipeline: a shallow embedding

    The development follows the TypeScript sources
    [src/utils/audioWorkletManager.ts] (the chunker
    [RealtimeTranscriptionProcessor] with its PCM conversion,
    [VoiceActivityDetector] and [TranscriptionOptimizer]),
    [src/utils/enhancedTranscription.ts] (the manager
    [EnhancedTranscriptionManager] and the WebSocket session
    [OptimizedTranscriptionService]), the worklet
    [src/audioWorklets/audioProcessor.worklet.js], [monitorStreamHealth] and
    [processAudioForDeepgram] of audioUtils.ts, [AudioErrorHandler] of
    [src/utils/errorHandling.ts] and [AudioQualityAnalyzer] of
    [src/utils/highDefinitionAudio.ts].

    Conventions.
    - JavaScript numbers are modelled as rationals [Q]; IEEE rounding and the
      special values NaN and Infinity are outside the model, except where a
      quotient 0/0 decides what a function returns: there a number is an
      [option Q] and [None] is NaN.  Equality of numbers is [Qeq] ([==]).
    - A JavaScript string is a [string] with one character for each UTF-16
      code unit, so that [String.length] is its [length]; a string with a
      code unit above 255 has no image.
    - [Date.now()] is the clock of the world; [Math.random()] and
      [Math.sqrt] are inputs, a stream of draws and a function.
    - Objects that are shared by reference (sockets, media streams, timers,
      components) live in finite maps indexed by an allocation counter.
    - An awaited call of the platform (getDisplayMedia, the opening of a
      socket, the start of an audio context) is resolved by an outcome that
      the caller of the model supplies.  An async function that awaits the
      opening of a socket returns an [option]: [None] says that the promise
      it awaits never settles, so that the function never resumes. *)

From Stdlib Require Import QArith Qround Qabs Qminmax Lqa ZArith Lia List String.
From stdpp Require Import gmap strings list pretty.

(** * Part I: the model *)

(** ** Numbers *)

Module Num.
Local Open Scope Q_scope.

(** [Math.round]: nearest integer, halves rounded towards +infinity. *)
Definition Math_round (v : Q) : Z := Qfloor (v + (1#2)).

(** Storing into an [Int16Array] element wraps modulo 2^16. *)
Definition toInt16 (n : Z) : Z := ((n + 32768) mod 65536 - 32768)%Z.

Definition Math_max (a b : Q) : Q := Qmax a b.
Definition Math_min (a b : Q) : Q := Qmin a b.

(** [a > b] on numbers, as a boolean. *)
Definition gtb (a b : Q) : bool := if Qlt_le_dec b a then true else false.
Definition geb (a b : Q) : bool := Qle_bool b a.
Definition ltb (a b : Q) : bool := gtb b a.

End Num.

(** ** 16-bit PCM conversion ([RealtimeTranscriptionProcessor.convertToPCM]) *)

Module Pcm.
Import Num.
Local Open Scope Q_scope.

(** [applyDithering(sample)]; [rand] is the value of [Math.random()]. *)
Definition applyDithering (sample rand : Q) : Q :=
  let dither := (rand - (1#2)) * (1#1000) in
  sample + dither.

(** One iteration of the loop body of [convertToPCM]. *)
Definition convertSample (x rand : Q) : Z :=
  let sample := Math_max (-1) (Math_min 1 x) in
  let ditheredSample := applyDithering sample rand in
  toInt16 (Math_round (ditheredSample * 32767)).

(** [convertToPCM(float32Data)]; [rnd k] is the k-th draw of [Math.random()]
    and [k] counts the draws already made. *)
Fixpoint convertToPCM (rnd : nat -> Q) (k : nat) (float32Data : list Q) : list Z :=
  match float32Data with
  | [] => []
  | x :: rest => convertSample x (rnd k) :: convertToPCM rnd (S k) rest
  end.

(** The value that is rounded, before the store into the [Int16Array]. *)
Definition scaled (x rand : Q) : Q :=
  applyDithering (Math_max (-1) (Math_min 1 x)) rand * 32767.

End Pcm.

(** ** Voice activity detection ([VoiceActivityDetector]) *)

Module Vad.
Import Num.
Local Open Scope Q_scope.

Record VadResult := { isSpeech : bool; confidence : Q }.

Record VoiceActivityDetector := {
  energyHistory : list Q;
  historySize : nat
}.

(** Field initialisers of the class: an empty history, [historySize = 10]. *)
Definition newDetector : VoiceActivityDetector :=
  {| energyHistory := []; historySize := 10 |}.

(** [Math.min(...history)] for a history that is not empty; the guard for
    the empty history returns 0.001. *)
Definition calculateBackgroundNoise (history : list Q) : Q :=
  match history with
  | [] => 1#1000
  | e :: rest => fold_left Math_min rest e
  end.

(** [energyHistory.push(energy)] followed by one [shift()] when the history
    has grown beyond [historySize]. *)
Definition pushEnergy (d : VoiceActivityDetector) (energy : Q) : list Q :=
  let h := energyHistory d ++ [energy] in
  if (historySize d <? length h)%nat then tl h else h.

(** [Math.min(1.0, energy / d)].  For [d = 0] IEEE arithmetic gives
    +Infinity for a positive energy, so that the minimum is 1, and -Infinity
    for a negative one, which the following [Math.max(0, _)] turns into 0.
    The quotient 0/0 is NaN; it is represented by 0.  A NaN confidence only
    arises together with [isSpeech = false], and the program compares the
    confidence of a chunk only after testing [isSpeech]. *)
Definition minOneOfQuotient (energy d : Q) : Q :=
  if Qeq_bool d 0 then (if gtb energy 0 then 1 else 0)
  else Math_min 1 (energy / d).

Section Energy.
(** [Math.sqrt] is a parameter of the model.  Frames are not empty: the mean
    of an empty frame is 0/0 in the source. *)
Variable Math_sqrt : Q -> Q.

Definition sumSquares (audioData : list Q) : Q :=
  fold_left (fun acc x => acc + x * x) audioData 0.

Definition calculateEnergy (audioData : list Q) : Q :=
  Math_sqrt (sumSquares audioData / inject_Z (Z.of_nat (length audioData))).

(** [detectVoiceActivity(audioData)]: the result and the updated detector.
    Nothing in the body throws, so the [catch] branch is not reachable. *)
Definition detectVoiceActivity (d : VoiceActivityDetector) (audioData : list Q)
  : VadResult * VoiceActivityDetector :=
  let energy := calculateEnergy audioData in
  let history := pushEnergy d energy in
  let backgroundNoise := calculateBackgroundNoise history in
  let threshold := backgroundNoise * 2 in
  let isSpeech := gtb energy threshold in
  let confidence := minOneOfQuotient energy (threshold * 3) in
  ({| isSpeech := isSpeech; confidence := Math_max 0 confidence |},
   {| energyHistory := history; historySize := historySize d |}).

(** The detector after a run of frames. *)
Definition detectAll (d : VoiceActivityDetector) (frames : list (list Q))
  : VoiceActivityDetector :=
  fold_left (fun d f => snd (detectVoiceActivity d f)) frames d.

End Energy.

(** The last [n] elements of a list. *)
Definition keep_last {A} (n : nat) (l : list A) : list A := skipn (length l - n) l.

(** A square root that is exact on quotients of perfect squares. *)
Definition sqrt_exact (q : Q) : Q := Z.sqrt (Qnum q) # Pos.sqrt (Qden q).

End Vad.

(** ** JSON values, as produced by [JSON.parse] and by property reads *)

Module Js.
Local Open Scope Q_scope.
Local Set Warnings "-register-all".
Local Open Scope string_scope.

Inductive value :=
| Undefined
| Null
| Bool (b : bool)
| Num (q : Q)
| Str (s : string)
| Arr (items : list value)
| Obj (fields : list (string * value)).

(** ToBoolean. *)
Definition truthy (v : value) : bool :=
  match v with
  | Undefined | Null => false
  | Bool b => b
  | Num q => negb (Qeq_bool q 0)
  | Str s => negb (String.eqb s EmptyString)
  | Arr _ | Obj _ => true
  end.

(** [a || b] *)
Definition or (a b : value) : value := if truthy a then a else b.

(** [!a] *)
Definition not (a : value) : bool := negb (truthy a).

(** Own property of an object literal; keys are taken to be distinct. *)
Fixpoint assoc (k : string) (fields : list (string * value)) : value :=
  match fields with
  | [] => Undefined
  | (k', v) :: rest => if String.eqb k k' then v else assoc k rest
  end.

(** The property read [v.k]: [None] stands for the TypeError raised on
    [undefined] and [null].  Besides own properties of objects only [length]
    of arrays and strings is modelled; every other read is [undefined]. *)
Definition get (v : value) (k : string) : option value :=
  match v with
  | Undefined | Null => None
  | Obj fields => Some (assoc k fields)
  | Arr items =>
      Some (if String.eqb k "length" then Num (inject_Z (Z.of_nat (length items)))
            else Undefined)
  | Str s =>
      Some (if String.eqb k "length" then Num (inject_Z (Z.of_nat (String.length s)))
            else Undefined)
  | Bool _ | Num _ => Some Undefined
  end.

(** The indexed read [v[0]]. *)
Definition first (v : value) : option value :=
  match v with
  | Undefined | Null => None
  | Arr items => Some (match items with [] => Undefined | x :: _ => x end)
  | Str s => Some (match s with EmptyString => Undefined | String c _ => Str (String c EmptyString) end)
  | Obj fields => Some (assoc "0" fields)
  | Bool _ | Num _ => Some Undefined
  end.

(** [v > 0].  Numbers and booleans are compared after ToNumber; [undefined]
    gives NaN and [null] gives 0, so both compare false.  Strings, arrays and
    objects are not converted by the model and compare false. *)
Definition gt_zero (v : value) : bool :=
  match v with
  | Num q => if Qlt_le_dec 0 q then true else false
  | Bool b => b
  | _ => false
  end.

(** [v === s] for a string literal [s]. *)
Definition eq_str (v : value) (s : string) : bool :=
  match v with
  | Str s' => String.eqb s' s
  | _ => false
  end.

End Js.

(** ** The browser platform: sockets, streams, timers *)

Module Platform.

Inductive ReadyState := CONNECTING | OPEN | CLOSING | CLOSED.

(** What [WebSocket.send] was called with: a buffer of 16-bit samples, or
    the string [JSON.stringify(json)]. *)
Inductive Frame :=
| Binary (pcm : list Z)
| Text (json : Js.value).

(** Who awaits the promise returned by [connectWebSocket]. *)
Inductive Awaiter := AwaitStart | AwaitReconnect.


(** A socket object.  [sent] lists the frames passed to [send], oldest first;
    [sendThrows] makes [send] raise; [promisePending] says that the promise
    of the [connectWebSocket] call that created the socket is unsettled. *)
Record WebSocket := {
  readyState : ReadyState;
  sent : list Frame;
  sendThrows : bool;
  promisePending : bool;
  awaiter : Awaiter
}.

Definition set_readyState (v : ReadyState) (r : WebSocket) : WebSocket :=
  {| readyState := v; sent := sent r; sendThrows := sendThrows r; promisePending := promisePending r; awaiter := awaiter r |}.
Definition set_sent (v : list Frame) (r : WebSocket) : WebSocket :=
  {| readyState := readyState r; sent := v; sendThrows := sendThrows r; promisePending := promisePending r; awaiter := awaiter r |}.
Definition set_sendThrows (v : bool) (r : WebSocket) : WebSocket :=
  {| readyState := readyState r; sent := sent r; sendThrows := v; promisePending := promisePending r; awaiter := awaiter r |}.
Definition set_promisePending (v : bool) (r : WebSocket) : WebSocket :=
  {| readyState := readyState r; sent := sent r; sendThrows := sendThrows r; promisePending := v; awaiter := awaiter r |}.
Definition set_awaiter (v : Awaiter) (r : WebSocket) : WebSocket :=
  {| readyState := readyState r; sent := sent r; sendThrows := sendThrows r; promisePending := promisePending r; awaiter := v |}.


Inductive TrackState := live | ended.


(** A [MediaStreamTrack]; only audio tracks are modelled. *)
Record Track := {
  trackReadyState : TrackState;
  enabled : bool;
  muted : bool
}.

Definition set_trackReadyState (v : TrackState) (r : Track) : Track :=
  {| trackReadyState := v; enabled := enabled r; muted := muted r |}.
Definition set_enabled (v : bool) (r : Track) : Track :=
  {| trackReadyState := trackReadyState r; enabled := v; muted := muted r |}.
Definition set_muted (v : bool) (r : Track) : Track :=
  {| trackReadyState := trackReadyState r; enabled := enabled r; muted := v |}.


(** Components whose internals are not modelled: they are constructed,
    may hold resources, and are released by their [cleanup]. *)
Inductive ComponentKind := HDProcessor | QualityAnalyzer | AccuracyValidator | AudioContext | AudioWorklet.
Inductive ComponentStatus := Created | Running | Released.

(** The closures passed to [setInterval] and [setTimeout]. *)
Inductive Callback :=
| CollectMetrics                                  (* manager, startMetricsCollection *)
| CheckHealth (stream : nat) (consecutiveFailures : Z)  (* monitorStreamHealth *)
| ConnectionCheck                                 (* service, startConnectionMonitoring *)
| ConnectTimeout (socket : nat)                   (* service, connectWebSocket *)
| Reconnect                                       (* service, attemptReconnection *)
| StreamReconnect.                                (* manager, handleStreamDisconnection *)

#[global] Instance Callback_eq_dec : EqDecision Callback.
Proof. solve_decision. Defined.


(** A pending timer: [due] is the time of its next firing. *)
Record Timer := {
  callback : Callback;
  delay : Z;
  due : Z;
  periodic : bool
}.

Definition set_callback (v : Callback) (r : Timer) : Timer :=
  {| callback := v; delay := delay r; due := due r; periodic := periodic r |}.
Definition set_delay (v : Z) (r : Timer) : Timer :=
  {| callback := callback r; delay := v; due := due r; periodic := periodic r |}.
Definition set_due (v : Z) (r : Timer) : Timer :=
  {| callback := callback r; delay := delay r; due := v; periodic := periodic r |}.
Definition set_periodic (v : bool) (r : Timer) : Timer :=
  {| callback := callback r; delay := delay r; due := due r; periodic := v |}.


Inductive Level := Log | Warn | Error.

End Platform.

(** ** Object states *)

(** [TranscriptionConfig] and [AudioChunk] of realtimeTranscription.ts. *)
Module Chunk.

Record TranscriptionConfig := {
  sampleRate : Q;
  channelCount : Q;
  bitDepth : Q;
  chunkDuration : Q;
  overlapDuration : Q;
  silenceThreshold : Q;
  minSpeechDuration : Q;
  maxChunkSize : Q
}.

Definition set_sampleRate (v : Q) (r : TranscriptionConfig) : TranscriptionConfig :=
  {| sampleRate := v; channelCount := channelCount r; bitDepth := bitDepth r; chunkDuration := chunkDuration r; overlapDuration := overlapDuration r; silenceThreshold := silenceThreshold r; minSpeechDuration := minSpeechDuration r; maxChunkSize := maxChunkSize r |}.
Definition set_channelCount (v : Q) (r : TranscriptionConfig) : TranscriptionConfig :=
  {| sampleRate := sampleRate r; channelCount := v; bitDepth := bitDepth r; chunkDuration := chunkDuration r; overlapDuration := overlapDuration r; silenceThreshold := silenceThreshold r; minSpeechDuration := minSpeechDuration r; maxChunkSize := maxChunkSize r |}.
Definition set_bitDepth (v : Q) (r : TranscriptionConfig) : TranscriptionConfig :=
  {| sampleRate := sampleRate r; channelCount := channelCount r; bitDepth := v; chunkDuration := chunkDuration r; overlapDuration := overlapDuration r; silenceThreshold := silenceThreshold r; minSpeechDuration := minSpeechDuration r; maxChunkSize := maxChunkSize r |}.
Definition set_chunkDuration (v : Q) (r : TranscriptionConfig) : TranscriptionConfig :=
  {| sampleRate := sampleRate r; channelCount := channelCount r; bitDepth := bitDepth r; chunkDuration := v; overlapDuration := overlapDuration r; silenceThreshold := silenceThreshold r; minSpeechDuration := minSpeechDuration r; maxChunkSize := maxChunkSize r |}.
Definition set_overlapDuration (v : Q) (r : TranscriptionConfig) : TranscriptionConfig :=
  {| sampleRate := sampleRate r; channelCount := channelCount r; bitDepth := bitDepth r; chunkDuration := chunkDuration r; overlapDuration := v; silenceThreshold := silenceThreshold r; minSpeechDuration := minSpeechDuration r; maxChunkSize := maxChunkSize r |}.
Definition set_silenceThreshold (v : Q) (r : TranscriptionConfig) : TranscriptionConfig :=
  {| sampleRate := sampleRate r; channelCount := channelCount r; bitDepth := bitDepth r; chunkDuration := chunkDuration r; overlapDuration := overlapDuration r; silenceThreshold := v; minSpeechDuration := minSpeechDuration r; maxChunkSize := maxChunkSize r |}.
Definition set_minSpeechDuration (v : Q) (r : TranscriptionConfig) : TranscriptionConfig :=
  {| sampleRate := sampleRate r; channelCount := channelCount r; bitDepth := bitDepth r; chunkDuration := chunkDuration r; overlapDuration := overlapDuration r; silenceThreshold := silenceThreshold r; minSpeechDuration := v; maxChunkSize := maxChunkSize r |}.
Definition set_maxChunkSize (v : Q) (r : TranscriptionConfig) : TranscriptionConfig :=
  {| sampleRate := sampleRate r; channelCount := channelCount r; bitDepth := bitDepth r; chunkDuration := chunkDuration r; overlapDuration := overlapDuration r; silenceThreshold := silenceThreshold r; minSpeechDuration := minSpeechDuration r; maxChunkSize := v |}.

(** The chunk identifier [chunk_<Date.now()>_<random suffix>] is kept as the
    pair of the clock value and the random draw it is printed from. *)
Record AudioChunk := {
  id : Z * Q;
  timestamp : Z;
  data : list Z;
  duration : Q;
  isSpeech : bool;
  confidence : Q
}.

Definition set_id (v : Z * Q) (r : AudioChunk) : AudioChunk :=
  {| id := v; timestamp := timestamp r; data := data r; duration := duration r; isSpeech := isSpeech r; confidence := confidence r |}.
Definition set_timestamp (v : Z) (r : AudioChunk) : AudioChunk :=
  {| id := id r; timestamp := v; data := data r; duration := duration r; isSpeech := isSpeech r; confidence := confidence r |}.
Definition set_data (v : list Z) (r : AudioChunk) : AudioChunk :=
  {| id := id r; timestamp := timestamp r; data := v; duration := duration r; isSpeech := isSpeech r; confidence := confidence r |}.
Definition set_duration (v : Q) (r : AudioChunk) : AudioChunk :=
  {| id := id r; timestamp := timestamp r; data := data r; duration := v; isSpeech := isSpeech r; confidence := confidence r |}.
Definition set_isSpeech (v : bool) (r : AudioChunk) : AudioChunk :=
  {| id := id r; timestamp := timestamp r; data := data r; duration := duration r; isSpeech := v; confidence := confidence r |}.
Definition set_confidence (v : Q) (r : AudioChunk) : AudioChunk :=
  {| id := id r; timestamp := timestamp r; data := data r; duration := duration r; isSpeech := isSpeech r; confidence := v |}.

End Chunk.

(** Fields of [RealtimeTranscriptionProcessor]. *)
Module Proc.

Record t := {
  audioContext : option nat;
  workletManager : option nat;
  mediaStream : option nat;
  isProcessing : bool;
  audioBuffer : list (list Q);
  chunkQueue : list Chunk.AudioChunk;
  lastProcessTime : Z;
  silenceStartTime : Z;
  isSpeaking : bool;
  config : Chunk.TranscriptionConfig;
  vad : Vad.VoiceActivityDetector
}.

Definition set_audioContext (v : option nat) (r : t) : t :=
  {| audioContext := v; workletManager := workletManager r; mediaStream := mediaStream r; isProcessing := isProcessing r; audioBuffer := audioBuffer r; chunkQueue := chunkQueue r; lastProcessTime := lastProcessTime r; silenceStartTime := silenceStartTime r; isSpeaking := isSpeaking r; config := config r; vad := vad r |}.
Definition set_workletManager (v : option nat) (r : t) : t :=
  {| audioContext := audioContext r; workletManager := v; mediaStream := mediaStream r; isProcessing := isProcessing r; audioBuffer := audioBuffer r; chunkQueue := chunkQueue r; lastProcessTime := lastProcessTime r; silenceStartTime := silenceStartTime r; isSpeaking := isSpeaking r; config := config r; vad := vad r |}.
Definition set_mediaStream (v : option nat) (r : t) : t :=
  {| audioContext := audioContext r; workletManager := workletManager r; mediaStream := v; isProcessing := isProcessing r; audioBuffer := audioBuffer r; chunkQueue := chunkQueue r; lastProcessTime := lastProcessTime r; silenceStartTime := silenceStartTime r; isSpeaking := isSpeaking r; config := config r; vad := vad r |}.
Definition set_isProcessing (v : bool) (r : t) : t :=
  {| audioContext := audioContext r; workletManager := workletManager r; mediaStream := mediaStream r; isProcessing := v; audioBuffer := audioBuffer r; chunkQueue := chunkQueue r; lastProcessTime := lastProcessTime r; silenceStartTime := silenceStartTime r; isSpeaking := isSpeaking r; config := config r; vad := vad r |}.
Definition set_audioBuffer (v : list (list Q)) (r : t) : t :=
  {| audioContext := audioContext r; workletManager := workletManager r; mediaStream := mediaStream r; isProcessing := isProcessing r; audioBuffer := v; chunkQueue := chunkQueue r; lastProcessTime := lastProcessTime r; silenceStartTime := silenceStartTime r; isSpeaking := isSpeaking r; config := config r; vad := vad r |}.
Definition set_chunkQueue (v : list Chunk.AudioChunk) (r : t) : t :=
  {| audioContext := audioContext r; workletManager := workletManager r; mediaStream := mediaStream r; isProcessing := isProcessing r; audioBuffer := audioBuffer r; chunkQueue := v; lastProcessTime := lastProcessTime r; silenceStartTime := silenceStartTime r; isSpeaking := isSpeaking r; config := config r; vad := vad r |}.
Definition set_lastProcessTime (v : Z) (r : t) : t :=
  {| audioContext := audioContext r; workletManager := workletManager r; mediaStream := mediaStream r; isProcessing := isProcessing r; audioBuffer := audioBuffer r; chunkQueue := chunkQueue r; lastProcessTime := v; silenceStartTime := silenceStartTime r; isSpeaking := isSpeaking r; config := config r; vad := vad r |}.
Definition set_silenceStartTime (v : Z) (r : t) : t :=
  {| audioContext := audioContext r; workletManager := workletManager r; mediaStream := mediaStream r; isProcessing := isProcessing r; audioBuffer := audioBuffer r; chunkQueue := chunkQueue r; lastProcessTime := lastProcessTime r; silenceStartTime := v; isSpeaking := isSpeaking r; config := config r; vad := vad r |}.
Definition set_isSpeaking (v : bool) (r : t) : t :=
  {| audioContext := audioContext r; workletManager := workletManager r; mediaStream := mediaStream r; isProcessing := isProcessing r; audioBuffer := audioBuffer r; chunkQueue := chunkQueue r; lastProcessTime := lastProcessTime r; silenceStartTime := silenceStartTime r; isSpeaking := v; config := config r; vad := vad r |}.
Definition set_config (v : Chunk.TranscriptionConfig) (r : t) : t :=
  {| audioContext := audioContext r; workletManager := workletManager r; mediaStream := mediaStream r; isProcessing := isProcessing r; audioBuffer := audioBuffer r; chunkQueue := chunkQueue r; lastProcessTime := lastProcessTime r; silenceStartTime := silenceStartTime r; isSpeaking := isSpeaking r; config := v; vad := vad r |}.
Definition set_vad (v : Vad.VoiceActivityDetector) (r : t) : t :=
  {| audioContext := audioContext r; workletManager := workletManager r; mediaStream := mediaStream r; isProcessing := isProcessing r; audioBuffer := audioBuffer r; chunkQueue := chunkQueue r; lastProcessTime := lastProcessTime r; silenceStartTime := silenceStartTime r; isSpeaking := isSpeaking r; config := config r; vad := v |}.

End Proc.

(** [TranscriptionResult] of optimizedTranscriptionService.ts.  The fields
    copied from a parsed message keep whatever value the message carries. *)
Module Result.

Record Word := { word : Js.value; start : Js.value; end_ : Js.value; wconfidence : Js.value }.

Record TranscriptionResult := {
  text : Js.value;
  confidence : Js.value;
  isFinal : bool;
  timestamp : Z;
  duration : Js.value;
  language : Js.value;
  words : option (list Word)
}.

End Result.

(** Fields of [OptimizedTranscriptionService]. *)
Module Svc.

Record TranscriptionServiceConfig := {
  apiKey : string;
  apiUrl : string;
  language : string;
  model : string;
  enableHD : bool;
  enableRealtime : bool;
  sampleRate : Q;
  maxReconnectAttempts : Z;
  reconnectDelay : Z
}.

Definition set_apiKey (v : string) (r : TranscriptionServiceConfig) : TranscriptionServiceConfig :=
  {| apiKey := v; apiUrl := apiUrl r; language := language r; model := model r; enableHD := enableHD r; enableRealtime := enableRealtime r; sampleRate := sampleRate r; maxReconnectAttempts := maxReconnectAttempts r; reconnectDelay := reconnectDelay r |}.
Definition set_apiUrl (v : string) (r : TranscriptionServiceConfig) : TranscriptionServiceConfig :=
  {| apiKey := apiKey r; apiUrl := v; language := language r; model := model r; enableHD := enableHD r; enableRealtime := enableRealtime r; sampleRate := sampleRate r; maxReconnectAttempts := maxReconnectAttempts r; reconnectDelay := reconnectDelay r |}.
Definition set_language (v : string) (r : TranscriptionServiceConfig) : TranscriptionServiceConfig :=
  {| apiKey := apiKey r; apiUrl := apiUrl r; language := v; model := model r; enableHD := enableHD r; enableRealtime := enableRealtime r; sampleRate := sampleRate r; maxReconnectAttempts := maxReconnectAttempts r; reconnectDelay := reconnectDelay r |}.
Definition set_model (v : string) (r : TranscriptionServiceConfig) : TranscriptionServiceConfig :=
  {| apiKey := apiKey r; apiUrl := apiUrl r; language := language r; model := v; enableHD := enableHD r; enableRealtime := enableRealtime r; sampleRate := sampleRate r; maxReconnectAttempts := maxReconnectAttempts r; reconnectDelay := reconnectDelay r |}.
Definition set_enableHD (v : bool) (r : TranscriptionServiceConfig) : TranscriptionServiceConfig :=
  {| apiKey := apiKey r; apiUrl := apiUrl r; language := language r; model := model r; enableHD := v; enableRealtime := enableRealtime r; sampleRate := sampleRate r; maxReconnectAttempts := maxReconnectAttempts r; reconnectDelay := reconnectDelay r |}.
Definition set_enableRealtime (v : bool) (r : TranscriptionServiceConfig) : TranscriptionServiceConfig :=
  {| apiKey := apiKey r; apiUrl := apiUrl r; language := language r; model := model r; enableHD := enableHD r; enableRealtime := v; sampleRate := sampleRate r; maxReconnectAttempts := maxReconnectAttempts r; reconnectDelay := reconnectDelay r |}.
Definition set_sampleRate (v : Q) (r : TranscriptionServiceConfig) : TranscriptionServiceConfig :=
  {| apiKey := apiKey r; apiUrl := apiUrl r; language := language r; model := model r; enableHD := enableHD r; enableRealtime := enableRealtime r; sampleRate := v; maxReconnectAttempts := maxReconnectAttempts r; reconnectDelay := reconnectDelay r |}.
Definition set_maxReconnectAttempts (v : Z) (r : TranscriptionServiceConfig) : TranscriptionServiceConfig :=
  {| apiKey := apiKey r; apiUrl := apiUrl r; language := language r; model := model r; enableHD := enableHD r; enableRealtime := enableRealtime r; sampleRate := sampleRate r; maxReconnectAttempts := v; reconnectDelay := reconnectDelay r |}.
Definition set_reconnectDelay (v : Z) (r : TranscriptionServiceConfig) : TranscriptionServiceConfig :=
  {| apiKey := apiKey r; apiUrl := apiUrl r; language := language r; model := model r; enableHD := enableHD r; enableRealtime := enableRealtime r; sampleRate := sampleRate r; maxReconnectAttempts := maxReconnectAttempts r; reconnectDelay := v |}.

Record t := {
  websocket : option nat;
  audioProcessor : option Proc.t;
  hdProcessor : option nat;
  config : TranscriptionServiceConfig;
  isConnected : bool;
  reconnectAttempts : Z;
  mediaStream : option nat;
  connectionCheckInterval : option nat;
  lastHeartbeatTime : Z
}.

Definition set_websocket (v : option nat) (r : t) : t :=
  {| websocket := v; audioProcessor := audioProcessor r; hdProcessor := hdProcessor r; config := config r; isConnected := isConnected r; reconnectAttempts := reconnectAttempts r; mediaStream := mediaStream r; connectionCheckInterval := connectionCheckInterval r; lastHeartbeatTime := lastHeartbeatTime r |}.
Definition set_audioProcessor (v : option Proc.t) (r : t) : t :=
  {| websocket := websocket r; audioProcessor := v; hdProcessor := hdProcessor r; config := config r; isConnected := isConnected r; reconnectAttempts := reconnectAttempts r; mediaStream := mediaStream r; connectionCheckInterval := connectionCheckInterval r; lastHeartbeatTime := lastHeartbeatTime r |}.
Definition set_hdProcessor (v : option nat) (r : t) : t :=
  {| websocket := websocket r; audioProcessor := audioProcessor r; hdProcessor := v; config := config r; isConnected := isConnected r; reconnectAttempts := reconnectAttempts r; mediaStream := mediaStream r; connectionCheckInterval := connectionCheckInterval r; lastHeartbeatTime := lastHeartbeatTime r |}.
Definition set_config (v : TranscriptionServiceConfig) (r : t) : t :=
  {| websocket := websocket r; audioProcessor := audioProcessor r; hdProcessor := hdProcessor r; config := v; isConnected := isConnected r; reconnectAttempts := reconnectAttempts r; mediaStream := mediaStream r; connectionCheckInterval := connectionCheckInterval r; lastHeartbeatTime := lastHeartbeatTime r |}.
Definition set_isConnected (v : bool) (r : t) : t :=
  {| websocket := websocket r; audioProcessor := audioProcessor r; hdProcessor := hdProcessor r; config := config r; isConnected := v; reconnectAttempts := reconnectAttempts r; mediaStream := mediaStream r; connectionCheckInterval := connectionCheckInterval r; lastHeartbeatTime := lastHeartbeatTime r |}.
Definition set_reconnectAttempts (v : Z) (r : t) : t :=
  {| websocket := websocket r; audioProcessor := audioProcessor r; hdProcessor := hdProcessor r; config := config r; isConnected := isConnected r; reconnectAttempts := v; mediaStream := mediaStream r; connectionCheckInterval := connectionCheckInterval r; lastHeartbeatTime := lastHeartbeatTime r |}.
Definition set_mediaStream (v : option nat) (r : t) : t :=
  {| websocket := websocket r; audioProcessor := audioProcessor r; hdProcessor := hdProcessor r; config := config r; isConnected := isConnected r; reconnectAttempts := reconnectAttempts r; mediaStream := v; connectionCheckInterval := connectionCheckInterval r; lastHeartbeatTime := lastHeartbeatTime r |}.
Definition set_connectionCheckInterval (v : option nat) (r : t) : t :=
  {| websocket := websocket r; audioProcessor := audioProcessor r; hdProcessor := hdProcessor r; config := config r; isConnected := isConnected r; reconnectAttempts := reconnectAttempts r; mediaStream := mediaStream r; connectionCheckInterval := v; lastHeartbeatTime := lastHeartbeatTime r |}.
Definition set_lastHeartbeatTime (v : Z) (r : t) : t :=
  {| websocket := websocket r; audioProcessor := audioProcessor r; hdProcessor := hdProcessor r; config := config r; isConnected := isConnected r; reconnectAttempts := reconnectAttempts r; mediaStream := mediaStream r; connectionCheckInterval := connectionCheckInterval r; lastHeartbeatTime := v |}.

End Svc.

(** Fields of [EnhancedTranscriptionManager].  The service object it owns is
    the one service of the world; [transcriptionService] records whether the
    manager's reference to it is set. *)
Module Mgr.

Record EnhancedTranscriptionOptions := {
  enableHD : bool;
  enableRealtime : bool;
  enableQualityAnalysis : bool;
  enableAccuracyValidation : bool;
  sampleRate : Q;
  language : string;
  model : string;
  apiKey : string;
  apiUrl : string
}.

Definition set_enableHD (v : bool) (r : EnhancedTranscriptionOptions) : EnhancedTranscriptionOptions :=
  {| enableHD := v; enableRealtime := enableRealtime r; enableQualityAnalysis := enableQualityAnalysis r; enableAccuracyValidation := enableAccuracyValidation r; sampleRate := sampleRate r; language := language r; model := model r; apiKey := apiKey r; apiUrl := apiUrl r |}.
Definition set_enableRealtime (v : bool) (r : EnhancedTranscriptionOptions) : EnhancedTranscriptionOptions :=
  {| enableHD := enableHD r; enableRealtime := v; enableQualityAnalysis := enableQualityAnalysis r; enableAccuracyValidation := enableAccuracyValidation r; sampleRate := sampleRate r; language := language r; model := model r; apiKey := apiKey r; apiUrl := apiUrl r |}.
Definition set_enableQualityAnalysis (v : bool) (r : EnhancedTranscriptionOptions) : EnhancedTranscriptionOptions :=
  {| enableHD := enableHD r; enableRealtime := enableRealtime r; enableQualityAnalysis := v; enableAccuracyValidation := enableAccuracyValidation r; sampleRate := sampleRate r; language := language r; model := model r; apiKey := apiKey r; apiUrl := apiUrl r |}.
Definition set_enableAccuracyValidation (v : bool) (r : EnhancedTranscriptionOptions) : EnhancedTranscriptionOptions :=
  {| enableHD := enableHD r; enableRealtime := enableRealtime r; enableQualityAnalysis := enableQualityAnalysis r; enableAccuracyValidation := v; sampleRate := sampleRate r; language := language r; model := model r; apiKey := apiKey r; apiUrl := apiUrl r |}.
Definition set_sampleRate (v : Q) (r : EnhancedTranscriptionOptions) : EnhancedTranscriptionOptions :=
  {| enableHD := enableHD r; enableRealtime := enableRealtime r; enableQualityAnalysis := enableQualityAnalysis r; enableAccuracyValidation := enableAccuracyValidation r; sampleRate := v; language := language r; model := model r; apiKey := apiKey r; apiUrl := apiUrl r |}.
Definition set_language (v : string) (r : EnhancedTranscriptionOptions) : EnhancedTranscriptionOptions :=
  {| enableHD := enableHD r; enableRealtime := enableRealtime r; enableQualityAnalysis := enableQualityAnalysis r; enableAccuracyValidation := enableAccuracyValidation r; sampleRate := sampleRate r; language := v; model := model r; apiKey := apiKey r; apiUrl := apiUrl r |}.
Definition set_model (v : string) (r : EnhancedTranscriptionOptions) : EnhancedTranscriptionOptions :=
  {| enableHD := enableHD r; enableRealtime := enableRealtime r; enableQualityAnalysis := enableQualityAnalysis r; enableAccuracyValidation := enableAccuracyValidation r; sampleRate := sampleRate r; language := language r; model := v; apiKey := apiKey r; apiUrl := apiUrl r |}.
Definition set_apiKey (v : string) (r : EnhancedTranscriptionOptions) : EnhancedTranscriptionOptions :=
  {| enableHD := enableHD r; enableRealtime := enableRealtime r; enableQualityAnalysis := enableQualityAnalysis r; enableAccuracyValidation := enableAccuracyValidation r; sampleRate := sampleRate r; language := language r; model := model r; apiKey := v; apiUrl := apiUrl r |}.
Definition set_apiUrl (v : string) (r : EnhancedTranscriptionOptions) : EnhancedTranscriptionOptions :=
  {| enableHD := enableHD r; enableRealtime := enableRealtime r; enableQualityAnalysis := enableQualityAnalysis r; enableAccuracyValidation := enableAccuracyValidation r; sampleRate := sampleRate r; language := language r; model := model r; apiKey := apiKey r; apiUrl := v |}.

Record TranscriptionMetrics := {
  accuracy : Js.value;
  latency : Z;
  qualityScore : Q;
  processingSpeed : Q;
  connectionStatus : bool;
  audioLevel : Q
}.

Definition set_accuracy (v : Js.value) (r : TranscriptionMetrics) : TranscriptionMetrics :=
  {| accuracy := v; latency := latency r; qualityScore := qualityScore r; processingSpeed := processingSpeed r; connectionStatus := connectionStatus r; audioLevel := audioLevel r |}.
Definition set_latency (v : Z) (r : TranscriptionMetrics) : TranscriptionMetrics :=
  {| accuracy := accuracy r; latency := v; qualityScore := qualityScore r; processingSpeed := processingSpeed r; connectionStatus := connectionStatus r; audioLevel := audioLevel r |}.
Definition set_qualityScore (v : Q) (r : TranscriptionMetrics) : TranscriptionMetrics :=
  {| accuracy := accuracy r; latency := latency r; qualityScore := v; processingSpeed := processingSpeed r; connectionStatus := connectionStatus r; audioLevel := audioLevel r |}.
Definition set_processingSpeed (v : Q) (r : TranscriptionMetrics) : TranscriptionMetrics :=
  {| accuracy := accuracy r; latency := latency r; qualityScore := qualityScore r; processingSpeed := v; connectionStatus := connectionStatus r; audioLevel := audioLevel r |}.
Definition set_connectionStatus (v : bool) (r : TranscriptionMetrics) : TranscriptionMetrics :=
  {| accuracy := accuracy r; latency := latency r; qualityScore := qualityScore r; processingSpeed := processingSpeed r; connectionStatus := v; audioLevel := audioLevel r |}.
Definition set_audioLevel (v : Q) (r : TranscriptionMetrics) : TranscriptionMetrics :=
  {| accuracy := accuracy r; latency := latency r; qualityScore := qualityScore r; processingSpeed := processingSpeed r; connectionStatus := connectionStatus r; audioLevel := v |}.

Record t := {
  transcriptionService : bool;
  audioProcessor : option nat;
  hdProcessor : option nat;
  qualityAnalyzer : option nat;
  accuracyValidator : option nat;
  streamMonitor : option nat;
  mediaStream : option nat;
  options : EnhancedTranscriptionOptions;
  isActive : bool;
  metrics : TranscriptionMetrics
}.

Definition set_transcriptionService (v : bool) (r : t) : t :=
  {| transcriptionService := v; audioProcessor := audioProcessor r; hdProcessor := hdProcessor r; qualityAnalyzer := qualityAnalyzer r; accuracyValidator := accuracyValidator r; streamMonitor := streamMonitor r; mediaStream := mediaStream r; options := options r; isActive := isActive r; metrics := metrics r |}.
Definition set_audioProcessor (v : option nat) (r : t) : t :=
  {| transcriptionService := transcriptionService r; audioProcessor := v; hdProcessor := hdProcessor r; qualityAnalyzer := qualityAnalyzer r; accuracyValidator := accuracyValidator r; streamMonitor := streamMonitor r; mediaStream := mediaStream r; options := options r; isActive := isActive r; metrics := metrics r |}.
Definition set_hdProcessor (v : option nat) (r : t) : t :=
  {| transcriptionService := transcriptionService r; audioProcessor := audioProcessor r; hdProcessor := v; qualityAnalyzer := qualityAnalyzer r; accuracyValidator := accuracyValidator r; streamMonitor := streamMonitor r; mediaStream := mediaStream r; options := options r; isActive := isActive r; metrics := metrics r |}.
Definition set_qualityAnalyzer (v : option nat) (r : t) : t :=
  {| transcriptionService := transcriptionService r; audioProcessor := audioProcessor r; hdProcessor := hdProcessor r; qualityAnalyzer := v; accuracyValidator := accuracyValidator r; streamMonitor := streamMonitor r; mediaStream := mediaStream r; options := options r; isActive := isActive r; metrics := metrics r |}.
Definition set_accuracyValidator (v : option nat) (r : t) : t :=
  {| transcriptionService := transcriptionService r; audioProcessor := audioProcessor r; hdProcessor := hdProcessor r; qualityAnalyzer := qualityAnalyzer r; accuracyValidator := v; streamMonitor := streamMonitor r; mediaStream := mediaStream r; options := options r; isActive := isActive r; metrics := metrics r |}.
Definition set_streamMonitor (v : option nat) (r : t) : t :=
  {| transcriptionService := transcriptionService r; audioProcessor := audioProcessor r; hdProcessor := hdProcessor r; qualityAnalyzer := qualityAnalyzer r; accuracyValidator := accuracyValidator r; streamMonitor := v; mediaStream := mediaStream r; options := options r; isActive := isActive r; metrics := metrics r |}.
Definition set_mediaStream (v : option nat) (r : t) : t :=
  {| transcriptionService := transcriptionService r; audioProcessor := audioProcessor r; hdProcessor := hdProcessor r; qualityAnalyzer := qualityAnalyzer r; accuracyValidator := accuracyValidator r; streamMonitor := streamMonitor r; mediaStream := v; options := options r; isActive := isActive r; metrics := metrics r |}.
Definition set_options (v : EnhancedTranscriptionOptions) (r : t) : t :=
  {| transcriptionService := transcriptionService r; audioProcessor := audioProcessor r; hdProcessor := hdProcessor r; qualityAnalyzer := qualityAnalyzer r; accuracyValidator := accuracyValidator r; streamMonitor := streamMonitor r; mediaStream := mediaStream r; options := v; isActive := isActive r; metrics := metrics r |}.
Definition set_isActive (v : bool) (r : t) : t :=
  {| transcriptionService := transcriptionService r; audioProcessor := audioProcessor r; hdProcessor := hdProcessor r; qualityAnalyzer := qualityAnalyzer r; accuracyValidator := accuracyValidator r; streamMonitor := streamMonitor r; mediaStream := mediaStream r; options := options r; isActive := v; metrics := metrics r |}.
Definition set_metrics (v : TranscriptionMetrics) (r : t) : t :=
  {| transcriptionService := transcriptionService r; audioProcessor := audioProcessor r; hdProcessor := hdProcessor r; qualityAnalyzer := qualityAnalyzer r; accuracyValidator := accuracyValidator r; streamMonitor := streamMonitor r; mediaStream := mediaStream r; options := options r; isActive := isActive r; metrics := v |}.

End Mgr.

(** ** The world *)

Module W.
Import Platform.

(** What the program did that is visible from outside: console output and
    the calls of the two consumer callbacks given to the manager. *)
Inductive Event :=
| Console (lvl : Level) (msg : string)
| UserTranscription (text confidence : Js.value) (metrics : Mgr.TranscriptionMetrics)
| UserError (msg : string).

(** The state of one page: the clock, the trace, the platform objects, the
    inputs ([Math.sqrt], the draws of [Math.random], the readings of the
    quality analyser) and the two application objects. *)
Record World := {
  now : Z;
  trace : list Event;
  timers : gmap nat Timer;
  nextTimer : nat;
  sockets : gmap nat WebSocket;
  nextSocket : nat;
  streams : gmap nat (list Track);
  nextStream : nat;
  components : gmap nat (ComponentKind * ComponentStatus);
  nextComponent : nat;
  math_sqrt : Q -> Q;
  random : nat -> Q;
  randomCalls : nat;
  quality : nat -> Q * Q;
  qualityCalls : nat;
  svc : Svc.t;
  mgr : Mgr.t
}.

Definition set_now (v : Z) (r : World) : World :=
  {| now := v; trace := trace r; timers := timers r; nextTimer := nextTimer r; sockets := sockets r; nextSocket := nextSocket r; streams := streams r; nextStream := nextStream r; components := components r; nextComponent := nextComponent r; math_sqrt := math_sqrt r; random := random r; randomCalls := randomCalls r; quality := quality r; qualityCalls := qualityCalls r; svc := svc r; mgr := mgr r |}.
Definition set_trace (v : list Event) (r : World) : World :=
  {| now := now r; trace := v; timers := timers r; nextTimer := nextTimer r; sockets := sockets r; nextSocket := nextSocket r; streams := streams r; nextStream := nextStream r; components := components r; nextComponent := nextComponent r; math_sqrt := math_sqrt r; random := random r; randomCalls := randomCalls r; quality := quality r; qualityCalls := qualityCalls r; svc := svc r; mgr := mgr r |}.
Definition set_timers (v : gmap nat Timer) (r : World) : World :=
  {| now := now r; trace := trace r; timers := v; nextTimer := nextTimer r; sockets := sockets r; nextSocket := nextSocket r; streams := streams r; nextStream := nextStream r; components := components r; nextComponent := nextComponent r; math_sqrt := math_sqrt r; random := random r; randomCalls := randomCalls r; quality := quality r; qualityCalls := qualityCalls r; svc := svc r; mgr := mgr r |}.
Definition set_nextTimer (v : nat) (r : World) : World :=
  {| now := now r; trace := trace r; timers := timers r; nextTimer := v; sockets := sockets r; nextSocket := nextSocket r; streams := streams r; nextStream := nextStream r; components := components r; nextComponent := nextComponent r; math_sqrt := math_sqrt r; random := random r; randomCalls := randomCalls r; quality := quality r; qualityCalls := qualityCalls r; svc := svc r; mgr := mgr r |}.
Definition set_sockets (v : gmap nat WebSocket) (r : World) : World :=
  {| now := now r; trace := trace r; timers := timers r; nextTimer := nextTimer r; sockets := v; nextSocket := nextSocket r; streams := streams r; nextStream := nextStream r; components := components r; nextComponent := nextComponent r; math_sqrt := math_sqrt r; random := random r; randomCalls := randomCalls r; quality := quality r; qualityCalls := qualityCalls r; svc := svc r; mgr := mgr r |}.
Definition set_nextSocket (v : nat) (r : World) : World :=
  {| now := now r; trace := trace r; timers := timers r; nextTimer := nextTimer r; sockets := sockets r; nextSocket := v; streams := streams r; nextStream := nextStream r; components := components r; nextComponent := nextComponent r; math_sqrt := math_sqrt r; random := random r; randomCalls := randomCalls r; quality := quality r; qualityCalls := qualityCalls r; svc := svc r; mgr := mgr r |}.
Definition set_streams (v : gmap nat (list Track)) (r : World) : World :=
  {| now := now r; trace := trace r; timers := timers r; nextTimer := nextTimer r; sockets := sockets r; nextSocket := nextSocket r; streams := v; nextStream := nextStream r; components := components r; nextComponent := nextComponent r; math_sqrt := math_sqrt r; random := random r; randomCalls := randomCalls r; quality := quality r; qualityCalls := qualityCalls r; svc := svc r; mgr := mgr r |}.
Definition set_nextStream (v : nat) (r : World) : World :=
  {| now := now r; trace := trace r; timers := timers r; nextTimer := nextTimer r; sockets := sockets r; nextSocket := nextSocket r; streams := streams r; nextStream := v; components := components r; nextComponent := nextComponent r; math_sqrt := math_sqrt r; random := random r; randomCalls := randomCalls r; quality := quality r; qualityCalls := qualityCalls r; svc := svc r; mgr := mgr r |}.
Definition set_components (v : gmap nat (ComponentKind * ComponentStatus)) (r : World) : World :=
  {| now := now r; trace := trace r; timers := timers r; nextTimer := nextTimer r; sockets := sockets r; nextSocket := nextSocket r; streams := streams r; nextStream := nextStream r; components := v; nextComponent := nextComponent r; math_sqrt := math_sqrt r; random := random r; randomCalls := randomCalls r; quality := quality r; qualityCalls := qualityCalls r; svc := svc r; mgr := mgr r |}.
Definition set_nextComponent (v : nat) (r : World) : World :=
  {| now := now r; trace := trace r; timers := timers r; nextTimer := nextTimer r; sockets := sockets r; nextSocket := nextSocket r; streams := streams r; nextStream := nextStream r; components := components r; nextComponent := v; math_sqrt := math_sqrt r; random := random r; randomCalls := randomCalls r; quality := quality r; qualityCalls := qualityCalls r; svc := svc r; mgr := mgr r |}.
Definition set_math_sqrt (v : Q -> Q) (r : World) : World :=
  {| now := now r; trace := trace r; timers := timers r; nextTimer := nextTimer r; sockets := sockets r; nextSocket := nextSocket r; streams := streams r; nextStream := nextStream r; components := components r; nextComponent := nextComponent r; math_sqrt := v; random := random r; randomCalls := randomCalls r; quality := quality r; qualityCalls := qualityCalls r; svc := svc r; mgr := mgr r |}.
Definition set_random (v : nat -> Q) (r : World) : World :=
  {| now := now r; trace := trace r; timers := timers r; nextTimer := nextTimer r; sockets := sockets r; nextSocket := nextSocket r; streams := streams r; nextStream := nextStream r; components := components r; nextComponent := nextComponent r; math_sqrt := math_sqrt r; random := v; randomCalls := randomCalls r; quality := quality r; qualityCalls := qualityCalls r; svc := svc r; mgr := mgr r |}.
Definition set_randomCalls (v : nat) (r : World) : World :=
  {| now := now r; trace := trace r; timers := timers r; nextTimer := nextTimer r; sockets := sockets r; nextSocket := nextSocket r; streams := streams r; nextStream := nextStream r; components := components r; nextComponent := nextComponent r; math_sqrt := math_sqrt r; random := random r; randomCalls := v; quality := quality r; qualityCalls := qualityCalls r; svc := svc r; mgr := mgr r |}.
Definition set_quality (v : nat -> Q * Q) (r : World) : World :=
  {| now := now r; trace := trace r; timers := timers r; nextTimer := nextTimer r; sockets := sockets r; nextSocket := nextSocket r; streams := streams r; nextStream := nextStream r; components := components r; nextComponent := nextComponent r; math_sqrt := math_sqrt r; random := random r; randomCalls := randomCalls r; quality := v; qualityCalls := qualityCalls r; svc := svc r; mgr := mgr r |}.
Definition set_qualityCalls (v : nat) (r : World) : World :=
  {| now := now r; trace := trace r; timers := timers r; nextTimer := nextTimer r; sockets := sockets r; nextSocket := nextSocket r; streams := streams r; nextStream := nextStream r; components := components r; nextComponent := nextComponent r; math_sqrt := math_sqrt r; random := random r; randomCalls := randomCalls r; quality := quality r; qualityCalls := v; svc := svc r; mgr := mgr r |}.
Definition set_svc (v : Svc.t) (r : World) : World :=
  {| now := now r; trace := trace r; timers := timers r; nextTimer := nextTimer r; sockets := sockets r; nextSocket := nextSocket r; streams := streams r; nextStream := nextStream r; components := components r; nextComponent := nextComponent r; math_sqrt := math_sqrt r; random := random r; randomCalls := randomCalls r; quality := quality r; qualityCalls := qualityCalls r; svc := v; mgr := mgr r |}.
Definition set_mgr (v : Mgr.t) (r : World) : World :=
  {| now := now r; trace := trace r; timers := timers r; nextTimer := nextTimer r; sockets := sockets r; nextSocket := nextSocket r; streams := streams r; nextStream := nextStream r; components := components r; nextComponent := nextComponent r; math_sqrt := math_sqrt r; random := random r; randomCalls := randomCalls r; quality := quality r; qualityCalls := qualityCalls r; svc := svc r; mgr := v |}.

End W.

(** ** Stateful code with exceptions *)

Module Monad.
Import W.

(** The outcome of a statement: normal completion or a thrown exception. *)
Inductive Res (A : Type) := Ok (a : A) | Throw (msg : string).
Arguments Ok {A} a.
Arguments Throw {A} msg.

Definition M (A : Type) : Type := World -> Res A * World.

Definition ret {A} (a : A) : M A := fun w => (Ok a, w).

Definition bind {A B} (m : M A) (k : A -> M B) : M B :=
  fun w =>
    match m w with
    | (Ok a, w') => k a w'
    | (Throw e, w') => (Throw e, w')
    end.

Definition throw {A} (msg : string) : M A := fun w => (Throw msg, w).

(** [try { body } catch (error) { handler }] *)
Definition tryCatch {A} (body : M A) (handler : string -> M A) : M A :=
  fun w =>
    match body w with
    | (Ok a, w') => (Ok a, w')
    | (Throw e, w') => handler e w'
    end.

Definition gets {A} (f : World -> A) : M A := fun w => (Ok (f w), w).
Definition modify (f : World -> World) : M unit := fun w => (Ok tt, f w).
Definition when (b : bool) (m : M unit) : M unit := if b then m else ret tt.

(** The world after running [m]. *)
Definition exec {A} (m : M A) (w : World) : World := snd (m w).
(** Whether [m] completes normally. *)
Definition returns {A} (m : M A) (w : World) : Prop := exists a, fst (m w) = Ok a.

(** [m] leaves the observation [f] of the world unchanged, whether it
    returns or throws. *)
Definition preserves {A B} (f : World -> B) (m : M A) : Prop :=
  forall w, f (snd (m w)) = f w.

(** [m] never throws. *)
Definition safe {A} (m : M A) : Prop :=
  forall w, exists a, fst (m w) = Ok a.

(** After [m], whether it returns or throws, the observation [f] is [v]. *)
Definition ensures {A B} (f : World -> B) (v : B) (m : M A) : Prop :=
  forall w, f (snd (m w)) = v.

Declare Scope monad_scope.
Delimit Scope monad_scope with monad.
Notation "x <- m ;; k" := (bind m (fun x => k))
  (at level 100, m at next level, right associativity) : monad_scope.
Notation "m ;; k" := (bind m (fun _ => k))
  (at level 100, right associativity) : monad_scope.

End Monad.

(** ** Platform operations *)

Module Browser.
Import Platform W Monad.
Local Open Scope monad_scope.
Local Open Scope Z_scope.

Definition console (lvl : Level) (msg : string) : M unit :=
  modify (fun w => set_trace (trace w ++ [Console lvl msg]) w).

Definition Date_now : M Z := gets now.

Definition Math_random : M Q :=
  fun w => (Ok (random w (randomCalls w)), set_randomCalls (S (randomCalls w)) w).

(** *** Timers *)

Definition addTimer (cb : Callback) (delay : Z) (periodic : bool) : M nat :=
  fun w =>
    let id := nextTimer w in
    let t := {| callback := cb; delay := delay; due := now w + delay; periodic := periodic |} in
    (Ok id, set_nextTimer (S id) (set_timers (<[id := t]> (timers w)) w)).

Definition setInterval (cb : Callback) (delay : Z) : M nat := addTimer cb delay true.
Definition setTimeout (cb : Callback) (delay : Z) : M nat := addTimer cb delay false.

Definition clearInterval (id : nat) : M unit :=
  modify (fun w => set_timers (delete id (timers w)) w).

(** A one-shot timer leaves the table when it fires. *)
Definition expire (id : nat) : M unit :=
  modify (fun w => set_timers (delete id (timers w)) w).

(** *** Sockets *)

(** [new WebSocket(url, protocols)]: a fresh socket in state CONNECTING. *)
Definition newWebSocket (a : Awaiter) : M nat :=
  fun w =>
    let id := nextSocket w in
    let s := {| readyState := CONNECTING; sent := []; sendThrows := false;
                promisePending := true; awaiter := a |} in
    (Ok id, set_nextSocket (S id) (set_sockets (<[id := s]> (sockets w)) w)).

Definition ws_readyState (id : nat) : M (option ReadyState) :=
  gets (fun w => readyState <$> sockets w !! id).

Definition isOPEN (r : option ReadyState) : bool :=
  match r with Some OPEN => true | _ => false end.

(** [socket.send(frame)]: raises while CONNECTING (and whenever the socket
    is marked [sendThrows]); queues the frame when OPEN; discards it when
    CLOSING or CLOSED. *)
Definition ws_send (id : nat) (f : Frame) : M unit :=
  fun w =>
    match sockets w !! id with
    | None => (Throw "TypeError", w)
    | Some s =>
        if sendThrows s then (Throw "send failed", w)
        else match readyState s with
             | CONNECTING => (Throw "InvalidStateError", w)
             | OPEN => (Ok tt, set_sockets (<[id := set_sent (sent s ++ [f]) s]> (sockets w)) w)
             | CLOSING | CLOSED => (Ok tt, w)
             end
    end.

(** [socket.close()]: starts the closing handshake of a socket that is
    CONNECTING or OPEN; the close event is delivered later. *)
Definition ws_close (id : nat) : M unit :=
  modify (fun w =>
    match sockets w !! id with
    | Some s =>
        match readyState s with
        | CONNECTING | OPEN => set_sockets (<[id := set_readyState CLOSING s]> (sockets w)) w
        | CLOSING | CLOSED => w
        end
    | None => w
    end).

(** Settling the promise of [connectWebSocket]: the first call returns who
    awaits it, later calls have no effect. *)
Definition settle (id : nat) : M (option Awaiter) :=
  fun w =>
    match sockets w !! id with
    | Some s =>
        if promisePending s
        then (Ok (Some (awaiter s)),
              set_sockets (<[id := set_promisePending false s]> (sockets w)) w)
        else (Ok None, w)
    | None => (Ok None, w)
    end.

(** *** Media streams *)

Definition newStream (tracks : list Track) : M nat :=
  fun w =>
    let id := nextStream w in
    (Ok id, set_nextStream (S id) (set_streams (<[id := tracks]> (streams w)) w)).

(** [stream.getAudioTracks()] and [stream.getTracks()] *)
Definition getTracks (id : nat) : M (list Track) :=
  gets (fun w => default [] (streams w !! id)).

(** [stream.getTracks().forEach(track => track.stop())] *)
Definition stopTracks (id : nat) : M unit :=
  modify (fun w =>
    set_streams (alter (map (set_trackReadyState ended)) id (streams w)) w).

(** [... forEach(track => { track.stop(); stream.removeTrack(track) })] *)
Definition stopAndRemoveTracks (id : nat) : M unit :=
  modify (fun w => set_streams (alter (fun _ => []) id (streams w)) w).

(** *** Components *)

Definition newComponent (k : ComponentKind) : M nat :=
  fun w =>
    let id := nextComponent w in
    (Ok id, set_nextComponent (S id) (set_components (<[id := (k, Created)]> (components w)) w)).

Definition setStatus (id : nat) (st : ComponentStatus) : M unit :=
  modify (fun w =>
    set_components (alter (fun c => (fst c, st)) id (components w)) w).

End Browser.

(** ** [AudioErrorHandler] (errorHandling.ts) *)

Module AudioErrorHandler.
Import Platform W Monad Browser.
Local Open Scope monad_scope.

(** The validity test of one track: live, or enabled and not muted. *)
Definition trackValid (t : Track) : bool :=
  match trackReadyState t with
  | live => true
  | ended => enabled t && negb (muted t)
  end.

(** [validateAudioStream(stream)] for a stream that is not null. *)
Definition validateAudioStream (stream : nat) : M bool :=
  audioTracks <- getTracks stream ;;
  console Log "Validating audio stream" ;;
  if (length audioTracks =? 0)%nat then
    console Warn "Audio stream has no audio tracks" ;; ret false
  else
    let validTracks := filter (fun t => trackValid t = true) audioTracks in
    if (length validTracks =? 0)%nat then
      console Warn "No valid audio tracks found" ;; ret false
    else
      console Log "Audio stream validation passed" ;; ret true.

(** [cleanupAudioResources(stream, audioContext, null)] *)
Definition cleanupAudioResources (stream audioContext : option nat) : M unit :=
  match stream with Some s => stopAndRemoveTracks s | None => ret tt end ;;
  match audioContext with Some c => setStatus c Released | None => ret tt end.

End AudioErrorHandler.

(** ** [RealtimeTranscriptionProcessor] (realtimeTranscription.ts)

    A method is a function from the fields of [this] to a computation that
    returns the updated fields. *)

Module RealtimeTranscriptionProcessor.
Import Platform W Monad Browser Chunk.
Local Open Scope monad_scope.
Local Open Scope Q_scope.

(** Defaults of the constructor, overridden by the configuration passed. *)
Definition defaultConfig : TranscriptionConfig :=
  {| sampleRate := 16000; channelCount := 1; bitDepth := 16;
     chunkDuration := 1000; overlapDuration := 200;
     silenceThreshold := 1#100; minSpeechDuration := 300; maxChunkSize := 48000 |}.

Definition new (cfg : TranscriptionConfig) : Proc.t :=
  {| Proc.audioContext := None; Proc.workletManager := None; Proc.mediaStream := None;
     Proc.isProcessing := false; Proc.audioBuffer := []; Proc.chunkQueue := [];
     Proc.lastProcessTime := 0; Proc.silenceStartTime := 0; Proc.isSpeaking := false;
     Proc.config := cfg; Proc.vad := Vad.newDetector |}.

(** What the awaited platform calls of [start] produce. *)
Record StartOutcome := {
  contextCreated : bool;       (* safeAudioContextCreation returned a context *)
  workletInitialized : bool;   (* workletManager.initialize() resolved true *)
  processingStarted : bool     (* workletManager.startProcessing() resolved true *)
}.

(** [performTranscription(audioData)]: the placeholder of the source. *)
Definition performTranscription (audioData : list Z) : string * Q :=
  (("[Audio chunk: " ++ pretty (length audioData) ++ " samples]")%string, 85#100).

(** [combineChunks(chunks)] *)
Definition combineChunks (chunks : list AudioChunk) : list Z :=
  concat (map data chunks).

(** [cleanup()]: [workletManager.stopProcessing()], then
    [workletManager.cleanup()], which calls [stopProcessing()] again; each call
    logs its line. *)
Definition cleanup (p : Proc.t) : M Proc.t :=
  match Proc.workletManager p with
  | Some m =>
      setStatus m Released ;;
      console Log "Audio Worklet processing stopped" ;;
      console Log "Audio Worklet processing stopped"
  | None => ret tt
  end ;;
  AudioErrorHandler.cleanupAudioResources (Proc.mediaStream p) (Proc.audioContext p) ;;
  ret (Proc.set_chunkQueue [] (Proc.set_audioBuffer []
        (Proc.set_workletManager None (Proc.set_audioContext None
          (Proc.set_mediaStream None p))))).

(** [stop()] *)
Definition stop (p : Proc.t) : M Proc.t :=
  console Log "Stopping real-time transcription processor..." ;;
  p <- cleanup (Proc.set_isProcessing false p) ;;
  console Log "Real-time transcription processor stopped" ;;
  ret p.

(** [start(stream)].  The result carries the fields as they are when the
    promise resolves. *)
Definition start (o : StartOutcome) (stream : nat) (p : Proc.t) : M (bool * Proc.t) :=
  (* [body] is the [try] block: its result says whether it completed, and
     carries the fields as assigned up to the point where it threw *)
  let body : M (bool * Proc.t) :=
    console Log "Starting real-time transcription processor..." ;;
    isValid <- AudioErrorHandler.validateAudioStream stream ;;
    if negb isValid then ret (false, p) else
    let p := Proc.set_mediaStream (Some stream) p in
    if negb (contextCreated o) then ret (false, p) else
    ctx <- newComponent AudioContext ;;
    setStatus ctx Running ;;
    let p := Proc.set_audioContext (Some ctx) p in
    wm <- newComponent AudioWorklet ;;
    let p := Proc.set_workletManager (Some wm) p in
    if negb (workletInitialized o) then
      console Error "Audio Worklet initialization failed completely" ;; ret (false, p)
    else if negb (processingStarted o) then ret (false, p) else
    setStatus wm Running ;;
    console Log "Audio Worklet processing started (silent mode)" ;;
    t <- Date_now ;;
    console Log "Real-time transcription processor started successfully" ;;
    ret (true, Proc.set_lastProcessTime t (Proc.set_isProcessing true p))
  in
  r <- body ;;
  if fst r then ret r
  else
    console Error "Failed to start transcription processor" ;;
    p <- cleanup (snd r) ;;
    ret (false, p).

Section Callback.
(** The callback given to the constructor. *)
Variable onTranscriptionCallback : string -> Q -> M unit.

(** [processTranscriptionChunk(chunk)].  The callback runs after an [await]
    on a value that is already available, that is at the end of the current
    task; no other code of the program runs in between. *)
Definition processTranscriptionChunk (chunk : AudioChunk) : M unit :=
  if negb (isSpeech chunk) || Num.ltb (confidence chunk) (1#2) then ret tt
  else
    tryCatch
      (let transcription := performTranscription (data chunk) in
       if negb (String.eqb (fst transcription) EmptyString)
       then onTranscriptionCallback (fst transcription) (confidence chunk)
       else ret tt)
      (fun _ => console Error "Error processing transcription chunk:").

(** [processAccumulatedSpeech()] *)
Definition processAccumulatedSpeech (p : Proc.t) : M unit :=
  let speechChunks := filter (fun c => isSpeech c = true) (Proc.chunkQueue p) in
  match speechChunks with
  | [] => ret tt
  | c0 :: _ =>
      let combinedData := combineChunks speechChunks in
      processTranscriptionChunk
        (set_duration (fold_left (fun sum c => sum + duration c) speechChunks 0)
           (set_data combinedData c0))
  end.

(** [handleSilencePeriod()] *)
Definition handleSilencePeriod (p : Proc.t) : M Proc.t :=
  currentTime <- Date_now ;;
  if (Proc.silenceStartTime p =? 0)%Z then
    ret (Proc.set_silenceStartTime currentTime p)
  else if (2000 <? currentTime - Proc.silenceStartTime p)%Z then
    processAccumulatedSpeech p ;;
    ret (Proc.set_silenceStartTime 0%Z p)
  else ret p.

(** [cleanupOldChunks()] *)
Definition cleanupOldChunks (p : Proc.t) : M Proc.t :=
  currentTime <- Date_now ;;
  ret (Proc.set_chunkQueue
         (filter (fun c => (currentTime - timestamp c < 30000)%Z) (Proc.chunkQueue p)) p).

(** The chunk built by [processAudioChunk] from the buffered frames. *)
Definition makeChunk (p : Proc.t) : M (AudioChunk * Proc.t) :=
  fun w =>
    let combinedData := concat (Proc.audioBuffer p) in
    let p := Proc.set_audioBuffer [] p in
    let vadResult := Vad.detectVoiceActivity (math_sqrt w) (Proc.vad p) combinedData in
    let p := Proc.set_vad (snd vadResult) p in
    let pcmData := Pcm.convertToPCM (random w) (randomCalls w) combinedData in
    let w := set_randomCalls (randomCalls w + length combinedData)%nat w in
    (t1 <- Date_now ;;
     r <- Math_random ;;
     t2 <- Date_now ;;
     ret ({| id := (t1, r);
             timestamp := t2;
             data := pcmData;
             duration := (inject_Z (Z.of_nat (length combinedData))
                          / sampleRate (Proc.config p)) * 1000;
             isSpeech := Vad.isSpeech (fst vadResult);
             confidence := Vad.confidence (fst vadResult) |}, p)) w.

(** [processAudioChunk()].  The [try] block of the source is left out, here
    and in [processAudioFrame]: no statement of the body throws, since
    [processTranscriptionChunk] catches what the callback raises. *)
Definition processAudioChunk (p : Proc.t) : M Proc.t :=
  if (length (Proc.audioBuffer p) =? 0)%nat then ret p
  else
    cp <- makeChunk p ;;
    let chunk := fst cp in
    let p := snd cp in
    let p := Proc.set_chunkQueue (Proc.chunkQueue p ++ [chunk]) p in
    p <- (if isSpeech chunk && Num.gtb (confidence chunk) (7#10) then
            processTranscriptionChunk chunk ;; ret p
          else if negb (Proc.isSpeaking p) then handleSilencePeriod p
          else ret p) ;;
    cleanupOldChunks p.

(** [processAudioFrame(audioData)] *)
Definition processAudioFrame (audioData : list Q) (p : Proc.t) : M Proc.t :=
  if negb (Proc.isProcessing p) then ret p
  else
    let p := Proc.set_audioBuffer (Proc.audioBuffer p ++ [audioData]) p in
    currentTime <- Date_now ;;
    let timeSinceLastProcess := (currentTime - Proc.lastProcessTime p)%Z in
    if Qle_bool (chunkDuration (Proc.config p)) (inject_Z timeSinceLastProcess) then
      p <- processAudioChunk p ;;
      ret (Proc.set_lastProcessTime currentTime p)
    else ret p.

End Callback.

End RealtimeTranscriptionProcessor.

(** ** [OptimizedTranscriptionService] (optimizedTranscriptionService.ts) *)

Module OptimizedTranscriptionService.
Import Platform W Monad Browser.
Local Open Scope monad_scope.
Local Open Scope Z_scope.

(** Defaults of the constructor. *)
Definition defaultConfig : Svc.TranscriptionServiceConfig :=
  {| Svc.apiKey := EmptyString; Svc.apiUrl := "wss://api.deepgram.com/v1/listen";
     Svc.language := "en-US"; Svc.model := "nova-2";
     Svc.enableHD := true; Svc.enableRealtime := true; Svc.sampleRate := 16000%Q;
     Svc.maxReconnectAttempts := 5; Svc.reconnectDelay := 3000 |}.

(** Field initialisers. *)
Definition new (cfg : Svc.TranscriptionServiceConfig) : Svc.t :=
  {| Svc.websocket := None; Svc.audioProcessor := None; Svc.hdProcessor := None;
     Svc.config := cfg; Svc.isConnected := false; Svc.reconnectAttempts := 0;
     Svc.mediaStream := None; Svc.connectionCheckInterval := None;
     Svc.lastHeartbeatTime := 0 |}.

(** Reads and writes of the fields of [this]. *)
Definition this {A} (f : Svc.t -> A) : M A := gets (fun w => f (svc w)).
Definition assign (f : Svc.t -> Svc.t) : M unit := modify (fun w => set_svc (f (svc w)) w).

(** A method of [this.audioProcessor], when that field is set. *)
Definition onProcessor (f : Proc.t -> M Proc.t) : M unit :=
  ap <- this Svc.audioProcessor ;;
  match ap with
  | Some p => (p' <- f p ;; assign (Svc.set_audioProcessor (Some p')))
  | None => ret tt
  end.

(** What the awaited platform calls of [start] produce.  [ClosedFirst]: the
    socket closes [closedAfter] ms after its creation, without having opened;
    the socket that the reconnection of the service then creates, if it
    creates one before the timeout, opens [reopenedAfter] ms after its
    creation, or not before the timeout.  A second socket that closes in turn
    before the timeout is not among the outcomes. *)
Inductive ConnectOutcome :=
| Opened (after : Z)   (* the open event arrives [after] ms later, before the timeout *)
| TimedOut             (* no event arrives within 10 s *)
| ConstructorThrew     (* [new WebSocket] raises *)
| ClosedFirst (closedAfter reopenedAfter : Z).

Record StartOutcome := {
  hdInitialized : bool;                  (* hdProcessor.initialize resolved true *)
  hdTracks : list Track;                 (* tracks of the processed stream *)
  connect : ConnectOutcome;
  processor : RealtimeTranscriptionProcessor.StartOutcome
}.

(** [disconnectWebSocket()] *)
Definition disconnectWebSocket : M unit :=
  ws <- this Svc.websocket ;;
  match ws with
  | Some id => ws_close id ;; assign (Svc.set_websocket None)
  | None => ret tt
  end.

(** [stop()] *)
Definition stop : M unit :=
  console Log "Stopping optimized transcription service..." ;;
  iv <- this Svc.connectionCheckInterval ;;
  match iv with
  | Some id => clearInterval id ;; assign (Svc.set_connectionCheckInterval None)
  | None => ret tt
  end ;;
  ap <- this Svc.audioProcessor ;;
  match ap with
  | Some p => RealtimeTranscriptionProcessor.stop p ;; assign (Svc.set_audioProcessor None)
  | None => ret tt
  end ;;
  hd <- this Svc.hdProcessor ;;
  match hd with
  | Some c =>
      console Log "Cleaning up high-definition audio processor..." ;;
      setStatus c Released ;;
      console Log "High-definition audio processor cleaned up" ;;
      assign (Svc.set_hdProcessor None)
  | None => ret tt
  end ;;
  disconnectWebSocket ;;
  assign (Svc.set_isConnected false) ;;
  assign (Svc.set_mediaStream None) ;;
  console Log "Optimized transcription service stopped".

(** [sendAudioData(audioData)] *)
Definition sendAudioData (audioData : list Z) : M unit :=
  connected <- this Svc.isConnected ;;
  ws <- this Svc.websocket ;;
  match ws with
  | Some id =>
      rs <- ws_readyState id ;;
      if connected && isOPEN rs then
        tryCatch (ws_send id (Binary audioData))
                 (fun _ => console Error "Error sending audio data:")
      else ret tt
  | None => ret tt
  end.

(** The synchronous part of [connectWebSocket()]: the executor of the
    promise.  The result is the new socket with the timer of its connection
    timeout, or [None] when the constructor raised and the promise is
    already resolved to false. *)
Definition connectWebSocket_begin (a : Awaiter) (constructorThrows : bool)
  : M (option (nat * nat)) :=
  console Log "Connecting to WebSocket:" ;;
  if constructorThrows then
    console Error "WebSocket connection error:" ;; ret None
  else
    id <- newWebSocket a ;;
    assign (Svc.set_websocket (Some id)) ;;
    timer <- setTimeout (ConnectTimeout id) 10000 ;;
    ret (Some (id, timer)).

(** The body of the callback that [handleTranscriptionResults] maps over
    the words of an alternative. *)
Definition mapWord (item : Js.value) : option Result.Word :=
  match Js.get item "word", Js.get item "start",
        Js.get item "end", Js.get item "confidence" with
  | Some w, Some s, Some e, Some c =>
      Some {| Result.word := w; Result.start := s;
              Result.end_ := e; Result.wconfidence := c |}
  | _, _, _, _ => None
  end.

Fixpoint mapItems (items : list Js.value) : option (list Result.Word) :=
  match items with
  | [] => Some []
  | item :: rest =>
      match mapWord item, mapItems rest with
      | Some w, Some l => Some (w :: l)
      | _, _ => None
      end
  end.

Section Callbacks.
(** The two callbacks given to the constructor. *)
Variable onTranscriptionCallback : Result.TranscriptionResult -> M unit.
Variable onConnectionStateChange : bool -> M unit.

(** The callback that [initializeProcessor] gives to the processor. *)
Definition processorCallback (text : string) (confidence : Q) : M unit :=
  t <- Date_now ;;
  lang <- this (fun s => Svc.language (Svc.config s)) ;;
  onTranscriptionCallback
    {| Result.text := Js.Str text;
       Result.confidence := Js.Num confidence;
       Result.isFinal := true;
       Result.timestamp := t;
       Result.duration := Js.Num 0;
       Result.language := Js.Str lang;
       Result.words := None |}.

(** The continuation of [reconnect()] after [await this.connectWebSocket()]. *)
Definition reconnect_resume (po : RealtimeTranscriptionProcessor.StartOutcome) : M unit :=
  ms <- this Svc.mediaStream ;;
  match ms with
  | Some stream =>
      onProcessor (fun p =>
        r <- RealtimeTranscriptionProcessor.start po stream p ;; ret (snd r))
  | None => ret tt
  end.

(** [resolve(b)] of the promise created with the socket [id]. *)
Definition resolve (po : RealtimeTranscriptionProcessor.StartOutcome) (id : nat) : M unit :=
  a <- settle id ;;
  match a with
  | Some AwaitReconnect => reconnect_resume po
  | Some AwaitStart | None => ret tt
  end.

(** [reconnect()] up to and including the call of [connectWebSocket()]. *)
Definition reconnect (po : RealtimeTranscriptionProcessor.StartOutcome)
    (constructorThrows : bool) : M unit :=
  console Log "Reconnecting transcription service..." ;;
  disconnectWebSocket ;;
  r <- connectWebSocket_begin AwaitReconnect constructorThrows ;;
  match r with
  | Some _ => ret tt
  | None => reconnect_resume po
  end.

(** [attemptReconnection()] *)
Definition attemptReconnection : M unit :=
  attempts <- this Svc.reconnectAttempts ;;
  cfg <- this Svc.config ;;
  if attempts <? Svc.maxReconnectAttempts cfg then
    assign (Svc.set_reconnectAttempts (attempts + 1)) ;;
    console Log "Attempting reconnection" ;;
    setTimeout Reconnect (Svc.reconnectDelay cfg) ;;
    ret tt
  else
    console Error "Max reconnection attempts reached" ;;
    stop.

(** [websocket.onopen] *)
Definition onopen (po : RealtimeTranscriptionProcessor.StartOutcome) (id : nat) : M unit :=
  console Log "WebSocket connection established" ;;
  assign (Svc.set_isConnected true) ;;
  assign (Svc.set_reconnectAttempts 0) ;;
  t <- Date_now ;;
  assign (Svc.set_lastHeartbeatTime t) ;;
  onConnectionStateChange true ;;
  resolve po id.

(** [websocket.onclose] *)
Definition onclose : M unit :=
  console Log "WebSocket connection closed" ;;
  assign (Svc.set_isConnected false) ;;
  onConnectionStateChange false ;;
  attemptReconnection.

(** [websocket.onerror] *)
Definition onerror : M unit := console Error "WebSocket error:".

(** The callback of the connection timeout set by [connectWebSocket()]. *)
Definition connectTimeout (po : RealtimeTranscriptionProcessor.StartOutcome) (id : nat) : M unit :=
  connected <- this Svc.isConnected ;;
  if negb connected then
    console Error "WebSocket connection timeout" ;;
    resolve po id
  else ret tt.

(** [result.words?.map(word => ({ word: word.word, ... }))].  The callback
    of [map] reads four properties of each item and raises a TypeError on an
    item that is [null] or [undefined]; [mapItems] is [None] in that case.
    A value that is not an array has no [map] method. *)
Definition mapWords (words : Js.value) : M (option (list Result.Word)) :=
  match words with
  | Js.Undefined | Js.Null => ret None
  | Js.Arr items =>
      match mapItems items with
      | Some l => ret (Some l)
      | None => throw "TypeError"
      end
  | _ => throw "TypeError"
  end.

(** [handleTranscriptionResults(data)] *)
Definition handleTranscriptionResults (data : Js.value) : M unit :=
  tryCatch
    (match Js.get data "channel" with
     | None => throw "TypeError"
     | Some channel =>
     match Js.get channel "alternatives" with
     | None => throw "TypeError"
     | Some alternatives =>
       if negb (Js.truthy alternatives) then ret tt else
       match Js.get alternatives "length" with
       | None => throw "TypeError"
       | Some len =>
         if negb (Js.gt_zero len) then ret tt else
         match Js.first alternatives with
         | None => throw "TypeError"
         | Some result =>
           match Js.get result "transcript", Js.get result "confidence",
                 Js.get data "is_final", Js.get data "duration",
                 Js.get data "language", Js.get result "words" with
           | Some transcript, Some conf, Some is_final, Some dur, Some lang, Some words =>
               t <- Date_now ;;
               cfgLang <- this (fun s => Svc.language (Svc.config s)) ;;
               ws <- mapWords words ;;
               onTranscriptionCallback
                 {| Result.text := transcript;
                    Result.confidence := Js.or conf (Js.Num (85#100));
                    Result.isFinal := Js.not is_final;
                    Result.timestamp := t;
                    Result.duration := Js.or dur (Js.Num 0);
                    Result.language := Js.or lang (Js.Str cfgLang);
                    Result.words := ws |}
           | _, _, _, _, _, _ => throw "TypeError"
           end
         end
       end
     end
     end)
    (fun _ => console Error "Error handling transcription results:").

(** [handleWebSocketMessage(event)]; [parsed] is the value of
    [JSON.parse(event.data)], or [None] when the parser raises. *)
Definition handleWebSocketMessage (parsed : option Js.value) : M unit :=
  tryCatch
    (match parsed with
     | None => throw "SyntaxError"
     | Some data =>
         match Js.get data "type" with
         | None => throw "TypeError"
         | Some ty =>
             if Js.eq_str ty "Results" then handleTranscriptionResults data
             else if Js.eq_str ty "Metadata" then console Log "Transcription metadata:"
             else if Js.eq_str ty "UtteranceEnd" then console Log "Utterance ended"
             else ret tt
         end
     end)
    (fun _ => console Error "Error parsing WebSocket message:").

(** [{ type: 'KeepAlive' }] *)
Definition keepAlive : Js.value := Js.Obj [("type", Js.Str "KeepAlive")].

(** The callback of the interval set by [startConnectionMonitoring()]. *)
Definition connectionCheck (po : RealtimeTranscriptionProcessor.StartOutcome)
    (constructorThrows : bool) : M unit :=
  connected <- this Svc.isConnected ;;
  if connected then
    ws <- this Svc.websocket ;;
    match ws with
    | Some id =>
        rs <- ws_readyState id ;;
        if isOPEN rs then ws_send id (Text keepAlive) else ret tt
    | None => ret tt
    end ;;
    t <- Date_now ;;
    last <- this Svc.lastHeartbeatTime ;;
    let timeSinceLastHeartbeat := t - last in
    if 30000 <? timeSinceLastHeartbeat then
      console Warn "Connection heartbeat timeout, reconnecting..." ;;
      reconnect po constructorThrows
    else ret tt
  else ret tt.

(** [startConnectionMonitoring()] *)
Definition startConnectionMonitoring : M unit :=
  id <- setInterval ConnectionCheck 10000 ;;
  assign (Svc.set_connectionCheckInterval (Some id)).

(** [applyHDProcessing(stream)] *)
Definition applyHDProcessing (o : StartOutcome) (stream : nat) : M nat :=
  console Log "Applying high-definition audio processing..." ;;
  hd <- newComponent HDProcessor ;;
  assign (Svc.set_hdProcessor (Some hd)) ;;
  console Log "Initializing high-definition audio processor..." ;;
  if hdInitialized o then
    setStatus hd Running ;;
    console Log "High-definition audio processor initialized successfully" ;;
    processedStream <- newStream (hdTracks o) ;;
    console Log "High-definition audio processing applied successfully" ;;
    ret processedStream
  else
    console Error "Failed to initialize audio processor:" ;;
    console Log "Cleaning up high-definition audio processor..." ;;
    setStatus hd Released ;;
    console Log "High-definition audio processor cleaned up" ;;
    console Error "HD processing error:" ;;
    ret stream.

(** [initializeProcessor(stream)] *)
Definition initializeProcessor (o : StartOutcome) (stream : nat) : M bool :=
  cfg <- this Svc.config ;;
  let transcriptionConfig :=
    {| Chunk.sampleRate := Svc.sampleRate cfg; Chunk.channelCount := 1%Q;
       Chunk.bitDepth := 16%Q; Chunk.chunkDuration := 500%Q;
       Chunk.overlapDuration := 100%Q; Chunk.silenceThreshold := (5#1000)%Q;
       Chunk.minSpeechDuration := 200%Q; Chunk.maxChunkSize := 24000%Q |} in
  let p := RealtimeTranscriptionProcessor.new transcriptionConfig in
  assign (Svc.set_audioProcessor (Some p)) ;;
  r <- RealtimeTranscriptionProcessor.start (processor o) stream p ;;
  assign (Svc.set_audioProcessor (Some (snd r))) ;;
  ret (fst r).

(** Whether the promise created with the socket [id] is still unsettled. *)
Definition unsettled (id : nat) : M bool :=
  gets (fun w => match sockets w !! id with
                 | Some s => promisePending s
                 | None => false
                 end).

(** The events of the outcome [ClosedFirst] up to the connection timeout of
    the socket [id]: its close event; the timer of the reconnection, when
    [attemptReconnection] has set one that is due before [deadline]; the open
    event of the socket that [reconnect()] then created, when it arrives
    before [deadline]. *)
Definition closedFirst (o : StartOutcome) (id : nat) (deadline : Z)
    (closedAfter reopenedAfter : Z) : M unit :=
  modify (fun w => set_now (now w + closedAfter) w) ;;
  modify (fun w => set_sockets (alter (set_readyState CLOSED) id (sockets w)) w) ;;
  n0 <- gets nextTimer ;;
  onclose ;;
  n1 <- gets nextTimer ;;
  tm <- gets (fun w => timers w !! pred n1) ;;
  match tm with
  | Some t =>
      if (n0 <? n1)%nat && bool_decide (callback t = Reconnect) && (due t <? deadline) then
        modify (fun w => set_now (Z.max (now w) (due t)) w) ;;
        expire (pred n1) ;;
        reconnect (processor o) false ;;
        ws <- this Svc.websocket ;;
        match ws with
        | Some id1 =>
            t1 <- Date_now ;;
            rs <- ws_readyState id1 ;;
            match rs with
            | Some CONNECTING =>
                if (0 <=? reopenedAfter) && (t1 + reopenedAfter <? deadline) then
                  modify (fun w => set_now (t1 + reopenedAfter) w) ;;
                  modify (fun w => set_sockets (alter (set_readyState OPEN) id1 (sockets w)) w) ;;
                  onopen (processor o) id1
                else ret tt
            | _ => ret tt
            end
        | None => ret tt
        end
      else ret tt
  | None => ret tt
  end.

(** [await this.connectWebSocket()] as [start] sees it: the executor, then
    the events up to the one that settles the promise.  The result is the
    value the promise resolves to, or [None] when it never settles: the
    promise is resolved by the open event of its socket, by the timeout when
    it finds [isConnected] false, and by nothing else. *)
Definition connectWebSocket (o : StartOutcome) : M (option bool) :=
  match connect o with
  | ConstructorThrew =>
      connectWebSocket_begin AwaitStart true ;; ret (Some false)
  | Opened after =>
      r <- connectWebSocket_begin AwaitStart false ;;
      match r with
      | Some (id, _) =>
          modify (fun w => set_now (now w + after) w) ;;
          modify (fun w => set_sockets (alter (set_readyState OPEN) id (sockets w)) w) ;;
          onopen (processor o) id ;;
          ret (Some true)
      | None => ret (Some false)
      end
  | TimedOut =>
      r <- connectWebSocket_begin AwaitStart false ;;
      match r with
      | Some (id, timer) =>
          modify (fun w => set_now (now w + 10000) w) ;;
          expire timer ;;
          connectTimeout (processor o) id ;;
          ret (Some false)
      | None => ret (Some false)
      end
  | ClosedFirst closedAfter reopenedAfter =>
      r <- connectWebSocket_begin AwaitStart false ;;
      match r with
      | Some (id, timer) =>
          t0 <- Date_now ;;
          let deadline := t0 + 10000 in
          (if (0 <=? closedAfter) && (closedAfter <? 10000)
           then closedFirst o id deadline closedAfter reopenedAfter
           else ret tt) ;;
          modify (fun w => set_now (Z.max (now w) deadline) w) ;;
          expire timer ;;
          connectTimeout (processor o) id ;;
          pending <- unsettled id ;;
          ret (if pending then None else Some false)
      | None => ret (Some false)
      end
  end.

(** [start(stream)].  The [try] block gives [Some true] when it ran to its
    end, [Some false] when it threw, and [None] when it never resumed after
    [await this.connectWebSocket()]. *)
Definition start (o : StartOutcome) (stream : nat) : M (option bool) :=
  let body : M (option bool) :=
    console Log "Starting optimized transcription service..." ;;
    isValid <- AudioErrorHandler.validateAudioStream stream ;;
    if negb isValid then ret (Some false) else
    assign (Svc.set_mediaStream (Some stream)) ;;
    enableHD <- this (fun s => Svc.enableHD (Svc.config s)) ;;
    processedStream <- (if enableHD then applyHDProcessing o stream else ret stream) ;;
    settled <- connectWebSocket o ;;
    match settled with
    | None => ret None
    | Some connected =>
        if negb connected then ret (Some false) else
        enableRealtime <- this (fun s => Svc.enableRealtime (Svc.config s)) ;;
        processorStarted <- (if enableRealtime then initializeProcessor o processedStream
                             else ret true) ;;
        if negb processorStarted then ret (Some false) else
        startConnectionMonitoring ;;
        console Log "Optimized transcription service started successfully" ;;
        ret (Some true)
    end
  in
  ok <- body ;;
  match ok with
  | Some true => ret (Some true)
  | Some false =>
      console Error "Failed to start transcription service:" ;;
      stop ;;
      ret (Some false)
  | None => ret None
  end.

End Callbacks.

End OptimizedTranscriptionService.

(** ** [EnhancedTranscriptionManager] (enhancedTranscription.ts)

    The methods [updateOptions], [runAccuracyTest], [getMetrics] and
    [getDetailedStats] are not part of the model, and the background test run
    started by [validateAccuracy] is not followed. *)

Module EnhancedTranscriptionManager.
Import Platform W Monad Browser.
Local Open Scope monad_scope.
Local Open Scope Z_scope.

(** Defaults of the constructor. *)
Definition defaultOptions : Mgr.EnhancedTranscriptionOptions :=
  {| Mgr.enableHD := true; Mgr.enableRealtime := true;
     Mgr.enableQualityAnalysis := true; Mgr.enableAccuracyValidation := false;
     Mgr.sampleRate := 16000%Q; Mgr.language := "en-US"; Mgr.model := "nova-2";
     Mgr.apiKey := EmptyString; Mgr.apiUrl := "wss://api.deepgram.com/v1/listen" |}.

Definition initialMetrics : Mgr.TranscriptionMetrics :=
  {| Mgr.accuracy := Js.Num 0; Mgr.latency := 0; Mgr.qualityScore := 0%Q;
     Mgr.processingSpeed := 0%Q; Mgr.connectionStatus := false; Mgr.audioLevel := 0%Q |}.

(** Field initialisers and constructor. *)
Definition new (opts : Mgr.EnhancedTranscriptionOptions) : Mgr.t :=
  {| Mgr.transcriptionService := false; Mgr.audioProcessor := None;
     Mgr.hdProcessor := None; Mgr.qualityAnalyzer := None;
     Mgr.accuracyValidator := None; Mgr.streamMonitor := None;
     Mgr.mediaStream := None; Mgr.options := opts; Mgr.isActive := false;
     Mgr.metrics := initialMetrics |}.

Definition this {A} (f : Mgr.t -> A) : M A := gets (fun w => f (mgr w)).
Definition assign (f : Mgr.t -> Mgr.t) : M unit := modify (fun w => set_mgr (f (mgr w)) w).
Definition assignMetrics (f : Mgr.TranscriptionMetrics -> Mgr.TranscriptionMetrics) : M unit :=
  assign (fun m => Mgr.set_metrics (f (Mgr.metrics m)) m).

(** The two callbacks given to the constructor of the manager. *)
Definition onTranscriptionCallback (text confidence : Js.value)
    (metrics : Mgr.TranscriptionMetrics) : M unit :=
  modify (fun w => set_trace (trace w ++ [UserTranscription text confidence metrics]) w).

Definition onErrorCallback (msg : string) : M unit :=
  modify (fun w => set_trace (trace w ++ [UserError msg]) w).

(** What the awaited platform calls of the manager produce. *)
Inductive Acquired :=
| SystemAudio (tracks : list Track)
| Microphone (tracks : list Track)
| NoStream.

Record InitOutcome := {
  acquired : Acquired;               (* getAudioStream() *)
  analyzerInitialized : bool;        (* qualityAnalyzer.initialize(stream) *)
  service : OptimizedTranscriptionService.StartOutcome
}.

(** [qualityAnalyzer.analyzeQuality()]: the pair of [qualityScore] and
    [signalLevel], or [None] for the empty object returned by an analyser
    that was not initialised. *)
Definition analyzeQuality (analyzer : nat) : M (option (Q * Q)) :=
  fun w =>
    match components w !! analyzer with
    | Some (_, Running) =>
        (Ok (Some (quality w (qualityCalls w))), set_qualityCalls (S (qualityCalls w)) w)
    | _ => (Ok None, w)
    end.

(** [x || y] on numbers. *)
Definition orQ (x y : Q) : Q := if Qeq_bool x 0 then y else x.

(** [getAudioStream()] *)
Definition getAudioStream (a : Acquired) : M (option nat) :=
  match a with
  | SystemAudio tracks =>
      s <- newStream tracks ;; console Log "Using system audio stream" ;; ret (Some s)
  | Microphone tracks =>
      s <- newStream tracks ;; console Log "Using microphone audio stream" ;; ret (Some s)
  | NoStream =>
      console Error "Failed to get audio stream:" ;; ret None
  end.

(** [updateMetrics(result)] *)
Definition updateMetrics (result : Result.TranscriptionResult) : M unit :=
  when (Js.truthy (Result.confidence result))
       (assignMetrics (Mgr.set_accuracy (Result.confidence result))) ;;
  (if Result.timestamp result =? 0 then ret tt
   else t <- Date_now ;; assignMetrics (Mgr.set_latency (t - Result.timestamp result))) ;;
  qa <- this Mgr.qualityAnalyzer ;;
  match qa with
  | Some a =>
      qd <- analyzeQuality a ;;
      let score := match qd with Some (s, _) => s | None => 0%Q end in
      let level := match qd with Some (_, l) => l | None => 0%Q end in
      assignMetrics (Mgr.set_qualityScore (orQ score 0%Q)) ;;
      assignMetrics (Mgr.set_audioLevel (orQ level 0%Q))
  | None => ret tt
  end ;;
  ts <- this Mgr.transcriptionService ;;
  if ts then
    connected <- gets (fun w => Svc.isConnected (svc w)) ;;
    assignMetrics (Mgr.set_connectionStatus connected)
  else ret tt.

(** [handleTranscriptionResult(result)]: the transcription callback given
    to the service. *)
Definition handleTranscriptionResult (result : Result.TranscriptionResult) : M unit :=
  tryCatch
    (updateMetrics result ;;
     m <- this Mgr.metrics ;;
     onTranscriptionCallback (Result.text result) (Result.confidence result) m)
    (fun _ =>
       console Error "Error handling transcription result:" ;;
       onErrorCallback "Error processing transcription result").

(** [handleConnectionStateChange(connected)]: the connection callback given
    to the service. *)
Definition handleConnectionStateChange (connected : bool) : M unit :=
  assignMetrics (Mgr.set_connectionStatus connected) ;;
  console Log (if connected then "Transcription connection established"
               else "Transcription connection lost").

(** The service as the manager constructs it. *)
Definition service_start := OptimizedTranscriptionService.start
  handleConnectionStateChange.
Definition service_stop := OptimizedTranscriptionService.stop.

(** [collectMetrics()] *)
Definition collectMetrics : M unit :=
  qa <- this Mgr.qualityAnalyzer ;;
  match qa with
  | Some a =>
      qd <- analyzeQuality a ;;
      old <- this (fun m => Mgr.qualityScore (Mgr.metrics m)) ;;
      let score := match qd with Some (s, _) => s | None => 0%Q end in
      assignMetrics (Mgr.set_qualityScore (orQ score old))
  | None => ret tt
  end ;;
  ts <- this Mgr.transcriptionService ;;
  if ts then
    connected <- gets (fun w => Svc.isConnected (svc w)) ;;
    assignMetrics (Mgr.set_connectionStatus connected)
  else ret tt.

(** [startMetricsCollection()]: the handle of the interval is dropped. *)
Definition startMetricsCollection : M unit :=
  setInterval CollectMetrics 1000 ;; ret tt.

(** [handleStreamDisconnection()] *)
Definition handleStreamDisconnection : M unit :=
  onErrorCallback "Audio stream disconnected" ;;
  setTimeout StreamReconnect 2000 ;; ret tt.

(** [monitorStreamHealth(stream, onDisconnect)] of audioUtils.ts: the result
    is the interval that the returned function clears. *)
Definition monitorStreamHealth (stream : nat) : M nat :=
  setInterval (CheckHealth stream 0) 10000.

(** The callback passed to [monitorStreamHealth] by [initialize]. *)
Definition onDisconnect : M unit :=
  console Warn "Audio stream disconnected, attempting to reconnect..." ;;
  handleStreamDisconnection.

(** [checkHealth()]: the result is the new value of [consecutiveFailures]. *)
Definition checkHealth (stream : nat) (consecutiveFailures : Z) : M Z :=
  audioTracks <- getTracks stream ;;
  console Log "Audio stream health check" ;;
  let failed (msg : string) : M Z :=
    console Warn msg ;;
    let n := consecutiveFailures + 1 in
    when (3 <=? n) onDisconnect ;;
    ret n in
  if (length audioTracks =? 0)%nat then failed "No audio tracks found in stream"
  else if existsb AudioErrorHandler.trackValid audioTracks then
    console Log "Audio stream health check passed" ;; ret 0
  else failed "Audio stream health check failed - no live/enabled tracks".

(** [stop()] *)
Definition stop : M unit :=
  console Log "Stopping enhanced transcription manager..." ;;
  assign (Mgr.set_isActive false) ;;
  sm <- this Mgr.streamMonitor ;;
  match sm with
  | Some id => clearInterval id ;; assign (Mgr.set_streamMonitor None)
  | None => ret tt
  end ;;
  ts <- this Mgr.transcriptionService ;;
  (if ts then service_stop ;; assign (Mgr.set_transcriptionService false) else ret tt) ;;
  ap <- this Mgr.audioProcessor ;;
  match ap with
  | Some c => setStatus c Released ;; assign (Mgr.set_audioProcessor None)
  | None => ret tt
  end ;;
  hd <- this Mgr.hdProcessor ;;
  match hd with
  | Some c => setStatus c Released ;; assign (Mgr.set_hdProcessor None)
  | None => ret tt
  end ;;
  qa <- this Mgr.qualityAnalyzer ;;
  match qa with
  | Some c => setStatus c Released ;; assign (Mgr.set_qualityAnalyzer None)
  | None => ret tt
  end ;;
  av <- this Mgr.accuracyValidator ;;
  match av with
  | Some c => setStatus c Released ;; assign (Mgr.set_accuracyValidator None)
  | None => ret tt
  end ;;
  ms <- this Mgr.mediaStream ;;
  match ms with
  | Some s => stopTracks s ;; assign (Mgr.set_mediaStream None)
  | None => ret tt
  end ;;
  console Log "Enhanced transcription manager stopped".

(** [cleanup()] *)
Definition cleanup : M unit := stop.

(** The configuration that [initialize] passes to the service. *)
Definition serviceConfig (o : Mgr.EnhancedTranscriptionOptions) : Svc.TranscriptionServiceConfig :=
  {| Svc.apiKey := Mgr.apiKey o; Svc.apiUrl := Mgr.apiUrl o;
     Svc.language := Mgr.language o; Svc.model := Mgr.model o;
     Svc.enableHD := Mgr.enableHD o; Svc.enableRealtime := Mgr.enableRealtime o;
     Svc.sampleRate := Mgr.sampleRate o;
     Svc.maxReconnectAttempts := 5; Svc.reconnectDelay := 3000 |}.

(** [initialize(audioSource)].  The [try] block gives [Some true] when it
    ran to its end, [Some false] when it threw, and [None] when it never
    resumed after [await this.transcriptionService.start(audioSource)]. *)
Definition initialize (o : InitOutcome) (audioSource : option nat) : M (option bool) :=
  let body : M (option bool) :=
    console Log "Initializing enhanced transcription manager..." ;;
    source <- match audioSource with
              | Some s => ret (Some s)
              | None => getAudioStream (acquired o)
              end ;;
    match source with
    | None => ret (Some false)
    | Some audioSource =>
        assign (Mgr.set_mediaStream (Some audioSource)) ;;
        opts <- this Mgr.options ;;
        (if Mgr.enableAccuracyValidation opts then
           c <- newComponent AccuracyValidator ;;
           setStatus c Running ;;
           assign (Mgr.set_accuracyValidator (Some c))
         else ret tt) ;;
        (if Mgr.enableQualityAnalysis opts then
           c <- newComponent QualityAnalyzer ;;
           assign (Mgr.set_qualityAnalyzer (Some c)) ;;
           if analyzerInitialized o then setStatus c Running
           else console Warn "Failed to initialize quality analyzer"
         else ret tt) ;;
        modify (fun w => set_svc (OptimizedTranscriptionService.new (serviceConfig opts)) w) ;;
        assign (Mgr.set_transcriptionService true) ;;
        settled <- service_start (service o) audioSource ;;
        match settled with
        | None => ret None
        | Some serviceStarted =>
            if negb serviceStarted then ret (Some false) else
            id <- monitorStreamHealth audioSource ;;
            assign (Mgr.set_streamMonitor (Some id)) ;;
            assign (Mgr.set_isActive true) ;;
            startMetricsCollection ;;
            console Log "Enhanced transcription manager initialized successfully" ;;
            ret (Some true)
        end
    end
  in
  ok <- body ;;
  match ok with
  | Some true => ret (Some true)
  | Some false =>
      console Error "Failed to initialize transcription manager:" ;;
      cleanup ;;
      ret (Some false)
  | None => ret None
  end.

(** [reconnect()]: [Some tt] when it returned, [None] when it never resumed
    after [await this.transcriptionService!.start(newStream)]. *)
Definition reconnect (o : InitOutcome) : M (option unit) :=
  let body : M (option bool) :=
    console Log "Attempting to reconnect transcription service..." ;;
    ts <- this Mgr.transcriptionService ;;
    (if ts then service_stop else ret tt) ;;
    newStream <- getAudioStream (acquired o) ;;
    match newStream with
    | None => ret (Some false)
    | Some s =>
        assign (Mgr.set_mediaStream (Some s)) ;;
        if negb ts then ret (Some false) else
        settled <- service_start (service o) s ;;
        match settled with
        | None => ret None
        | Some reconnected =>
            if negb reconnected then ret (Some false) else
            console Log "Reconnection successful" ;; ret (Some true)
        end
    end
  in
  ok <- body ;;
  match ok with
  | Some true => ret (Some tt)
  | Some false =>
      console Error "Reconnection failed:" ;;
      onErrorCallback "Failed to reconnect transcription service" ;;
      ret (Some tt)
  | None => ret None
  end.

End EnhancedTranscriptionManager.

(** ** The event loop

    One event is one task of the page: a timer firing, a socket event, a
    frame posted by the audio worklet, or a call made by the consumer. *)

Module EventLoop.
Import Platform W Monad Browser.
Local Open Scope monad_scope.
Local Open Scope Z_scope.

Module S := OptimizedTranscriptionService.
Module E := EnhancedTranscriptionManager.

(** What the platform calls awaited inside a task produce. *)
Record Outcomes := {
  constructorThrows : bool;
  processorStart : RealtimeTranscriptionProcessor.StartOutcome;
  managerReconnect : E.InitOutcome
}.

Inductive Event :=
| Advance (dt : Z)
| FireTimer (id : nat) (o : Outcomes)
| SocketOpen (id : nat) (o : Outcomes)
| SocketMessage (id : nat) (parsed : option Js.value)
| SocketError (id : nat)
| SocketClose (id : nat)
| AudioFrame (samples : list Q)
| CallStop
| CallSendAudioData (audioData : list Z).

(** The service methods with the callbacks the manager binds. *)
Definition onopen := S.onopen E.handleConnectionStateChange.
Definition onclose := S.onclose E.handleConnectionStateChange.
Definition connectTimeout := S.connectTimeout.
Definition handleWebSocketMessage := S.handleWebSocketMessage E.handleTranscriptionResult.
Definition connectionCheck := S.connectionCheck.
Definition processAudioFrame (samples : list Q) : M unit :=
  S.onProcessor
    (RealtimeTranscriptionProcessor.processAudioFrame
       (S.processorCallback E.handleTranscriptionResult) samples).

(** The body of a timer callback. *)
Definition runCallback (id : nat) (cb : Callback) (o : Outcomes) : M unit :=
  match cb with
  | CollectMetrics => E.collectMetrics
  | CheckHealth stream failures =>
      n <- E.checkHealth stream failures ;;
      modify (fun w => set_timers (alter (set_callback (CheckHealth stream n)) id (timers w)) w)
  | ConnectionCheck => connectionCheck (processorStart o) (constructorThrows o)
  | ConnectTimeout socket => connectTimeout (processorStart o) socket
  | Reconnect => S.reconnect (processorStart o) (constructorThrows o)
  | StreamReconnect => E.reconnect (managerReconnect o) ;; ret tt
  end.

(** A pending timer fires: the clock is at least its due time, a periodic
    timer is re-armed and a one-shot timer is removed, then the callback runs. *)
Definition fired (id : nat) (t : Timer) (o : Outcomes) : M unit :=
  modify (fun w => set_now (Z.max (now w) (due t)) w) ;;
  (if periodic t then
     modify (fun w => set_timers (<[id := set_due (due t + delay t) t]> (timers w)) w)
   else expire id) ;;
  runCallback id (callback t) o.

Definition fireTimer (id : nat) (o : Outcomes) : M unit :=
  t <- gets (fun w => timers w !! id) ;;
  match t with
  | None => ret tt
  | Some t => fired id t o
  end.

Definition socketState (id : nat) : M (option ReadyState) := ws_readyState id.

Definition setSocketState (id : nat) (r : ReadyState) : M unit :=
  modify (fun w => set_sockets (alter (set_readyState r) id (sockets w)) w).

(** The task of one event.  An event that the platform cannot deliver in
    the current state (an open event for a socket that is not CONNECTING, a
    close event for a socket that is already CLOSED, ...) leaves the world
    unchanged. *)
Definition task (e : Event) : M unit :=
  match e with
  | Advance dt => modify (fun w => set_now (now w + Z.max 0 dt) w)
  | FireTimer id o => fireTimer id o
  | SocketOpen id o =>
      r <- socketState id ;;
      match r with
      | Some CONNECTING => setSocketState id OPEN ;; onopen (processorStart o) id
      | _ => ret tt
      end
  | SocketMessage id parsed =>
      r <- socketState id ;;
      match r with
      | Some OPEN | Some CLOSING => handleWebSocketMessage parsed
      | _ => ret tt
      end
  | SocketError id =>
      r <- socketState id ;;
      match r with
      | Some CLOSED | None => ret tt
      | Some _ => S.onerror
      end
  | SocketClose id =>
      r <- socketState id ;;
      match r with
      | Some CLOSED | None => ret tt
      | Some _ => setSocketState id CLOSED ;; onclose
      end
  | AudioFrame samples => processAudioFrame samples
  | CallStop => E.stop
  | CallSendAudioData audioData => S.sendAudioData audioData
  end.

(** An exception that escapes a task is reported by the platform and the
    page goes on with the state reached. *)
Definition step (w : World) (e : Event) : World := exec (task e) w.

Definition run (w : World) (events : list Event) : World := fold_left step events w.

End EventLoop.

(** ** Observations of the trace *)

Module Observe.
Import Platform W.

(** The calls of the consumer's callbacks, in order. *)
Definition userEvents (tr : list Event) : list Event :=
  List.filter (fun e => match e with Console _ _ => false | _ => true end) tr.

(** The calls of [onError], in order. *)
Definition userErrors (tr : list Event) : list Event :=
  List.filter (fun e => match e with UserError _ => true | _ => false end) tr.

(** The number of reconnection attempts announced by [attemptReconnection],
    which logs one line for each attempt it schedules. *)
Definition isAttemptLog (e : Event) : bool :=
  match e with
  | Console Log msg => String.eqb msg "Attempting reconnection"
  | _ => false
  end.

Definition attemptsScheduled (tr : list Event) : Z :=
  Z.of_nat (length (List.filter isAttemptLog tr)).

(** The pending timers with a given callback. *)
Definition pendingWith (cb : Callback) (w : World) : list (nat * Timer) :=
  List.filter (fun kt => if decide (callback (snd kt) = cb) then true else false)
    (map_to_list (timers w)).

Definition isOpen (s : WebSocket) : bool :=
  match readyState s with OPEN => true | _ => false end.

(** What [sendAudioData] does, by cases on the state it finds. *)
Definition afterSend (audioData : list Z) (w : World) : World :=
  match Svc.websocket (svc w) with
  | Some id =>
      match sockets w !! id with
      | Some s =>
          if Svc.isConnected (svc w) && isOpen s then
            if sendThrows s
            then set_trace (trace w ++ [Console Error "Error sending audio data:"]) w
            else set_sockets (<[id := set_sent (sent s ++ [Binary audioData]) s]> (sockets w)) w
          else w
      | None => w
      end
  | None => w
  end.

(** A run of calls of [sendAudioData]. *)
Definition sendAll (buffers : list (list Z)) (w : World) : World :=
  fold_left (fun w b => Monad.exec (OptimizedTranscriptionService.sendAudioData b) w) buffers w.

End Observe.

(** ** A concrete page, for examples *)

Module Scenario.
Import Platform W Monad Browser.
Local Open Scope Z_scope.

Module S := OptimizedTranscriptionService.
Module E := EnhancedTranscriptionManager.

(** A page on which nothing has happened yet: a manager constructed with
    the default options, the clock at 1000 ms. *)
Definition world0 : World :=
  {| now := 1000; trace := []; timers := ∅; nextTimer := 0;
     sockets := ∅; nextSocket := 0; streams := ∅; nextStream := 0;
     components := ∅; nextComponent := 0;
     math_sqrt := Vad.sqrt_exact; random := fun _ => (1#2)%Q; randomCalls := 0;
     quality := fun _ => (0%Q, 0%Q); qualityCalls := 0;
     svc := S.new S.defaultConfig; mgr := E.new E.defaultOptions |}.

Definition liveTrack : Track :=
  {| trackReadyState := live; enabled := true; muted := false |}.

Definition processorStarts : RealtimeTranscriptionProcessor.StartOutcome :=
  {| RealtimeTranscriptionProcessor.contextCreated := true;
     RealtimeTranscriptionProcessor.workletInitialized := true;
     RealtimeTranscriptionProcessor.processingStarted := true |}.

(** Every awaited call succeeds; the socket opens after 120 ms. *)
Definition allGood : E.InitOutcome :=
  {| E.acquired := E.Microphone [liveTrack];
     E.analyzerInitialized := true;
     E.service := {| S.hdInitialized := true; S.hdTracks := [liveTrack];
                     S.connect := S.Opened 120; S.processor := processorStarts |} |}.

(** No stream can be acquired. *)
Definition noStream : E.InitOutcome :=
  {| E.acquired := E.NoStream;
     E.analyzerInitialized := true;
     E.service := {| S.hdInitialized := true; S.hdTracks := [liveTrack];
                     S.connect := S.Opened 120; S.processor := processorStarts |} |}.

(** The socket opens, then the audio context of the processor cannot be
    created. *)
Definition processorFails : E.InitOutcome :=
  {| E.acquired := E.Microphone [liveTrack];
     E.analyzerInitialized := true;
     E.service := {| S.hdInitialized := true; S.hdTracks := [liveTrack];
                     S.connect := S.Opened 120;
                     S.processor :=
                       {| RealtimeTranscriptionProcessor.contextCreated := false;
                          RealtimeTranscriptionProcessor.workletInitialized := true;
                          RealtimeTranscriptionProcessor.processingStarted := true |} |} |}.

(** The socket closes 50 ms after its creation without having opened; the
    socket of the reconnection opens 200 ms after its creation. *)
Definition closedFirst : E.InitOutcome :=
  {| E.acquired := E.Microphone [liveTrack];
     E.analyzerInitialized := true;
     E.service := {| S.hdInitialized := true; S.hdTracks := [liveTrack];
                     S.connect := S.ClosedFirst 50 200; S.processor := processorStarts |} |}.

Definition outcomes : EventLoop.Outcomes :=
  {| EventLoop.constructorThrows := false;
     EventLoop.processorStart := processorStarts;
     EventLoop.managerReconnect := allGood |}.

(** The page after a successful [initialize()]. *)
Definition started : World := exec (E.initialize allGood None) world0.

(** A final result and an interim result of the backend. *)
Definition resultsMessage (is_final : bool) : Js.value :=
  Js.Obj [("type", Js.Str "Results");
          ("channel", Js.Obj [("alternatives",
             Js.Arr [Js.Obj [("transcript", Js.Str "hello world");
                             ("confidence", Js.Num (98#100))]])]);
          ("is_final", Js.Bool is_final)].

(** Six consecutive unexpected closes: each socket closes before it opens,
    and each scheduled reconnection creates the next socket. *)
Definition sixCloses : list EventLoop.Event :=
  [EventLoop.SocketClose 0;
   EventLoop.FireTimer 4 outcomes; EventLoop.SocketClose 1;
   EventLoop.FireTimer 6 outcomes; EventLoop.SocketClose 2;
   EventLoop.FireTimer 8 outcomes; EventLoop.SocketClose 3;
   EventLoop.FireTimer 10 outcomes; EventLoop.SocketClose 4;
   EventLoop.FireTimer 12 outcomes; EventLoop.SocketClose 5].

(** Three ticks of the connection check (timer 1) at 10 s intervals after
    the socket opened, then an inbound result 5 s later. *)
Definition trafficUntil36s : list EventLoop.Event :=
  [EventLoop.FireTimer 1 outcomes; EventLoop.FireTimer 1 outcomes;
   EventLoop.FireTimer 1 outcomes; EventLoop.Advance 5000;
   EventLoop.SocketMessage 0 (Some (resultsMessage false))].

(** Frames as the worklet posts them: 4096 samples. *)
Definition silence : list Q := repeat 0%Q 4096.
Definition fullScale : list Q := repeat 1%Q 4096.

(** Frames every 256 ms: two of digital silence, then two at full scale.
    The chunker cuts a chunk at the second and at the fourth frame. *)
Definition loudRun : list EventLoop.Event :=
  [EventLoop.Advance 256; EventLoop.AudioFrame silence;
   EventLoop.Advance 256; EventLoop.AudioFrame silence;
   EventLoop.Advance 256; EventLoop.AudioFrame fullScale;
   EventLoop.Advance 256; EventLoop.AudioFrame fullScale].

(** The page after a successful [initialize()] of a manager constructed with
    the option [sampleRate: 48000]. *)
Definition started48k : World :=
  exec (E.initialize allGood None)
       (set_mgr (E.new (Mgr.set_sampleRate 48000%Q E.defaultOptions)) world0).

(** One frame, delivered 600 ms after the processor started. *)
Definition lateFrame : list EventLoop.Event :=
  [EventLoop.Advance 600; EventLoop.AudioFrame silence].

(** The processor of the started service. *)
Definition startedProcessor : Proc.t :=
  match Svc.audioProcessor (svc started) with
  | Some p => p
  | None => RealtimeTranscriptionProcessor.new RealtimeTranscriptionProcessor.defaultConfig
  end.

(** The three calls of [processAudioFrame] of the run [jitterRun] below, each
    with the page as it is at the call. *)
Definition jitterCalls : list (World * list Q) :=
  [(set_now 1370 started, silence); (set_now 1619 started, silence);
   (set_now 1880 started, silence)].

(** Three frames delivered with a jitter of a few milliseconds: the second
    arrives 499 ms after the processor started, the third 760 ms after. *)
Definition jitterRun : list EventLoop.Event :=
  [EventLoop.Advance 250; EventLoop.AudioFrame silence;
   EventLoop.Advance 249; EventLoop.AudioFrame silence;
   EventLoop.Advance 261; EventLoop.AudioFrame silence].

End Scenario.

(** ** The reconnection policy, as observed from outside *)

Module Policy.
Import Platform W Monad Browser EventLoop Observe.
Local Open Scope Z_scope.

(** The three observations that the reconnection policy rests on: the
    counter of the service, its configuration, and the number of attempts
    that [attemptReconnection] has scheduled so far. *)
Definition attemptsOf (w : World) : Z := Svc.reconnectAttempts (svc w).
Definition configOf (w : World) : Svc.TranscriptionServiceConfig := Svc.config (svc w).
Definition announcedOf (w : World) : Z := attemptsScheduled (trace w).
Definition maxOf (w : World) : Z := Svc.maxReconnectAttempts (configOf w).

(** The events that establish a connection: the open event of a socket that
    is connecting, and the restart of the session by the manager after a
    stream disconnection. *)
Definition opensSession (w : World) (e : Event) : bool :=
  match e with
  | SocketOpen id _ =>
      match sockets w !! id with
      | Some s => match readyState s with CONNECTING => true | _ => false end
      | None => false
      end
  | FireTimer id _ =>
      match timers w !! id with
      | Some t => if decide (callback t = StreamReconnect) then true else false
      | None => false
      end
  | _ => false
  end.

(** A run of events none of which establishes a connection. *)
Fixpoint quietRun (w : World) (events : list Event) : Prop :=
  match events with
  | [] => True
  | e :: rest => opensSession w e = false /\ quietRun (step w e) rest
  end.

(** The manager after [stop()]: every reference is cleared. *)
Definition cleared (m : Mgr.t) : Prop :=
  Mgr.transcriptionService m = false /\ Mgr.audioProcessor m = None
  /\ Mgr.hdProcessor m = None /\ Mgr.qualityAnalyzer m = None
  /\ Mgr.accuracyValidator m = None /\ Mgr.streamMonitor m = None
  /\ Mgr.mediaStream m = None /\ Mgr.isActive m = false.

(** Every stage of [initialize] succeeds: a stream is given or acquired,
    the socket opens, and, when the processor is enabled, its audio context
    is created, its worklet initialised and its processing started. *)
Definition stagesSucceed (o : EnhancedTranscriptionManager.InitOutcome)
    (audioSource : option nat) (opts : Mgr.EnhancedTranscriptionOptions) : Prop :=
  (audioSource = None ->
   EnhancedTranscriptionManager.acquired o <> EnhancedTranscriptionManager.NoStream)
  /\ (exists after,
        OptimizedTranscriptionService.connect (EnhancedTranscriptionManager.service o)
        = OptimizedTranscriptionService.Opened after)
  /\ (Mgr.enableRealtime opts = true ->
      let po := OptimizedTranscriptionService.processor
                  (EnhancedTranscriptionManager.service o) in
      RealtimeTranscriptionProcessor.contextCreated po = true
      /\ RealtimeTranscriptionProcessor.workletInitialized po = true
      /\ RealtimeTranscriptionProcessor.processingStarted po = true).

(** The service after [stop()]. *)
Definition stopped (s : Svc.t) : Prop :=
  Svc.isConnected s = false /\ Svc.websocket s = None
  /\ Svc.connectionCheckInterval s = None /\ Svc.audioProcessor s = None
  /\ Svc.hdProcessor s = None /\ Svc.mediaStream s = None.

(** The two [try] blocks of [handleWebSocketMessage] and
    [handleTranscriptionResults] around the delivery of a result. *)
Definition guarded (m : M unit) : M unit :=
  tryCatch
    (tryCatch m (fun _ => console Error "Error handling transcription results:"))
    (fun _ => console Error "Error parsing WebSocket message:").

End Policy.

(** ** The audio worklet ([audioWorklets/audioProcessor.worklet.js]) *)

Module AudioProcessor.
Local Open Scope Q_scope.

(** Fields of the processor.  [bufferIndex] only ever holds 0 or a sum of
    lengths, so it is a natural number. *)
Record t := {
  bufferSize : nat;
  sampleBuffer : list Q;
  bufferIndex : nat
}.

(** The constructor. *)
Definition new : t :=
  {| bufferSize := 4096; sampleBuffer := repeat 0 4096; bufferIndex := 0 |}.

(** How a call of [process] ends.  [OutOfFuel] stands for a loop that does
    not end within the iterations granted. *)
Inductive Completion := Returned | RangeError | OutOfFuel.

(** The result of a call: how it ended, the fields, the buffers given to
    [port.postMessage] (oldest first) and the output buffers. *)
Record Run := {
  completion : Completion;
  after : t;
  posted : list (list Q);
  outputsAfter : list (list (list Q))
}.

(** [target.set(source, offset)] of a typed array: a [RangeError] ([None])
    when the source does not fit. *)
Definition typedArraySet (target source : list Q) (offset : nat) : option (list Q) :=
  if (offset + length source <=? length target)%nat
  then Some (take offset target ++ source ++ drop (offset + length source) target)
  else None.

(** [input[j][i]].  The channels of one input have the same length; a read
    past the end of a shorter channel ([undefined] in the source) is not
    modelled and gives 0. *)
Definition sampleAt (channel : list Q) (i : nat) : Q := default 0 (channel !! i).

(** The down-mix: the mean over the channels, sample by sample. *)
Definition downmix (input : list (list Q)) (numSamples : nat) : list Q :=
  map (fun i => fold_left (fun sum channel => sum + sampleAt channel i) input 0
                / inject_Z (Z.of_nat (length input)))
      (seq 0 numSamples).

(** [monoSamples] for an input with at least one channel. *)
Definition monoSamples (input : list (list Q)) : list Q :=
  match input with
  | [] => []
  | first :: rest =>
      match rest with
      | [] => first
      | _ :: _ => downmix input (length first)
      end
  end.

(** The [while] loop of [process]; [fuel] bounds the number of iterations. *)
Fixpoint accumulate (fuel : nat) (monoSamples : list Q) (offset : nat)
    (st : t) (posted : list (list Q)) : Completion * t * list (list Q) :=
  if (length monoSamples <=? offset)%nat then (Returned, st, posted)
  else
    match fuel with
    | O => (OutOfFuel, st, posted)
    | S fuel =>
        let remainingInBuffer := (bufferSize st - bufferIndex st)%nat in
        let chunk := take remainingInBuffer (drop offset monoSamples) in
        match typedArraySet (sampleBuffer st) chunk (bufferIndex st) with
        | None => (RangeError, st, posted)
        | Some buffer =>
            let st := {| bufferSize := bufferSize st; sampleBuffer := buffer;
                         bufferIndex := (bufferIndex st + length chunk)%nat |} in
            let offset := (offset + length chunk)%nat in
            if (bufferSize st <=? bufferIndex st)%nat then
              accumulate fuel monoSamples offset
                {| bufferSize := bufferSize st; sampleBuffer := sampleBuffer st;
                   bufferIndex := 0 |}
                (posted ++ [sampleBuffer st])
            else accumulate fuel monoSamples offset st posted
        end
    end.

(** The pass-through [output[0].set(monoSamples)]. *)
Definition passThrough (outputs : list (list (list Q))) (mono : list Q)
  : option (list (list (list Q))) :=
  match outputs with
  | (channel :: channels) :: others =>
      match typedArraySet channel mono 0 with
      | Some channel' => Some ((channel' :: channels) :: others)
      | None => None
      end
  | _ => Some outputs
  end.

(** [process(inputs, outputs, parameters)].  A loop that has not ended after
    [length monoSamples + 1] iterations never ends. *)
Definition process (inputs outputs : list (list (list Q))) (st : t) : Run :=
  match inputs with
  | (first :: rest) :: _ =>
      let mono := monoSamples (first :: rest) in
      match passThrough outputs mono with
      | None => {| completion := RangeError; after := st; posted := [];
                   outputsAfter := outputs |}
      | Some outputs' =>
          let r := accumulate (S (length mono)) mono 0 st [] in
          {| completion := fst (fst r); after := snd (fst r); posted := snd r;
             outputsAfter := outputs' |}
      end
  | _ => {| completion := Returned; after := st; posted := []; outputsAfter := outputs |}
  end.

(** A run of calls on a node without outputs, as [AudioWorkletManager]
    creates it: the fields after the last call and everything posted. *)
Definition processNext (acc : t * list (list Q)) (inputs : list (list (list Q)))
  : t * list (list Q) :=
  let r := process inputs [] (fst acc) in
  (after r, snd acc ++ posted r).

Definition processAll (calls : list (list (list (list Q)))) (st : t)
  : t * list (list Q) :=
  fold_left processNext calls (st, []).

(** The samples that a call hands to the loop. *)
Definition heard (inputs : list (list (list Q))) : list Q :=
  match inputs with
  | input :: _ => monoSamples input
  | [] => []
  end.

(** The buffer is allocated once, with [bufferSize] elements, and the index
    stays below its size between two calls. *)
Definition wellFormed (st : t) : Prop :=
  (0 < bufferSize st)%nat /\ length (sampleBuffer st) = bufferSize st
  /\ (bufferIndex st < bufferSize st)%nat.

(** The samples written since the last post. *)
Definition pending (st : t) : list Q := take (bufferIndex st) (sampleBuffer st).

End AudioProcessor.

(** ** [processAudioForDeepgram] (audioUtils.ts) *)

Module AudioUtils.
Import Num.
Local Open Scope Q_scope.

(** What the function writes on the console. *)
Inductive Logged := Levels | MostlySilence | Nothing.

(** The clamped sample of one iteration. *)
Definition clamp (x : Q) : Q := Math_max (-1) (Math_min 1 x).

Section Math.
Variable Math_sqrt : Q -> Q.
Variable Math_log10 : Q -> Q.

(** [processAudioForDeepgram(inputData)]: the samples stored in the
    [Int16Array] and the line logged.  For an empty input the level is the
    quotient 0/0, which [rmsLevel || 0.001] replaces by 0.001, and the silence
    ratio 0/0 compares false.  Nothing in the [try] block throws. *)
Definition processAudioForDeepgram (inputData : list Q) : list Z * Logged :=
  let samples := map clamp inputData in
  let outputData := map (fun sample => toInt16 (Math_round (sample * 32767))) samples in
  let sumSquares := fold_left (fun acc sample => acc + sample * sample) samples 0 in
  let maxSample := fold_left (fun acc sample => Math_max acc (Qabs sample)) samples 0 in
  let silentSamples :=
    length (List.filter (fun sample => ltb (Qabs sample) (1#1000)) samples) in
  let totalSamples := length samples in
  let rmsLevel :=
    match inputData with
    | [] => None
    | _ :: _ => Some (Math_sqrt (sumSquares / inject_Z (Z.of_nat (length inputData))))
    end in
  let dbLevel :=
    20 * Math_log10 (match rmsLevel with
                     | Some r => if Qeq_bool r 0 then 1#1000 else r
                     | None => 1#1000
                     end) in
  let mostlySilent :=
    match inputData with
    | [] => false
    | _ :: _ => gtb (inject_Z (Z.of_nat silentSamples) / inject_Z (Z.of_nat totalSamples))
                    (95#100)
    end in
  (outputData,
   if gtb dbLevel (-50) || gtb maxSample (5#1000) then Levels
   else if mostlySilent then MostlySilence
   else Nothing).

End Math.

End AudioUtils.

(** ** [TranscriptionOptimizer]: audio *)

Module OptimizerAudio.
Import Num.
Local Open Scope Q_scope.

(** One iteration of the loop of [processAudioForTranscription]; [rand] is
    the value of [Math.random()]. *)
Definition ditheredSample (x rand : Q) : Q :=
  let dither := ((rand - (1#2)) * 2) / 32768 in
  Math_max (-1) (Math_min 1 x) + dither.

Definition convertSample (x rand : Q) : Z :=
  toInt16 (Math_round (ditheredSample x rand * 32767)).

(** [processAudioForTranscription(inputData)]; [rnd k] is the k-th draw of
    [Math.random()] and [k] counts the draws already made. *)
Fixpoint processAudioForTranscription (rnd : nat -> Q) (k : nat) (inputData : list Q)
  : list Z :=
  match inputData with
  | [] => []
  | x :: rest => convertSample x (rnd k) :: processAudioForTranscription rnd (S k) rest
  end.

(** The peak that [normalizeAudioLevel] finds. *)
Definition peakOf (data : list Q) : Q :=
  fold_left (fun peak x => Math_max peak (Qabs x)) data 0.

(** [normalizeAudioLevel(data)]: the contents of [data] afterwards. *)
Definition normalizeAudioLevel (data : list Q) : list Q :=
  let peak := peakOf data in
  if gtb peak (1#10) && ltb peak 1 then
    let gain := (8#10) / peak in
    map (fun x => x * gain) data
  else data.

(** The high-pass filter of [enhanceAudioQuality]: [prevSample] is the last
    output and [prevInput] is [inputData[i - 1]], or 0 at the start. *)
Fixpoint highPass (prevSample prevInput : Q) (inputData : list Q) : list Q :=
  match inputData with
  | [] => []
  | x :: rest =>
      let y := (95#100) * (prevSample + x - prevInput) in
      y :: highPass y x rest
  end.

Section Math.
Variable Math_sqrt : Q -> Q.
Variable Math_log10 : Q -> Q.

(** [currentLevel] of [enhanceAudioQuality].  The mean of an empty input is
    0/0, which [|| 0.001] replaces. *)
Definition currentLevel (inputData : list Q) : Q :=
  let rms :=
    match inputData with
    | [] => None
    | _ :: _ =>
        Some (Math_sqrt (fold_left (fun sum sample => sum + sample * sample) inputData 0
                         / inject_Z (Z.of_nat (length inputData))))
    end in
  20 * Math_log10 (match rms with
                   | Some r => if Qeq_bool r 0 then 1#1000 else r
                   | None => 1#1000
                   end).

(** [enhanceAudioQuality(inputData)] for the noise threshold of the
    configuration. *)
Definition enhanceAudioQuality (noiseThreshold : Q) (inputData : list Q) : list Q :=
  if ltb (currentLevel inputData) noiseThreshold then repeat 0 (length inputData)
  else normalizeAudioLevel (highPass 0 0 inputData).

(** [processAudioWithEnhancement(inputData)], on a new optimizer (noise
    threshold -45). *)
Definition processAudioWithEnhancement (rnd : nat -> Q) (k : nat) (inputData : list Q)
  : list Z :=
  processAudioForTranscription rnd k (enhanceAudioQuality (-45) inputData).

End Math.

End OptimizerAudio.

(** ** [TranscriptionOptimizer]: transcripts *)

Module OptimizerTranscript.
Import Num.
Local Open Scope Q_scope.

Record TranscriptionOptimizerConfig := {
  sampleRate : Q;
  channelCount : Q;
  bitDepth : Q;
  bufferSize : Q;
  overlapRatio : Q;
  noiseThreshold : Q;
  realtimeLatency : Q;
  interimUpdateFrequency : Q;
  confidenceThreshold : Q;
  languageModel : string;
  enablePunctuation : bool;
  enableSpeakerDiarization : bool
}.

(** Defaults of the constructor. *)
Definition defaultConfig : TranscriptionOptimizerConfig :=
  {| sampleRate := 48000; channelCount := 1; bitDepth := 16;
     bufferSize := 4096; overlapRatio := 1#2; noiseThreshold := -45;
     realtimeLatency := 100; interimUpdateFrequency := 200;
     confidenceThreshold := 7#10; languageModel := "general-enhanced";
     enablePunctuation := true; enableSpeakerDiarization := false |}.

(** The fields that the transcript methods read and write.  A confidence is
    a number or NaN ([None]). *)
Record t := {
  config : TranscriptionOptimizerConfig;
  stableTranscript : string;
  interimTranscript : string;
  lastTranscriptTime : Z;
  confidenceScores : list (option Q);
  signalToNoiseRatio : Q
}.

(** Field initialisers. *)
Definition new (cfg : TranscriptionOptimizerConfig) : t :=
  {| config := cfg; stableTranscript := EmptyString; interimTranscript := EmptyString;
     lastTranscriptTime := 0; confidenceScores := []; signalToNoiseRatio := 0 |}.

(** What [processTranscript] reads of its argument: [transcript] (a string,
    or absent), [is_final] (a boolean, absent counting as false) and
    [channel?.alternatives?.[0]?.words] (absent, or an array of words whose
    [confidence] is a number or absent). *)
Record TranscriptData := {
  transcript : option string;
  is_final : bool;
  words : option (list (option Q))
}.

(** What [processTranscript] returns. *)
Record Processed := {
  combined : string;
  isFinal : bool;
  confidence : option Q;
  shouldUpdate : bool
}.

(** [w.confidence || 0.5] *)
Definition wordConfidence (c : option Q) : Q :=
  match c with
  | Some q => if Qeq_bool q 0 then 1#2 else q
  | None => 1#2
  end.

(** [calculateConfidence(transcript, transcriptData)].  The mean over an
    empty array of words is 0/0, and NaN passes through [Math.min] and
    [Math.max]. *)
Definition calculateConfidence (st : t) (transcript : string) (data : TranscriptData)
  : option Q :=
  let confidence := 8#10 in
  let confidence :=
    if (3 <? String.length transcript)%nat then confidence + (1#10) else confidence in
  let confidence :=
    if gtb (signalToNoiseRatio st) 20 then confidence + (5#100)
    else if ltb (signalToNoiseRatio st) 10 then confidence - (1#10)
    else confidence in
  match words data with
  | Some ws =>
      match ws with
      | [] => None
      | _ :: _ =>
          let wordConfidences := map wordConfidence ws in
          let avgWordConfidence :=
            fold_left Qplus wordConfidences 0 / inject_Z (Z.of_nat (length wordConfidences)) in
          Some (Math_max 0 (Math_min 1 ((confidence + avgWordConfidence) / 2)))
      end
  | None => Some (Math_max 0 (Math_min 1 confidence))
  end.

(** [shouldUpdateDisplay(transcript, isFinal, confidence)]; [now] is the
    value of [Date.now()].  A comparison with NaN is false. *)
Definition shouldUpdateDisplay (now : Z) (st : t) (transcript : string) (isFinal : bool)
    (confidence : option Q) : bool :=
  if isFinal then true
  else if String.eqb transcript EmptyString
          || match confidence with
             | Some c => ltb c (confidenceThreshold (config st))
             | None => false
             end
  then false
  else if ltb (inject_Z (now - lastTranscriptTime st)) (interimUpdateFrequency (config st))
  then false
  else true.

Section Trim.
(** [String.prototype.trim] is a parameter of the model. *)
Variable trim : string -> string.

(** [getCombinedTranscript()] *)
Definition getCombinedTranscript (st : t) : string :=
  trim (stableTranscript st ++ interimTranscript st)%string.

(** [transcriptData.transcript?.trim() || ''] *)
Definition transcriptOf (data : TranscriptData) : string :=
  match transcript data with
  | Some s => trim s
  | None => EmptyString
  end.

(** [processTranscript(transcriptData)] at the time [now]: the result and
    the fields afterwards. *)
Definition processTranscript (now : Z) (data : TranscriptData) (st : t) : Processed * t :=
  let transcript := transcriptOf data in
  let isFinal := is_final data in
  let confidence := calculateConfidence st transcript data in
  let st :=
    if isFinal then
      let scores := confidenceScores st ++ [confidence] in
      {| config := config st;
         stableTranscript := (stableTranscript st ++ transcript ++ " ")%string;
         interimTranscript := EmptyString;
         lastTranscriptTime := now;
         confidenceScores := if (50 <? length scores)%nat then tl scores else scores;
         signalToNoiseRatio := signalToNoiseRatio st |}
    else
      {| config := config st;
         stableTranscript := stableTranscript st;
         interimTranscript := transcript;
         lastTranscriptTime := lastTranscriptTime st;
         confidenceScores := confidenceScores st;
         signalToNoiseRatio := signalToNoiseRatio st |} in
  let shouldUpdate := shouldUpdateDisplay now st transcript isFinal confidence in
  ({| combined := getCombinedTranscript st; isFinal := isFinal;
      confidence := confidence; shouldUpdate := shouldUpdate |}, st).

(** A run of calls, each with its clock value. *)
Definition processAllTranscripts (calls : list (Z * TranscriptData)) (st : t) : t :=
  fold_left (fun st call => snd (processTranscript (fst call) (snd call) st)) calls st.

(** What the final results of a run add to the stable transcript, and the
    confidences they add to the scores. *)
Definition finalText (calls : list (Z * TranscriptData)) : string :=
  fold_right (fun call rest =>
                if is_final (snd call)
                then (transcriptOf (snd call) ++ " " ++ rest)%string
                else rest)
             EmptyString calls.

(** The confidences that the final results of a run add to the scores.
    [calculateConfidence] reads the signal-to-noise ratio only, which the
    transcript methods never write. *)
Definition finalConfidences (calls : list (Z * TranscriptData)) (st : t)
  : list (option Q) :=
  map (fun call => calculateConfidence st (transcriptOf (snd call)) (snd call))
      (List.filter (fun call => is_final (snd call)) calls).

End Trim.

End OptimizerTranscript.

(** ** [AudioQualityAnalyzer] (highDefinitionAudio.ts) *)

Module AudioQualityAnalyzer.
Import Num.
Local Open Scope Q_scope.

(** What [analyzeQuality] returns for an initialised analyser. *)
Record QualityData := {
  signalLevel : Q;
  noiseLevel : Q;
  snr : Q;
  thd : Q;
  frequencyFlatness : Q;
  qualityScore : Q
}.

(** [getSignalLevel()] and [getNoiseLevel()]: the largest and the smallest
    element of [dataArray], given as its first element and the rest.  The
    array has [frequencyBinCount] elements, so it is not empty; its elements
    are finite numbers. *)
Definition getSignalLevel (first : Q) (rest : list Q) : Q :=
  fold_left (fun maxLevel x => if gtb x maxLevel then x else maxLevel) rest first.

Definition getNoiseLevel (first : Q) (rest : list Q) : Q :=
  fold_left (fun minLevel x => if ltb x minLevel then x else minLevel) rest first.

(** [calculateTHD()]; [rand] is the value of [Math.random()]. *)
Definition calculateTHD (rand : Q) : Q := rand * (1#10).

(** [calculateQualityScore(snr, thd, flatness)] *)
Definition calculateQualityScore (snr thd flatness : Q) : Q :=
  let snrScore := Math_max 0 (Math_min 1 ((snr + 60) / 60)) in
  let thdScore := Math_max 0 (1 - thd * 10) in
  let flatnessScore := flatness in
  snrScore * (5#10) + thdScore * (3#10) + flatnessScore * (2#10).

Section Math.
Variable Math_sqrt : Q -> Q.

(** [calculateFrequencyFlatness()] *)
Definition calculateFrequencyFlatness (dataArray : list Q) : Q :=
  let sum := fold_left Qplus dataArray 0 in
  let sumSquares := fold_left (fun acc x => acc + x * x) dataArray 0 in
  let n := inject_Z (Z.of_nat (length dataArray)) in
  let mean := sum / n in
  let variance := sumSquares / n - mean * mean in
  let stdDev := Math_sqrt (Qabs variance) in
  Math_max 0 (1 - stdDev / 100).

(** [analyzeQuality()] on the frequency data [first :: rest]. *)
Definition analyzeQuality (rand : Q) (first : Q) (rest : list Q) : QualityData :=
  let signalLevel := getSignalLevel first rest in
  let noiseLevel := getNoiseLevel first rest in
  let snr := signalLevel - noiseLevel in
  let thd := calculateTHD rand in
  let flatness := calculateFrequencyFlatness (first :: rest) in
  {| signalLevel := signalLevel; noiseLevel := noiseLevel; snr := snr; thd := thd;
     frequencyFlatness := flatness;
     qualityScore := calculateQualityScore snr thd flatness |}.

End Math.

End AudioQualityAnalyzer.

(** ** Streams and sessions: what the properties observe *)

Module Session.
Import Platform W Monad Browser Observe EventLoop Policy Scenario.
Local Open Scope monad_scope.
Local Open Scope Z_scope.

(** The audio tracks of a stream; a stream that does not exist has none. *)
Definition tracksOf (stream : nat) (w : World) : list Track :=
  default [] (streams w !! stream).

(** The test of [validateAudioStream] and of the stream monitor: some track
    is live, or enabled and not muted. *)
Definition healthy (stream : nat) (w : World) : bool :=
  existsb AudioErrorHandler.trackValid (tracksOf stream w).

(** What [onDisconnect] does: a warning, the error callback, and a timer for
    the reconnection 2 s later. *)
Definition disconnected (w : World) : World :=
  set_nextTimer (S (nextTimer w))
    (set_timers (<[nextTimer w := {| callback := StreamReconnect; delay := 2000;
                                     due := now w + 2000; periodic := false |}]> (timers w))
       (set_trace (trace w ++ [Console Warn "Audio stream disconnected, attempting to reconnect...";
                               UserError "Audio stream disconnected"]) w)).

(** The line that a failed check logs. *)
Definition unhealthyWarning (stream : nat) (w : World) : string :=
  if (length (tracksOf stream w) =? 0)%nat then "No audio tracks found in stream"
  else "Audio stream health check failed - no live/enabled tracks".

(** The page after a failed check that found the counter at [k]. *)
Definition checkedUnhealthy (stream : nat) (k : Z) (w : World) : World :=
  let w1 := set_trace (trace w ++ [Console Log "Audio stream health check";
                                   Console Warn (unhealthyWarning stream w)]) w in
  if 3 <=? k + 1 then disconnected w1 else w1.

(** The [try] block of the manager's [reconnect()]: [Some true] when it ran
    to its end, [Some false] when it threw, [None] when it never resumed. *)
Definition reconnectBody (o : E.InitOutcome) : M (option bool) :=
  console Log "Attempting to reconnect transcription service..." ;;
  ts <- E.this Mgr.transcriptionService ;;
  (if ts then E.service_stop else ret tt) ;;
  newStream <- E.getAudioStream (E.acquired o) ;;
  match newStream with
  | None => ret (Some false)
  | Some s =>
      E.assign (Mgr.set_mediaStream (Some s)) ;;
      if negb ts then ret (Some false) else
      settled <- E.service_start (E.service o) s ;;
      match settled with
      | None => ret None
      | Some reconnected =>
          if negb reconnected then ret (Some false) else
          console Log "Reconnection successful" ;; ret (Some true)
      end
  end.

(** Every track of the stream has ended. *)
Definition allEnded (stream : nat) (w : World) : bool :=
  forallb (fun t => match trackReadyState t with ended => true | live => false end)
          (tracksOf stream w).

(** The last block of the manager's [stop()]. *)
Definition stopMedia : M unit :=
  ms <- E.this Mgr.mediaStream ;;
  match ms with
  | Some s => stopTracks s ;; E.assign (Mgr.set_mediaStream None)
  | None => ret tt
  end ;;
  console Log "Enhanced transcription manager stopped".

(** The tracks that [getAudioStream] obtains. *)
Definition acquiredTracks (a : E.Acquired) : list Track :=
  match a with
  | E.SystemAudio tracks | E.Microphone tracks => tracks
  | E.NoStream => []
  end.

(** The stream that [initialize] works on passes validation, and so does
    the stream that a successful HD stage produces. *)
Definition streamsUsable (o : E.InitOutcome) (audioSource : option nat) (w : World) : Prop :=
  match audioSource with
  | Some s => healthy s w = true
  | None => existsb AudioErrorHandler.trackValid (acquiredTracks (E.acquired o)) = true
  end
  /\ (Mgr.enableHD (Mgr.options (mgr w)) = true ->
      S.hdInitialized (E.service o) = true ->
      existsb AudioErrorHandler.trackValid (S.hdTracks (E.service o)) = true).

End Session.

(** ** Runs of the chunker *)

Module Chunker.
Import Platform W Monad Browser Chunk.

(** A run of the worklet callback [processAudioFrame] on one processor: each
    call finds the page in some state and the fields as the previous call
    left them.  No statement of [processAudioFrame] throws; a call that did
    would leave the fields as they were. *)
Definition afterFrame (cb : string -> Q -> M unit) (p : Proc.t) (call : World * list Q)
  : Proc.t :=
  match fst (RealtimeTranscriptionProcessor.processAudioFrame cb (snd call) p (fst call)) with
  | Ok p' => p'
  | Throw _ => p
  end.

Definition processFrames (cb : string -> Q -> M unit) (calls : list (World * list Q))
    (p : Proc.t) : Proc.t :=
  fold_left (afterFrame cb) calls p.

(** A chunk cut from the frames [frames]: its samples are theirs and its
    duration is their length at the sample rate, in milliseconds. *)
Definition cutFrom (cfg : TranscriptionConfig) (frames : list (list Q)) (c : AudioChunk)
  : Prop :=
  length (data c) = length (concat frames)
  /\ (duration c == inject_Z (Z.of_nat (length (concat frames))) / sampleRate cfg * 1000)%Q.

(** A chunk of [k] whole frames of [n] samples, for some [k] that is not 0. *)
Definition wholeFrames (cfg : TranscriptionConfig) (n : nat) (c : AudioChunk) : Prop :=
  exists k, (1 <= k)%nat
    /\ length (data c) = (k * n)%nat
    /\ (duration c == inject_Z (Z.of_nat (k * n)) / sampleRate cfg * 1000)%Q.

End Chunker.

(** * Part II: properties *)

Module NumFacts.
Import Num.
Local Open Scope Q_scope.

Lemma gtb_true a b : gtb a b = true <-> b < a.
Proof. unfold gtb. destruct (Qlt_le_dec b a); split; intros; try easy; lra. Qed.

Lemma gtb_false a b : gtb a b = false <-> a <= b.
Proof. unfold gtb. destruct (Qlt_le_dec b a); split; intros; try easy; lra. Qed.

Lemma Math_round_spec v :
  inject_Z (Math_round v) - (1#2) <= v /\ v < inject_Z (Math_round v) + (1#2).
Proof.
  unfold Math_round.
  pose proof (Qfloor_le (v + (1#2))) as Hlo.
  pose proof (Qlt_floor (v + (1#2))) as Hhi.
  rewrite inject_Z_plus in Hhi. change (inject_Z 1) with 1 in Hhi. split; lra.
Qed.

Lemma toInt16_id n : (-32768 <= n <= 32767)%Z -> toInt16 n = n.
Proof. intros H. unfold toInt16. rewrite Z.mod_small; lia. Qed.

Lemma toInt16_range n : (-32768 <= toInt16 n <= 32767)%Z.
Proof.
  unfold toInt16.
  pose proof (Z.mod_pos_bound (n + 32768) 65536 ltac:(lia)). lia.
Qed.

Lemma Qmax_Qmin_clamp_id x : -1 <= x <= 1 -> Qmax (-1) (Qmin 1 x) == x.
Proof.
  intros [Hlo Hhi].
  rewrite (Q.min_r 1 x) by exact Hhi.
  rewrite Q.max_r by exact Hlo. reflexivity.
Qed.

End NumFacts.

(** ** PCM conversion *)

Module PcmFacts.
Import Num NumFacts Pcm.
Local Open Scope Q_scope.

Lemma convertToPCM_length rnd k data : length (convertToPCM rnd k data) = length data.
Proof. revert k. induction data as [|x rest IH]; intros k; simpl; [reflexivity|]. now rewrite IH. Qed.

Lemma convertToPCM_lookup rnd data : forall k i x,
  data !! i = Some x ->
  convertToPCM rnd k data !! i = Some (convertSample x (rnd (k + i)%nat)).
Proof.
  induction data as [|y rest IH]; intros k i x Hi; [discriminate|].
  destruct i as [|i]; simpl in *.
  - injection Hi as ->. now rewrite Nat.add_0_r.
  - rewrite (IH (S k) i x Hi). do 3 f_equal. lia.
Qed.

Lemma scaled_clamped x rand :
  -1 <= x <= 1 -> scaled x rand == (x + (rand - (1#2)) * (1#1000)) * 32767.
Proof.
  intros Hx. unfold scaled, applyDithering, Math_max, Math_min.
  rewrite (Qmax_Qmin_clamp_id x Hx). reflexivity.
Qed.

(** Without wrap-around the stored integer is within half a step of the
    dithered, scaled sample, and the dither is at most 1/2000 in magnitude. *)
Lemma convertSample_bound x rand :
  -1 <= x <= 1 -> 0 <= rand /\ rand < 1 ->
  (-32768 <= Math_round (scaled x rand) <= 32767)%Z ->
  Qabs (inject_Z (convertSample x rand) / 32767 - x) <= (1#2000) + (1#65534).
Proof.
  intros Hx [Hr0 Hr1] Hrange.
  unfold convertSample. fold (scaled x rand).
  rewrite (toInt16_id _ Hrange).
  destruct (Math_round_spec (scaled x rand)) as [Hlo Hhi].
  pose proof (scaled_clamped x rand Hx) as Hs.
  set (p := inject_Z (Math_round (scaled x rand))) in *.
  set (s := scaled x rand) in *.
  apply Qabs_Qle_condition.
  assert (Hdiv : p / 32767 == p * (1#32767)) by (unfold Qdiv; reflexivity).
  rewrite Hdiv. split; lra.
Qed.

(** Inputs at most 1 - 1/2000 in magnitude never wrap. *)
Lemma scaled_in_range x rand :
  -(1999#2000) <= x <= (1999#2000) -> 0 <= rand /\ rand < 1 ->
  (-32768 <= Math_round (scaled x rand) <= 32767)%Z.
Proof.
  intros Hx [Hr0 Hr1].
  assert (Hx' : -1 <= x <= 1) by lra.
  destruct (Math_round_spec (scaled x rand)) as [Hlo Hhi].
  pose proof (scaled_clamped x rand Hx') as Hs.
  set (s := scaled x rand) in *.
  split.
  - apply Z.lt_succ_r. rewrite Zlt_Qlt.
    replace (Z.succ (Math_round s)) with (Math_round s + 1)%Z by lia.
    rewrite inject_Z_plus.
    change (inject_Z 1) with 1. change (inject_Z (-32768)) with (-32768). lra.
  - apply Z.lt_succ_r. rewrite Zlt_Qlt.
    change (inject_Z (Z.succ 32767)) with 32768. lra.
Qed.

(** A full-scale sample with a positive dither overflows the 16-bit store:
    the clamp is applied before the dither is added. *)
Example convertSample_wraps : convertSample 1 (9#10) = (-32756)%Z.
Proof. vm_compute. reflexivity. Qed.

End PcmFacts.

(** ** Voice activity detection *)

Module VadFacts.
Import Num NumFacts Vad.
Local Open Scope Q_scope.

Lemma keep_last_length {A} n (l : list A) : (length (keep_last n l) <= n)%nat.
Proof. unfold keep_last. rewrite length_skipn. lia. Qed.

Lemma keep_last_short {A} n (l : list A) : (length l <= n)%nat -> keep_last n l = l.
Proof. intros H. unfold keep_last. replace (length l - n)%nat with 0%nat by lia. reflexivity. Qed.

Lemma keep_last_app_exact {A} (a b : list A) : keep_last (length b) (a ++ b) = b.
Proof.
  unfold keep_last. rewrite length_app.
  replace (length a + length b - length b)%nat with (length a) by lia.
  rewrite skipn_app, skipn_all, Nat.sub_diag. reflexivity.
Qed.

Lemma keep_last_snoc {A} n (l : list A) x :
  keep_last n (keep_last n l ++ [x]) = keep_last n (l ++ [x]).
Proof.
  unfold keep_last. rewrite !length_app, length_skipn. simpl.
  set (a := (length l - n)%nat).
  assert (Ha : (a <= length l)%nat) by (unfold a; lia).
  assert (Hsk : skipn a l ++ [x] = skipn a (l ++ [x])).
  { rewrite skipn_app. replace (a - length l)%nat with 0%nat by lia. reflexivity. }
  rewrite Hsk, skipn_skipn. f_equal. unfold a. lia.
Qed.

(** [push] then at most one [shift] keeps the last [historySize] energies. *)
Lemma pushEnergy_keep_last d e :
  (length (energyHistory d) <= historySize d)%nat ->
  pushEnergy d e = keep_last (historySize d) (energyHistory d ++ [e]).
Proof.
  intros Hlen. unfold pushEnergy, keep_last. rewrite length_app. simpl.
  destruct (Nat.ltb_spec (historySize d) (length (energyHistory d) + 1)) as [Hlt|Hge].
  - replace (length (energyHistory d) + 1 - historySize d)%nat with 1%nat by lia.
    reflexivity.
  - replace (length (energyHistory d) + 1 - historySize d)%nat with 0%nat by lia.
    reflexivity.
Qed.

Section Energy.
Variable Math_sqrt : Q -> Q.

Lemma detect_history d f :
  energyHistory (snd (detectVoiceActivity Math_sqrt d f))
  = pushEnergy d (calculateEnergy Math_sqrt f).
Proof. reflexivity. Qed.

Lemma detect_historySize d f :
  historySize (snd (detectVoiceActivity Math_sqrt d f)) = historySize d.
Proof. reflexivity. Qed.

Lemma detectAll_cons d f frames :
  detectAll Math_sqrt d (f :: frames)
  = detectAll Math_sqrt (snd (detectVoiceActivity Math_sqrt d f)) frames.
Proof. reflexivity. Qed.

Lemma detectAll_historySize frames : forall d,
  historySize (detectAll Math_sqrt d frames) = historySize d.
Proof.
  induction frames as [|f frames IH]; intros d; [reflexivity|].
  now rewrite detectAll_cons, IH, detect_historySize.
Qed.

Lemma keep_last_app_keep {A} n (es l : list A) :
  keep_last n (keep_last n l ++ es) = keep_last n (l ++ es).
Proof.
  revert l. induction es as [|e es IHes] using rev_ind; intros l.
  - rewrite !app_nil_r. rewrite keep_last_short; [reflexivity|apply keep_last_length].
  - rewrite !app_assoc, <- keep_last_snoc, IHes, keep_last_snoc. reflexivity.
Qed.

(** After any run of frames the history holds the last [historySize]
    energies seen so far. *)
Lemma detectAll_history frames : forall d,
  (length (energyHistory d) <= historySize d)%nat ->
  energyHistory (detectAll Math_sqrt d frames)
  = keep_last (historySize d)
      (energyHistory d ++ map (calculateEnergy Math_sqrt) frames).
Proof.
  induction frames as [|f frames IH]; intros d Hlen.
  - simpl. rewrite app_nil_r. symmetry. now apply keep_last_short.
  - rewrite detectAll_cons, IH.
    + rewrite detect_history, detect_historySize.
      rewrite (pushEnergy_keep_last d _ Hlen), keep_last_app_keep.
      simpl map. now rewrite <- app_assoc.
    + rewrite detect_history, detect_historySize, (pushEnergy_keep_last d _ Hlen).
      apply keep_last_length.
Qed.

End Energy.

Lemma fold_min_le_init rest : forall e, fold_left Math_min rest e <= e.
Proof.
  induction rest as [|y rest IH]; intros e; simpl; [lra|].
  eapply Qle_trans; [apply IH|]. apply Q.le_min_l.
Qed.

Lemma fold_min_le_elem rest : forall e x, In x rest -> fold_left Math_min rest e <= x.
Proof.
  induction rest as [|y rest IH]; intros e x Hin; simpl in *; [contradiction|].
  destruct Hin as [->|Hin].
  - eapply Qle_trans; [apply fold_min_le_init|]. apply Q.le_min_r.
  - now apply IH.
Qed.

Lemma fold_min_lower m rest : forall e,
  m <= e -> (forall x, In x rest -> m <= x) -> m <= fold_left Math_min rest e.
Proof.
  induction rest as [|y rest IH]; intros e He Hall; simpl; [exact He|].
  apply IH.
  - apply Q.min_glb; [exact He|]. apply Hall. now left.
  - intros x Hx. apply Hall. now right.
Qed.

(** The background noise is the minimum of a non-empty history. *)
Lemma calculateBackgroundNoise_min m h x :
  (forall y, In y h -> m <= y) -> In x h -> x == m ->
  calculateBackgroundNoise h == m.
Proof.
  intros Hall Hin Hx. destruct h as [|e rest]; [contradiction|]. simpl.
  apply Qle_antisym.
  - rewrite <- Hx. destruct Hin as [->|Hin].
    + apply fold_min_le_init.
    + now apply fold_min_le_elem.
  - apply fold_min_lower.
    + apply Hall. now left.
    + intros y Hy. apply Hall. now right.
Qed.

(** The minimum of a history is one of its elements. *)
Lemma fold_min_attained rest : forall e,
  exists x, (x = e \/ In x rest) /\ fold_left Math_min rest e == x.
Proof.
  induction rest as [|y rest IH]; intros e; simpl.
  - exists e. split; [now left|reflexivity].
  - destruct (IH (Math_min e y)) as [x [[Hx|Hx] Heq]].
    + unfold Math_min in Hx.
      destruct (Q.min_spec e y) as [[H1 H2]|[H1 H2]].
      * exists e. split; [now left|]. rewrite Heq, Hx. exact H2.
      * exists y. split; [right; now left|]. rewrite Heq, Hx. exact H2.
    + exists x. split; [right; now right|exact Heq].
Qed.

Lemma calculateBackgroundNoise_attained h :
  h <> [] -> exists x, In x h /\ calculateBackgroundNoise h == x.
Proof.
  destruct h as [|e rest]; [congruence|]. intros _. simpl.
  destruct (fold_min_attained rest e) as [x [[Hx|Hx] Heq]].
  - exists x. split; [left; congruence|exact Heq].
  - exists x. split; [now right|exact Heq].
Qed.

Lemma keep_last_In {A} n (l : list A) x : In x (keep_last n l) -> In x l.
Proof.
  unfold keep_last. intros H. rewrite <- (firstn_skipn (length l - n) l).
  apply in_or_app. now right.
Qed.

Lemma keep_last_snoc_In {A} n (l : list A) x : (1 <= n)%nat -> In x (keep_last n (l ++ [x])).
Proof.
  intros Hn. unfold keep_last. rewrite length_app. simpl length.
  rewrite skipn_app. apply in_or_app. right.
  replace (length l + 1 - n - length l)%nat with 0%nat by lia. now left.
Qed.

End VadFacts.

Module VadClaims.
Import Num NumFacts Vad VadFacts.
Local Open Scope Q_scope.

(** The rule of the detector in one statement: the noise floor is the
    minimum of the last [historySize] energies (the current one included),
    the threshold is twice the noise floor, speech is an energy above the
    threshold, and the confidence is the quotient of the energy by three
    times the threshold, clamped to [0, 1]. *)
Lemma detectVoiceActivity_rule Math_sqrt d f :
  (length (energyHistory d) <= historySize d)%nat ->
  let e := calculateEnergy Math_sqrt f in
  let noise := calculateBackgroundNoise (keep_last (historySize d) (energyHistory d ++ [e])) in
  let r := fst (detectVoiceActivity Math_sqrt d f) in
  isSpeech r = gtb e (noise * 2) /\
  (~ noise * 2 * 3 == 0 -> confidence r = Qmax 0 (Qmin 1 (e / (noise * 2 * 3)))).
Proof.
  intros Hlen e noise r. subst r. unfold detectVoiceActivity. simpl.
  fold e. rewrite (pushEnergy_keep_last d e Hlen). fold noise. split; [reflexivity|].
  intros Hnz. unfold minOneOfQuotient, Math_max, Math_min.
  destruct (Qeq_bool (noise * 2 * 3) 0) eqn:Hz; [|reflexivity].
  apply Qeq_bool_iff in Hz. contradiction.
Qed.



End VadClaims.

Module PcmClaims.
Import Num NumFacts Pcm PcmFacts.
Local Open Scope Q_scope.

(** C7, as stated, fails: for the sample 0 and the draw 0 of [Math.random]
    the dither is -0.0005, the stored integer is -16, and 16/32767 is more
    than 1/32768. *)
Lemma dithered_pcm_exceeds_one_lsb :
  (-1 <= 0 <= 1) /\ (0 <= 0 /\ 0 < 1) /\
  convertToPCM (fun _ => 0) 0 [0] = [(-16)%Z] /\
  ~ (Qabs (inject_Z (convertSample 0 0) / 32767 - 0) <= 1#32768).
Proof.
  split; [split; vm_compute; congruence|].
  split; [split; vm_compute; congruence|].
  split; [vm_compute; reflexivity|].
  intros H. vm_compute in H. apply H. reflexivity.
Qed.

(** C7, amended. For every sample x in [-1, 1] and every draw of
    [Math.random] in [0, 1), when the rounded value fits the 16-bit store
    (no wrap-around), the integer p that [convertToPCM] produces for x
    satisfies |p / 32767 - x| <= 1/2000 + 1/65534: the dither has amplitude
    0.0005 and the rounding adds half a step. *)
Theorem dithered_pcm_roundtrip rnd k data i x p :
  data !! i = Some x ->
  -1 <= x <= 1 ->
  0 <= rnd (k + i)%nat /\ rnd (k + i)%nat < 1 ->
  (-32768 <= Math_round (scaled x (rnd (k + i)%nat)) <= 32767)%Z ->
  convertToPCM rnd k data !! i = Some p ->
  Qabs (inject_Z p / 32767 - x) <= (1#2000) + (1#65534).
Proof.
  intros Hi Hx Hr Hrange Hp.
  rewrite (convertToPCM_lookup rnd data k i x Hi) in Hp.
  injection Hp as <-.
  now apply convertSample_bound.
Qed.

Lemma dithered_pcm_roundtrip_witness :
  Qabs (inject_Z (-16) / 32767 - 0) <= (1#2000) + (1#65534).
Proof.
  apply (dithered_pcm_roundtrip (fun _ => 0) 0 [0] 0 0 (-16)%Z).
  - reflexivity.
  - split; vm_compute; congruence.
  - split; vm_compute; congruence.
  - vm_compute. split; congruence.
  - reflexivity.
Defined.

End PcmClaims.

(** ** Reasoning about computations *)

Module Logic.
Import Platform W Monad Browser.
Local Open Scope monad_scope.

Section Preserves.
Context {B : Type} (f : World -> B).

Lemma preserves_ret {A} (a : A) : preserves f (ret a).
Proof. intros w. reflexivity. Qed.

Lemma preserves_throw {A} e : preserves f (@throw A e).
Proof. intros w. reflexivity. Qed.

Lemma preserves_gets {A} (g : World -> A) : preserves f (gets g).
Proof. intros w. reflexivity. Qed.

Lemma preserves_modify (g : World -> World) :
  (forall w, f (g w) = f w) -> preserves f (modify g).
Proof. intros H w. apply H. Qed.

Lemma preserves_bind {A C} (m : M A) (k : A -> M C) :
  preserves f m -> (forall a, preserves f (k a)) -> preserves f (bind m k).
Proof.
  intros Hm Hk w. unfold bind. specialize (Hm w).
  destruct (m w) as [[a|e] w']; simpl in *.
  - now rewrite Hk.
  - exact Hm.
Qed.

Lemma preserves_tryCatch {A} (m : M A) (h : string -> M A) :
  preserves f m -> (forall e, preserves f (h e)) -> preserves f (tryCatch m h).
Proof.
  intros Hm Hh w. unfold tryCatch. specialize (Hm w).
  destruct (m w) as [[a|e] w']; simpl in *.
  - exact Hm.
  - now rewrite Hh.
Qed.

Lemma preserves_when b (m : M unit) : preserves f m -> preserves f (when b m).
Proof. intros Hm. destruct b; [exact Hm|apply preserves_ret]. Qed.

End Preserves.

Section Safe.

Lemma safe_ret {A} (a : A) : safe (ret a).
Proof. intros w. now exists a. Qed.

Lemma safe_gets {A} (g : World -> A) : safe (gets g).
Proof. intros w. now exists (g w). Qed.

Lemma safe_modify (g : World -> World) : safe (modify g).
Proof. intros w. now exists tt. Qed.

Lemma safe_bind {A C} (m : M A) (k : A -> M C) :
  safe m -> (forall a, safe (k a)) -> safe (bind m k).
Proof.
  intros Hm Hk w. unfold bind. destruct (Hm w) as [a Ha].
  destruct (m w) as [[a'|e] w']; simpl in *; [|discriminate].
  apply Hk.
Qed.

Lemma safe_tryCatch {A} (m : M A) (h : string -> M A) :
  (forall e, safe (h e)) -> safe (tryCatch m h).
Proof.
  intros Hh w. unfold tryCatch.
  destruct (m w) as [[a|e] w']; simpl; [now exists a|apply Hh].
Qed.

Lemma safe_when b (m : M unit) : safe m -> safe (when b m).
Proof. intros Hm. destruct b; [exact Hm|apply safe_ret]. Qed.

End Safe.

Section Ensures.
Context {B : Type} (f : World -> B) (v : B).

Lemma preserves_after {A C} (m : M A) (k : A -> M C) :
  (forall a, preserves f (k a)) -> forall w, f (snd (bind m k w)) = f (snd (m w)).
Proof.
  intros Hk w. unfold bind. destruct (m w) as [[a|e] w']; simpl; [apply Hk|reflexivity].
Qed.

Lemma ensures_here {A C} (m : M A) (k : A -> M C) :
  ensures f v m -> (forall a, preserves f (k a)) -> ensures f v (bind m k).
Proof. intros Hm Hk w. rewrite preserves_after by exact Hk. apply Hm. Qed.

Lemma ensures_later {A C} (m : M A) (k : A -> M C) :
  safe m -> (forall a, ensures f v (k a)) -> ensures f v (bind m k).
Proof.
  intros Hm Hk w. unfold bind. destruct (Hm w) as [a Ha].
  destruct (m w) as [[a'|e] w']; simpl in *; [apply Hk|discriminate].
Qed.

Lemma ensures_block {A C D} (m : M A) (h : A -> M C) (k : C -> M D) :
  ensures f v (bind m h) -> (forall c, preserves f (k c)) ->
  ensures f v (bind m (fun a => bind (h a) k)).
Proof.
  intros Hm Hk w. specialize (Hm w). unfold bind in *.
  destruct (m w) as [[a|e] w1]; simpl in *; [|exact Hm].
  destruct (h a w1) as [[c|e] w2]; simpl in *; [|exact Hm].
  now rewrite Hk.
Qed.

Lemma ensures_modify (g : World -> World) :
  (forall w, f (g w) = v) -> ensures f v (modify g).
Proof. intros H w. apply H. Qed.

(** A field is read and a block runs when it is set: the observation is
    settled by the block, or was settled already when the field is empty. *)
Lemma ensures_read_bool {C} (g : World -> bool) (k : bool -> M C) :
  ensures f v (k true) ->
  preserves f (k false) ->
  (forall w, g w = false -> f w = v) ->
  ensures f v (bind (gets g) k).
Proof.
  intros HT HF Hg w. unfold bind, gets. simpl.
  destruct (g w) eqn:E; [apply HT|].
  rewrite HF. now apply Hg.
Qed.

Lemma ensures_read_option {A C} (g : World -> option A) (k : option A -> M C) :
  (forall a, ensures f v (k (Some a))) ->
  preserves f (k None) ->
  (forall w, g w = None -> f w = v) ->
  ensures f v (bind (gets g) k).
Proof.
  intros HS HN Hg w. unfold bind, gets. simpl.
  destruct (g w) as [a|] eqn:E; [apply HS|].
  rewrite HN. now apply Hg.
Qed.

End Ensures.

Create HintDb frame discriminated.

(** The head constant of a computation. *)
Ltac head_of t := lazymatch t with ?f _ => head_of f | _ => t end.

(** A primitive operation given by a function of the world: case analysis
    on what it inspects. *)
Ltac by_cases :=
  let w := fresh "w" in
  intros w; cbn;
  repeat (match goal with
          | |- context [match ?x with _ => _ end] => destruct x eqn:?; cbn
          | |- context [if ?x then _ else _] => destruct x eqn:?; cbn
          end);
  try reflexivity; eauto.

(** A proof that follows the structure of the program: a fact already
    proved about the computation, or the rule of its outermost construct, or
    the body of the definition at its head, or, for a primitive operation,
    case analysis.  The first construct that does not fit ends the search. *)
Ltac frame :=
  first
  [ solve [eauto 1 with frame]
  | cbv zeta;
    lazymatch goal with
    | |- preserves _ (bind _ _) => apply preserves_bind; [frame | intros ?; frame]
    | |- preserves _ (ret _) => apply preserves_ret
    | |- preserves _ (throw _) => apply preserves_throw
    | |- preserves _ (gets _) => apply preserves_gets
    | |- preserves _ (modify _) => apply preserves_modify; solve [by_cases]
    | |- preserves _ (tryCatch _ _) => apply preserves_tryCatch; [frame | intros ?; frame]
    | |- preserves _ (when _ _) => apply preserves_when; frame
    | |- preserves _ (if ?b then _ else _) => destruct b; frame
    | |- preserves _ (match ?x with _ => _ end) => destruct x; frame
    | |- preserves _ ?m =>
        let h := head_of m in tryif progress unfold h then frame else solve [by_cases]
    | |- safe (bind _ _) => apply safe_bind; [frame | intros ?; frame]
    | |- safe (ret _) => apply safe_ret
    | |- safe (gets _) => apply safe_gets
    | |- safe (modify _) => apply safe_modify
    | |- safe (tryCatch _ _) => apply safe_tryCatch; intros ?; frame
    | |- safe (when _ _) => apply safe_when; frame
    | |- safe (if ?b then _ else _) => destruct b; frame
    | |- safe (match ?x with _ => _ end) => destruct x; frame
    | |- safe ?m =>
        let h := head_of m in tryif progress unfold h then frame else solve [by_cases]
    end ].

(** Where in a sequence the observation gets its final value: at the head
    when what follows preserves it, later otherwise (the head then must not
    throw). *)
Ltac ensure :=
  cbv zeta;
  lazymatch goal with
  | |- ensures _ _ (bind (OptimizedTranscriptionService.this _) _) =>
      unfold OptimizedTranscriptionService.this at 1; ensure
  | |- ensures _ _ (bind (EnhancedTranscriptionManager.this _) _) =>
      unfold EnhancedTranscriptionManager.this at 1; ensure
  | |- ensures _ _ (bind (gets _) _) =>
      first [ apply ensures_read_option;
              [ intros ?; cbv beta iota
              | cbv beta iota; solve [frame]
              | intros ? ?; solve [cbn in *; eauto] ]
            | apply ensures_read_bool;
              [ cbv beta iota
              | cbv beta iota; solve [frame]
              | intros ? ?; solve [cbn in *; eauto] ]
            | apply ensures_later; [solve [frame] | intros ?] ];
      ensure
  | |- ensures _ _ (bind _ _) =>
      first [ apply ensures_here; [ | intros ?; solve [frame] ]
            | apply ensures_later; [ solve [frame] | intros ? ] ];
      ensure
  | |- ensures _ _ (if ?b then _ else _) => destruct b; ensure
  | |- ensures _ _ (match ?x with _ => _ end) => destruct x; ensure
  | |- ensures _ _ (modify _) => apply ensures_modify; solve [by_cases]
  | |- ensures _ _ ?m =>
      let h := head_of m in tryif progress unfold h then ensure else solve [by_cases]
  end.

End Logic.

(** ** Sending audio data *)

Module SendFacts.
Import Platform W Monad Browser Logic Observe.
Local Open Scope monad_scope.
Module S := OptimizedTranscriptionService.

Lemma userEvents_console tr lvl msg : userEvents (tr ++ [Console lvl msg]) = userEvents tr.
Proof. unfold userEvents. rewrite List.filter_app. simpl. apply app_nil_r. Qed.

Lemma userErrors_console tr lvl msg : userErrors (tr ++ [Console lvl msg]) = userErrors tr.
Proof. unfold userErrors. rewrite List.filter_app. simpl. apply app_nil_r. Qed.

Lemma sendAudioData_cases audioData w :
  S.sendAudioData audioData w = (Ok tt, afterSend audioData w).
Proof.
  unfold S.sendAudioData, afterSend, S.this, bind, gets, ws_readyState, tryCatch,
    ws_send, isOpen. simpl.
  destruct (Svc.websocket (svc w)) as [id|]; simpl; [|reflexivity].
  destruct (sockets w !! id) as [s|] eqn:Hs; simpl.
  2:{ now rewrite andb_false_r. }
  destruct (Svc.isConnected (svc w)); simpl; [|reflexivity].
  destruct (readyState s) eqn:Hr; simpl; try reflexivity.
  rewrite Hs. destruct (sendThrows s) eqn:Ht; simpl; [reflexivity|].
  now rewrite Hr.
Qed.

(** Buffers given one after the other to a connected service whose socket
    is open arrive on the socket one frame each, in the order of the calls. *)
Lemma sendAudioData_sequence id buffers : forall w s,
  Svc.isConnected (svc w) = true ->
  Svc.websocket (svc w) = Some id ->
  sockets w !! id = Some s ->
  readyState s = OPEN ->
  sendThrows s = false ->
  sockets (sendAll buffers w) !! id = Some (set_sent (sent s ++ map Binary buffers) s)
  /\ svc (sendAll buffers w) = svc w /\ trace (sendAll buffers w) = trace w.
Proof.
  induction buffers as [|b rest IH]; intros w s Hc Hw Hs Hr Ht.
  - simpl. rewrite app_nil_r. destruct s; auto.
  - change (sendAll (b :: rest) w) with (sendAll rest (exec (S.sendAudioData b) w)).
    unfold exec. rewrite sendAudioData_cases. simpl snd.
    assert (Hstep : afterSend b w
                    = set_sockets (<[id := set_sent (sent s ++ [Binary b]) s]> (sockets w)) w).
    { unfold afterSend, isOpen. now rewrite Hw, Hs, Hc, Hr, Ht. }
    rewrite Hstep.
    destruct (IH (set_sockets (<[id := set_sent (sent s ++ [Binary b]) s]> (sockets w)) w)
                 (set_sent (sent s ++ [Binary b]) s)) as [H1 [H2 H3]];
      try assumption.
    { simpl. apply lookup_insert_eq. }
    rewrite H1, H2, H3. repeat split.
    f_equal. unfold set_sent. simpl. now rewrite <- app_assoc.
Qed.

End SendFacts.

Module SendClaims.
Import Platform W Monad Browser Logic Observe SendFacts.
Local Open Scope monad_scope.

(** C10. [sendAudioData] returns normally for every buffer and every state
    of the page, and calls no callback of the consumer.  When the service is
    not connected, has no socket, or its socket is not OPEN, the world is
    unchanged.  When the socket raises, the exception is caught: the only
    effect is one line on the console.  Otherwise the buffer is queued on
    the socket as one binary frame. *)
Theorem sendAudioData_never_throws audioData w :
  exists w',
    S.sendAudioData audioData w = (Ok tt, w')
    /\ userEvents (trace w') = userEvents (trace w)
    /\ svc w' = svc w /\ mgr w' = mgr w /\ timers w' = timers w
    /\ match Svc.websocket (svc w) with
       | Some id =>
           match sockets w !! id with
           | Some s =>
               if Svc.isConnected (svc w) && isOpen s then
                 if sendThrows s
                 then w' = set_trace (trace w ++ [Console Error "Error sending audio data:"]) w
                 else w' = set_sockets
                             (<[id := set_sent (sent s ++ [Binary audioData]) s]> (sockets w)) w
               else w' = w
           | None => w' = w
           end
       | None => w' = w
       end.
Proof.
  exists (afterSend audioData w). split; [apply sendAudioData_cases|].
  unfold afterSend.
  destruct (Svc.websocket (svc w)) as [id|]; [|repeat split; reflexivity].
  destruct (sockets w !! id) as [s|]; [|repeat split; reflexivity].
  destruct (Svc.isConnected (svc w) && isOpen s); [|repeat split; reflexivity].
  destruct (sendThrows s); repeat split; try reflexivity.
  simpl. apply userEvents_console.
Qed.

End SendClaims.

(** ** Inbound results *)

Module ResultsClaims.
Import Platform W Monad Browser Logic Observe Scenario Policy.
Local Open Scope monad_scope.

(** A Results message with one alternative is delivered to the callback
    with [isFinal] equal to the negation of the truth value of [is_final],
    whatever the values in the message are. *)
Lemma results_delivery cb w transcript conf is_final :
  S.handleWebSocketMessage cb
    (Some (Js.Obj [("type", Js.Str "Results");
                   ("channel", Js.Obj [("alternatives",
                      Js.Arr [Js.Obj [("transcript", transcript); ("confidence", conf)]])]);
                   ("is_final", is_final)])) w
  = guarded
      (cb {| Result.text := transcript;
             Result.confidence := Js.or conf (Js.Num (85#100));
             Result.isFinal := Js.not is_final;
             Result.timestamp := now w;
             Result.duration := Js.Num 0;
             Result.language := Js.Str (Svc.language (Svc.config (svc w)));
             Result.words := None |}) w.
Proof. reflexivity. Qed.

(** C2 fails on the code. For a Results message with one alternative the
    result handed to the transcription callback has [isFinal] equal to the
    negation of the message's [is_final]: a final result ([is_final = true])
    is delivered as interim and an interim result as final. *)
Theorem results_isFinal_is_negated cb w transcript conf (is_final : bool) :
  S.handleWebSocketMessage cb
    (Some (Js.Obj [("type", Js.Str "Results");
                   ("channel", Js.Obj [("alternatives",
                      Js.Arr [Js.Obj [("transcript", transcript); ("confidence", conf)]])]);
                   ("is_final", Js.Bool is_final)])) w
  = guarded
      (cb {| Result.text := transcript;
             Result.confidence := Js.or conf (Js.Num (85#100));
             Result.isFinal := negb is_final;
             Result.timestamp := now w;
             Result.duration := Js.Num 0;
             Result.language := Js.Str (Svc.language (Svc.config (svc w)));
             Result.words := None |}) w.
Proof. rewrite results_delivery. reflexivity. Qed.

(** The backend's final result, on the scenario's message: the callback
    receives [isFinal = false]. *)
Example final_result_delivered_as_interim cb w :
  S.handleWebSocketMessage cb (Some (resultsMessage true)) w
  = guarded
      (cb {| Result.text := Js.Str "hello world";
             Result.confidence := Js.Num (98#100);
             Result.isFinal := false;
             Result.timestamp := now w;
             Result.duration := Js.Num 0;
             Result.language := Js.Str (Svc.language (Svc.config (svc w)));
             Result.words := None |}) w.
Proof. unfold resultsMessage. rewrite results_delivery. reflexivity. Qed.

End ResultsClaims.

(** ** What the tasks leave unchanged *)

Module Frames.
Import Platform W Monad Browser Logic Observe EventLoop Policy SendFacts.
Local Open Scope monad_scope.

Lemma mapWords_pure words w : snd (S.mapWords words w) = w.
Proof.
  unfold S.mapWords. destruct words; try reflexivity.
  destruct (S.mapItems items); reflexivity.
Qed.

Lemma preserves_mapWords {B} (f : World -> B) words : preserves f (S.mapWords words).
Proof. intros w. now rewrite mapWords_pure. Qed.

Lemma attemptsScheduled_snoc tr e :
  attemptsScheduled (tr ++ [e])
  = (attemptsScheduled tr + (if isAttemptLog e then 1 else 0))%Z.
Proof.
  unfold attemptsScheduled. rewrite List.filter_app, length_app. simpl.
  destruct (isAttemptLog e); simpl; lia.
Qed.

Lemma userErrors_snoc_other tr e :
  match e with UserError _ => False | _ => True end ->
  userErrors (tr ++ [e]) = userErrors tr.
Proof.
  intros H. unfold userErrors. rewrite List.filter_app. simpl.
  destruct e; try contradiction; apply app_nil_r.
Qed.

(** Console output is neither a call of [onError] nor, unless it is the
    line of [attemptReconnection], the announcement of an attempt. *)
Lemma preserves_userErrors_console lvl msg :
  preserves (fun w => userErrors (trace w)) (console lvl msg).
Proof. intros w. simpl. now apply userErrors_snoc_other. Qed.

Lemma preserves_attempts_console lvl msg :
  isAttemptLog (Console lvl msg) = false ->
  preserves (fun w => attemptsScheduled (trace w)) (console lvl msg).
Proof. intros H w. simpl. rewrite attemptsScheduled_snoc, H. lia. Qed.

Lemma preserves_attempts_onTranscription text confidence metrics :
  preserves (fun w => attemptsScheduled (trace w))
    (E.onTranscriptionCallback text confidence metrics).
Proof. intros w. simpl. rewrite attemptsScheduled_snoc. simpl. lia. Qed.

Lemma preserves_attempts_onError msg :
  preserves (fun w => attemptsScheduled (trace w)) (E.onErrorCallback msg).
Proof. intros w. simpl. rewrite attemptsScheduled_snoc. simpl. lia. Qed.

Lemma preserves_userErrors_onTranscription text confidence metrics :
  preserves (fun w => userErrors (trace w))
    (E.onTranscriptionCallback text confidence metrics).
Proof. intros w. simpl. now apply userErrors_snoc_other. Qed.

#[export] Hint Resolve preserves_mapWords preserves_userErrors_console
  preserves_attempts_onTranscription preserves_attempts_onError
  preserves_userErrors_onTranscription : frame.
#[export] Hint Extern 1 (preserves (fun w => attemptsScheduled (trace w)) (console _ _)) =>
  apply preserves_attempts_console; reflexivity : frame.

(** *** The audio path never touches a socket *)

Lemma audio_frame_keeps_sockets samples :
  preserves sockets (task (AudioFrame samples)).
Proof. frame. Qed.

(** *** Inbound messages never touch the heartbeat time *)

Lemma message_keeps_heartbeat id parsed :
  preserves (fun w => Svc.lastHeartbeatTime (svc w)) (task (SocketMessage id parsed)).
Proof. frame. Qed.

(** *** The tasks that neither count nor announce a reconnection attempt *)

Section Reconnection.

Lemma service_stop_keeps_attempts : preserves attemptsOf S.stop.
Proof. unfold attemptsOf. frame. Qed.

Lemma service_stop_keeps_config : preserves configOf S.stop.
Proof. unfold configOf. frame. Qed.

Lemma service_stop_keeps_announced : preserves announcedOf S.stop.
Proof. unfold announcedOf. frame. Qed.

Lemma callback_keeps_attempts id cb o :
  cb <> StreamReconnect -> preserves attemptsOf (runCallback id cb o).
Proof. intros H. unfold attemptsOf. destruct cb; try congruence; frame. Qed.

Lemma callback_keeps_config id cb o : preserves configOf (runCallback id cb o).
Proof. unfold configOf. destruct cb; frame. Qed.

Lemma callback_keeps_announced id cb o :
  cb <> StreamReconnect -> preserves announcedOf (runCallback id cb o).
Proof. intros H. unfold announcedOf. destruct cb; try congruence; frame. Qed.

End Reconnection.

End Frames.

(** ** The reconnection policy *)

Module ReconnectFacts.
Import Platform W Monad Browser Logic Observe EventLoop Policy SendFacts Frames.
Local Open Scope monad_scope.
Local Open Scope Z_scope.

Lemma exec_seq {A} (m : M unit) (k : M A) w :
  safe m -> exec (m ;; k) w = exec k (exec m w).
Proof.
  intros Hm. unfold exec, bind. destruct (Hm w) as [a Ha].
  destruct (m w) as [[[]|e] w']; simpl in *; [reflexivity|discriminate].
Qed.

(** *** [stop()] of the service *)

Lemma service_stop_websocket : ensures (fun w => Svc.websocket (svc w)) None S.stop.
Proof. ensure. Qed.

Lemma service_stop_interval :
  ensures (fun w => Svc.connectionCheckInterval (svc w)) None S.stop.
Proof. ensure. Qed.

Lemma service_stop_processor : ensures (fun w => Svc.audioProcessor (svc w)) None S.stop.
Proof. ensure. Qed.

Lemma service_stop_hd : ensures (fun w => Svc.hdProcessor (svc w)) None S.stop.
Proof. ensure. Qed.

Lemma service_stop_stream : ensures (fun w => Svc.mediaStream (svc w)) None S.stop.
Proof. ensure. Qed.

Lemma service_stop_connected : ensures (fun w => Svc.isConnected (svc w)) false S.stop.
Proof. ensure. Qed.

Lemma service_stop_no_timer : preserves nextTimer S.stop.
Proof. frame. Qed.

Lemma service_stop_safe : safe S.stop.
Proof. frame. Qed.

Lemma service_stop_stopped w : stopped (svc (exec S.stop w)).
Proof.
  unfold stopped, exec.
  rewrite (service_stop_connected w), (service_stop_websocket w),
    (service_stop_interval w), (service_stop_processor w),
    (service_stop_hd w), (service_stop_stream w).
  repeat split.
Qed.

(** *** [attemptReconnection()] *)

(** Below the cap one attempt is counted, announced and scheduled; at the
    cap the service stops and no timer is created. *)
Lemma attemptReconnection_step w :
  configOf (exec S.attemptReconnection w) = configOf w /\
  ((attemptsOf w < maxOf w
    /\ attemptsOf (exec S.attemptReconnection w) = attemptsOf w + 1
    /\ announcedOf (exec S.attemptReconnection w) = announcedOf w + 1
    /\ nextTimer (exec S.attemptReconnection w) = S (nextTimer w))
   \/ (maxOf w <= attemptsOf w
    /\ attemptsOf (exec S.attemptReconnection w) = attemptsOf w
    /\ announcedOf (exec S.attemptReconnection w) = announcedOf w
    /\ nextTimer (exec S.attemptReconnection w) = nextTimer w
    /\ stopped (svc (exec S.attemptReconnection w)))).
Proof.
  unfold exec, S.attemptReconnection, S.this, bind at 1 2, gets. cbn -[S.stop Z.ltb].
  fold (attemptsOf w).
  destruct (Z.ltb_spec (attemptsOf w) (Svc.maxReconnectAttempts (Svc.config (svc w))))
    as [Hlt|Hge].
  - cbn. split; [reflexivity|]. left.
    unfold attemptsOf, announcedOf, maxOf, configOf in *. cbn.
    rewrite attemptsScheduled_snoc. cbn. repeat split; lia.
  - fold (exec (console Error "Max reconnection attempts reached" ;; S.stop) w).
    rewrite exec_seq by frame.
    set (w1 := exec (console Error "Max reconnection attempts reached") w).
    assert (H1 : configOf w1 = configOf w /\ attemptsOf w1 = attemptsOf w
                 /\ announcedOf w1 = announcedOf w /\ nextTimer w1 = nextTimer w).
    { unfold w1, announcedOf. cbn. rewrite attemptsScheduled_snoc. cbn.
      repeat split; lia. }
    destruct H1 as [Hc [Ha [Hn Ht]]].
    unfold exec. rewrite (service_stop_keeps_config w1). split; [exact Hc|]. right.
    rewrite (service_stop_keeps_attempts w1), (service_stop_keeps_announced w1),
      (service_stop_no_timer w1).
    split; [exact Hge|]. split; [exact Ha|]. split; [exact Hn|]. split; [exact Ht|].
    apply (service_stop_stopped w1).
Qed.

(** *** One event of a quiet run *)

Lemma onclose_step w :
  configOf (exec onclose w) = configOf w /\
  ((attemptsOf w < maxOf w
    /\ attemptsOf (exec onclose w) = attemptsOf w + 1
    /\ announcedOf (exec onclose w) = announcedOf w + 1
    /\ nextTimer (exec onclose w) = S (nextTimer w))
   \/ (maxOf w <= attemptsOf w
    /\ attemptsOf (exec onclose w) = attemptsOf w
    /\ announcedOf (exec onclose w) = announcedOf w
    /\ nextTimer (exec onclose w) = nextTimer w
    /\ stopped (svc (exec onclose w)))).
Proof.
  unfold onclose, S.onclose.
  rewrite exec_seq by frame. rewrite exec_seq by frame. rewrite exec_seq by frame.
  set (w1 := exec (E.handleConnectionStateChange false)
               (exec (S.assign (Svc.set_isConnected false))
                  (exec (console Log "WebSocket connection closed") w))).
  assert (H1 : configOf w1 = configOf w /\ attemptsOf w1 = attemptsOf w
               /\ announcedOf w1 = announcedOf w /\ nextTimer w1 = nextTimer w).
  { unfold w1, announcedOf. cbn. rewrite !attemptsScheduled_snoc. cbn.
    repeat split; lia. }
  destruct H1 as [Hc [Ha [Hn Ht]]].
  pose proof (attemptReconnection_step w1) as H.
  unfold maxOf in *. rewrite Hc, Ha, Hn, Ht in H. exact H.
Qed.

Lemma setSocketState_frame id r w :
  configOf (exec (setSocketState id r) w) = configOf w
  /\ attemptsOf (exec (setSocketState id r) w) = attemptsOf w
  /\ announcedOf (exec (setSocketState id r) w) = announcedOf w
  /\ nextTimer (exec (setSocketState id r) w) = nextTimer w.
Proof. repeat split. Qed.

Section Timers.
Variables (id : nat) (t : Timer) (o : Outcomes).
Hypothesis Hcb : callback t <> StreamReconnect.

Lemma fired_keeps_attempts : preserves attemptsOf (fired id t o).
Proof.
  unfold fired. apply preserves_bind; [frame|intros _].
  apply preserves_bind; [frame|intros _]. now apply callback_keeps_attempts.
Qed.

Lemma fired_keeps_config : preserves configOf (fired id t o).
Proof.
  unfold fired. apply preserves_bind; [frame|intros _].
  apply preserves_bind; [frame|intros _]. apply callback_keeps_config.
Qed.

Lemma fired_keeps_announced : preserves announcedOf (fired id t o).
Proof.
  unfold fired. apply preserves_bind; [frame|intros _].
  apply preserves_bind; [frame|intros _]. now apply callback_keeps_announced.
Qed.

End Timers.

Lemma fireTimer_unfold id o w :
  exec (fireTimer id o) w
  = match timers w !! id with
    | Some t => exec (fired id t o) w
    | None => w
    end.
Proof.
  unfold exec, fireTimer. unfold bind at 1. unfold gets. simpl.
  destruct (timers w !! id); reflexivity.
Qed.

Lemma task_close_unfold id w :
  exec (task (SocketClose id)) w
  = match sockets w !! id with
    | Some s =>
        match readyState s with
        | CLOSED => w
        | _ => exec (setSocketState id CLOSED ;; onclose) w
        end
    | None => w
    end.
Proof.
  unfold exec, task. unfold bind at 1. unfold socketState, ws_readyState, gets. simpl.
  destruct (sockets w !! id) as [s|]; simpl; [|reflexivity].
  destruct (readyState s); reflexivity.
Qed.

Lemma task_open_unfold id o w :
  exec (task (SocketOpen id o)) w
  = match sockets w !! id with
    | Some s =>
        match readyState s with
        | CONNECTING => exec (setSocketState id OPEN ;; onopen (processorStart o) id) w
        | _ => w
        end
    | None => w
    end.
Proof.
  unfold exec, task. unfold bind at 1. unfold socketState, ws_readyState, gets. simpl.
  destruct (sockets w !! id) as [s|]; simpl; [|reflexivity].
  destruct (readyState s); reflexivity.
Qed.

(** An event that does not establish a connection leaves the configuration
    alone, and either leaves the counter and the number of announced
    attempts alone, or (a close event below the cap) adds one to both. *)
Lemma quiet_step w e :
  opensSession w e = false ->
  configOf (step w e) = configOf w /\
  ((attemptsOf (step w e) = attemptsOf w /\ announcedOf (step w e) = announcedOf w)
   \/ (attemptsOf w < maxOf w
       /\ attemptsOf (step w e) = attemptsOf w + 1
       /\ announcedOf (step w e) = announcedOf w + 1)).
Proof.
  intros Hq. unfold step.
  assert (Hsame : forall m : M unit,
            preserves configOf m -> preserves attemptsOf m -> preserves announcedOf m ->
            configOf (exec m w) = configOf w /\
            ((attemptsOf (exec m w) = attemptsOf w /\ announcedOf (exec m w) = announcedOf w)
             \/ (attemptsOf w < maxOf w
                 /\ attemptsOf (exec m w) = attemptsOf w + 1
                 /\ announcedOf (exec m w) = announcedOf w + 1))).
  { intros m Hc Ha Hn. unfold exec. rewrite Hc, Ha, Hn. auto. }
  destruct e as [dt|id o|id o|id parsed|id|id|samples| |audioData].
  - apply Hsame; unfold configOf, attemptsOf, announcedOf; frame.
  - simpl in Hq. change (task (FireTimer id o)) with (fireTimer id o).
    rewrite fireTimer_unfold.
    destruct (timers w !! id) as [t|]; [|auto].
    destruct (decide (callback t = StreamReconnect)) as [|Hne]; [discriminate|].
    apply (Hsame (fired id t o)).
    + apply fired_keeps_config.
    + now apply fired_keeps_attempts.
    + now apply fired_keeps_announced.
  - simpl in Hq. rewrite task_open_unfold.
    destruct (sockets w !! id) as [s|]; simpl; [|auto].
    destruct (readyState s); try discriminate; simpl; auto.
  - apply Hsame; unfold configOf, attemptsOf, announcedOf; frame.
  - apply Hsame; unfold configOf, attemptsOf, announcedOf; frame.
  - rewrite task_close_unfold.
    destruct (sockets w !! id) as [s|]; simpl; [|auto].
    assert (Hlive : configOf (exec (setSocketState id CLOSED ;; onclose) w) = configOf w /\
              ((attemptsOf (exec (setSocketState id CLOSED ;; onclose) w) = attemptsOf w
                /\ announcedOf (exec (setSocketState id CLOSED ;; onclose) w) = announcedOf w)
               \/ (attemptsOf w < maxOf w
                   /\ attemptsOf (exec (setSocketState id CLOSED ;; onclose) w) = attemptsOf w + 1
                   /\ announcedOf (exec (setSocketState id CLOSED ;; onclose) w)
                      = announcedOf w + 1))).
    { rewrite exec_seq by frame.
      destruct (setSocketState_frame id CLOSED w) as [Hc [Ha [Hn Ht]]].
      destruct (onclose_step (exec (setSocketState id CLOSED) w)) as [Hc' H].
      unfold maxOf in *. rewrite Hc, Ha, Hn in *.
      split; [exact Hc'|].
      destruct H as [[Hlt [Ha' [Hn' _]]]|[Hge [Ha' [Hn' _]]]]; auto. }
    destruct (readyState s); simpl; auto; apply Hlive.
  - apply Hsame; unfold configOf, attemptsOf, announcedOf; frame.
  - apply Hsame; unfold configOf, attemptsOf, announcedOf; frame.
  - apply Hsame; unfold configOf, attemptsOf, announcedOf; frame.
Qed.

(** Over a quiet run the attempts announced are the attempts counted, and
    the counter stays within the cap. *)
Lemma quiet_run events : forall w,
  attemptsOf w <= maxOf w ->
  quietRun w events ->
  configOf (run w events) = configOf w
  /\ attemptsOf w <= attemptsOf (run w events) <= maxOf w
  /\ announcedOf (run w events) - announcedOf w = attemptsOf (run w events) - attemptsOf w.
Proof.
  induction events as [|e rest IH]; intros w Hle Hq.
  - simpl. repeat split; lia.
  - destruct Hq as [Hq Hrest]. simpl.
    destruct (quiet_step w e Hq) as [Hc Hstep].
    assert (Hmax : maxOf (step w e) = maxOf w) by (unfold maxOf; now rewrite Hc).
    assert (Hle' : attemptsOf (step w e) <= maxOf (step w e))
      by (rewrite Hmax; destruct Hstep as [[Ha _]|[Hlt [Ha _]]]; lia).
    destruct (IH (step w e) Hle' Hrest) as [Hc' [Hb Hn]].
    rewrite Hmax in Hb.
    split; [congruence|].
    destruct Hstep as [[Ha Hn0]|[Hlt [Ha Hn0]]]; split; lia.
Qed.

End ReconnectFacts.

Module ReconnectClaims.
Import Platform W Monad Browser Logic Observe EventLoop Policy Scenario ReconnectFacts.
Local Open Scope monad_scope.
Local Open Scope Z_scope.

Lemma onopen_resets po id :
  ensures attemptsOf 0 (S.onopen E.handleConnectionStateChange po id).
Proof. unfold attemptsOf. ensure. Qed.


End ReconnectClaims.

Module ReconnectWitness.
Import Platform W Monad Browser Logic Observe EventLoop Policy Scenario ReconnectClaims.
Local Open Scope Z_scope.


End ReconnectWitness.

(** ** The heartbeat *)

Module HeartbeatClaims.
Import Platform W Monad Browser Logic Observe EventLoop Policy Scenario Frames.
Local Open Scope Z_scope.

Ltac pick_member := repeat (first [left; reflexivity | right]).

(** C6 fails on the code. No inbound message ever changes
    [lastHeartbeatTime], which is written by the open handler only, so the
    deadline of 30 s runs from the moment the socket opened.  In the run
    below the socket opens at 1120 ms, KeepAlive frames are sent at the three
    ticks that follow, a result arrives at 36120 ms, and the tick at 41120 ms
    nevertheless forces a reconnect: the open socket is closed and a new one
    is created 5 s after inbound traffic was observed. *)
Theorem heartbeat_timeout_ignores_traffic :
  (forall id parsed w,
     Svc.lastHeartbeatTime (svc (step w (SocketMessage id parsed)))
     = Svc.lastHeartbeatTime (svc w))
  /\ (let w36 := run started trafficUntil36s in
      let w41 := step w36 (FireTimer 1 outcomes) in
      now w36 = 36120
      /\ (exists m, last (trace w36)
                    = Some (UserTranscription (Js.Str "hello world") (Js.Num (98#100)) m))
      /\ Svc.lastHeartbeatTime (svc w36) = 1120
      /\ Svc.websocket (svc w36) = Some 0%nat
      /\ (sent <$> sockets w36 !! 0%nat)
         = Some [Text S.keepAlive; Text S.keepAlive; Text S.keepAlive]
      /\ now w41 = 41120
      /\ In (Console Warn "Connection heartbeat timeout, reconnecting...") (trace w41)
      /\ (readyState <$> sockets w41 !! 0%nat) = Some CLOSING
      /\ Svc.websocket (svc w41) = Some 1%nat).
Proof.
  split.
  - intros id parsed w. apply (message_keeps_heartbeat id parsed w).
  - vm_compute. repeat (split; [try reflexivity; eauto|]); try reflexivity.
    pick_member.
Qed.

End HeartbeatClaims.

(** ** Timers after [stop()] *)

Module StopFacts.
Import Platform W Monad Browser Logic Observe EventLoop Policy Scenario Frames ReconnectFacts.
Local Open Scope monad_scope.

Lemma exec_read {A B} (g : World -> A) (k : A -> M B) w :
  exec (bind (gets g) k) w = exec (k (g w)) w.
Proof. reflexivity. Qed.

(** What [stop()] of the service does to the timer table: it clears the
    interval of the connection check, and nothing else. *)
Lemma service_stop_timers w :
  timers (exec S.stop w)
  = match Svc.connectionCheckInterval (svc w) with
    | Some id => delete id (timers w)
    | None => timers w
    end.
Proof.
  unfold S.stop. rewrite exec_seq by frame.
  unfold S.this at 1. rewrite exec_read.
  set (w1 := exec (console Log "Stopping optimized transcription service...") w).
  change (Svc.connectionCheckInterval (svc w1)) with (Svc.connectionCheckInterval (svc w)).
  unfold exec. rewrite (preserves_after timers) by (intros; frame).
  destruct (Svc.connectionCheckInterval (svc w)); reflexivity.
Qed.

(** What [stop()] of the manager does to the timer table: it clears the
    interval of the stream monitor and, through the service, the interval of
    the connection check, and nothing else. *)
Lemma manager_stop_timers w :
  timers (exec E.stop w)
  = let t1 := match Mgr.streamMonitor (mgr w) with
              | Some id => delete id (timers w)
              | None => timers w
              end in
    if Mgr.transcriptionService (mgr w) then
      match Svc.connectionCheckInterval (svc w) with
      | Some id => delete id t1
      | None => t1
      end
    else t1.
Proof.
  unfold E.stop. rewrite exec_seq by frame. rewrite exec_seq by frame.
  unfold E.this at 1. rewrite exec_read.
  set (w1 := exec (E.assign (Mgr.set_isActive false))
               (exec (console Log "Stopping enhanced transcription manager...") w)).
  change (Mgr.streamMonitor (mgr w1)) with (Mgr.streamMonitor (mgr w)).
  rewrite exec_seq by (destruct (Mgr.streamMonitor (mgr w)); frame).
  set (w2 := exec match Mgr.streamMonitor (mgr w) with
                  | Some id => clearInterval id ;; E.assign (Mgr.set_streamMonitor None)
                  | None => ret tt
                  end w1).
  assert (H2 : timers w2 = match Mgr.streamMonitor (mgr w) with
                           | Some id => delete id (timers w)
                           | None => timers w
                           end
               /\ Mgr.transcriptionService (mgr w2) = Mgr.transcriptionService (mgr w)
               /\ svc w2 = svc w).
  { unfold w2. destruct (Mgr.streamMonitor (mgr w)); repeat split. }
  destruct H2 as [Ht [Hts Hsvc]].
  unfold E.this at 1. rewrite exec_read, Hts.
  unfold exec at 1. rewrite (preserves_after timers) by (intros; frame).
  cbv zeta. rewrite <- Ht.
  destruct (Mgr.transcriptionService (mgr w)); [|reflexivity].
  unfold E.service_stop.
  rewrite (preserves_after timers) by (intros; frame).
  fold (exec S.stop w2). rewrite service_stop_timers, Hsvc. reflexivity.
Qed.

End StopFacts.

Module StopClaims.
Import Platform W Monad Browser Logic Observe EventLoop Policy Scenario StopFacts.
Local Open Scope Z_scope.

(** C4 fails on the code. [stop()] of the manager clears two intervals: the
    stream monitor and the connection check of the service.  Every other
    timer stays pending.  [startMetricsCollection] drops the handle of the
    interval it creates, so after a successful [initialize()] followed by
    [stop()] the metrics interval (timer 3 of the example page) is still
    pending, and it fires and is re-armed after [stop()] has returned. *)
Theorem metrics_interval_survives_stop :
  (forall w id t,
     timers w !! id = Some t ->
     Mgr.streamMonitor (mgr w) <> Some id ->
     Svc.connectionCheckInterval (svc w) <> Some id ->
     timers (exec E.stop w) !! id = Some t)
  /\ (let metricsTimer :=
        {| callback := CollectMetrics; delay := 1000; due := 2120; periodic := true |} in
      let w := exec E.stop started in
      let w' := step w (FireTimer 3 outcomes) in
      Mgr.isActive (mgr w) = false
      /\ pendingWith CollectMetrics started = [(3%nat, metricsTimer)]
      /\ pendingWith CollectMetrics w = [(3%nat, metricsTimer)]
      /\ now w = 1120 /\ now w' = 2120
      /\ timers w' !! 3%nat = Some (set_due 3120 metricsTimer)).
Proof.
  split.
  - intros w id t Ht Hsm Hiv. rewrite manager_stop_timers. cbv zeta.
    assert (H1 : match Mgr.streamMonitor (mgr w) with
                 | Some id0 => delete id0 (timers w)
                 | None => timers w
                 end !! id = Some t).
    { destruct (Mgr.streamMonitor (mgr w)) as [i|]; [|exact Ht].
      rewrite lookup_delete_ne by congruence. exact Ht. }
    destruct (Mgr.transcriptionService (mgr w)); [|exact H1].
    destruct (Svc.connectionCheckInterval (svc w)) as [j|]; [|exact H1].
    rewrite lookup_delete_ne by congruence. exact H1.
  - vm_compute. repeat split.
Qed.

End StopClaims.

(** ** The chunker *)

Module ChunkFacts.
Import Platform W Monad Browser Logic Observe EventLoop Policy Scenario Frames.
Import Num NumFacts Chunk.
Local Open Scope monad_scope.
Module R := RealtimeTranscriptionProcessor.

(** The chunker never throws, whatever the callback does. *)
Lemma processTranscriptionChunk_safe cb chunk : safe (R.processTranscriptionChunk cb chunk).
Proof.
  unfold R.processTranscriptionChunk.
  destruct (negb (isSpeech chunk) || Num.ltb (confidence chunk) (1 # 2)); frame.
Qed.

#[export] Hint Resolve processTranscriptionChunk_safe : frame.

Lemma processAudioFrame_safe cb samples p : safe (R.processAudioFrame cb samples p).
Proof. frame. Qed.

(** The chunk that [makeChunk] builds. *)
Lemma makeChunk_result p w :
  exists chunk p' w',
    R.makeChunk p w = (Ok (chunk, p'), w')
    /\ duration chunk
       = (inject_Z (Z.of_nat (length (concat (Proc.audioBuffer p))))
          / sampleRate (Proc.config p) * 1000)%Q
    /\ length (data chunk) = length (concat (Proc.audioBuffer p))
    /\ timestamp chunk = now w
    /\ Proc.audioBuffer p' = []
    /\ Proc.config p' = Proc.config p.
Proof.
  unfold R.makeChunk. cbn. do 3 eexists. split; [reflexivity|]. cbn.
  repeat split. apply PcmFacts.convertToPCM_length.
Qed.

End ChunkFacts.

Module ChunkerFacts.
Import Platform W Monad Browser Logic Observe EventLoop Policy Scenario Frames.
Import Num NumFacts Chunk ChunkFacts Chunker.
Local Open Scope monad_scope.

Lemma safe_result {A} (m : M A) w : safe m -> exists a w1, m w = (Ok a, w1).
Proof.
  intros H. destruct (H w) as [a Ha]. destruct (m w) as [r w1]. simpl in Ha. subst.
  now exists a, w1.
Qed.

Lemma bind_ok {A B} (m : M A) (k : A -> M B) w a w1 :
  m w = (Ok a, w1) -> bind m k w = k a w1.
Proof. intros H. unfold bind. now rewrite H. Qed.

Lemma handleSilencePeriod_fields cb p w :
  exists p' w', R.handleSilencePeriod cb p w = (Ok p', w')
    /\ Proc.audioBuffer p' = Proc.audioBuffer p
    /\ Proc.chunkQueue p' = Proc.chunkQueue p
    /\ Proc.config p' = Proc.config p.
Proof.
  unfold R.handleSilencePeriod, bind at 1, Date_now, gets.
  destruct (Proc.silenceStartTime p =? 0)%Z; [do 2 eexists; split; [reflexivity|now repeat split]|].
  destruct (2000 <? now w - Proc.silenceStartTime p)%Z;
    [|do 2 eexists; split; [reflexivity|now repeat split]].
  assert (Hs : safe (R.processAccumulatedSpeech cb p)).
  { unfold R.processAccumulatedSpeech. destruct (filter _ _); frame. }
  destruct (safe_result _ w Hs) as ([] & w1 & H1).
  unfold bind. rewrite H1. do 2 eexists. split; [reflexivity|now repeat split].
Qed.

(** One call of [processAudioFrame]. *)
Lemma processAudioFrame_cases cb frame p w :
  exists p' w',
    R.processAudioFrame cb frame p w = (Ok p', w')
    /\ Proc.config p' = Proc.config p
    /\ Proc.isProcessing p' = Proc.isProcessing p
    /\ if negb (Proc.isProcessing p) then p' = p
       else if Qle_bool (chunkDuration (Proc.config p))
                 (inject_Z (now w - Proc.lastProcessTime p))
       then Proc.audioBuffer p' = []
            /\ exists c t,
                 cutFrom (Proc.config p) (Proc.audioBuffer p ++ [frame]) c
                 /\ Proc.chunkQueue p'
                    = filter (fun c => (t - timestamp c < 30000)%Z) (Proc.chunkQueue p ++ [c])
       else Proc.audioBuffer p' = Proc.audioBuffer p ++ [frame]
            /\ Proc.chunkQueue p' = Proc.chunkQueue p.
Proof.
  unfold R.processAudioFrame.
  destruct (Proc.isProcessing p) eqn:Hproc; cbn [negb].
  2:{ exists p, w. rewrite Hproc. now repeat split. }
  unfold bind at 1, Date_now, gets.
  set (p1 := Proc.set_audioBuffer (Proc.audioBuffer p ++ [frame]) p).
  change (Proc.config p1) with (Proc.config p).
  change (Proc.lastProcessTime p1) with (Proc.lastProcessTime p).
  destruct (Qle_bool _ _).
  2:{ exists p1, w. now repeat split. }
  unfold R.processAudioChunk.
  assert (Hne : (length (Proc.audioBuffer p1) =? 0)%nat = false).
  { unfold p1. cbn. rewrite length_app. simpl. apply Nat.eqb_neq. lia. }
  rewrite Hne.
  destruct (makeChunk_result p1 w) as (chunk & p2 & w2 & Hm & Hd & Hl & Ht & Hb & Hc).
  assert (Hq : Proc.chunkQueue p2 = Proc.chunkQueue p
               /\ Proc.isProcessing p2 = true).
  { unfold R.makeChunk in Hm. cbn in Hm. injection Hm as _ <- _. now split. }
  destruct Hq as [Hq Hip].
  unfold bind at 1. unfold bind at 1. rewrite Hm. cbn [fst snd].
  set (p3 := Proc.set_chunkQueue (Proc.chunkQueue p2 ++ [chunk]) p2).
  assert (Hbranch : exists p4 w4,
            (if isSpeech chunk && Num.gtb (confidence chunk) (7 # 10)
             then R.processTranscriptionChunk cb chunk;; ret p3
             else if negb (Proc.isSpeaking p3) then R.handleSilencePeriod cb p3 else ret p3) w2
            = (Ok p4, w4)
            /\ Proc.audioBuffer p4 = Proc.audioBuffer p3
            /\ Proc.chunkQueue p4 = Proc.chunkQueue p3
            /\ Proc.config p4 = Proc.config p3
            /\ Proc.isProcessing p4 = Proc.isProcessing p3).
  { destruct (isSpeech chunk && Num.gtb (confidence chunk) (7 # 10)).
    - destruct (safe_result _ w2 (processTranscriptionChunk_safe cb chunk)) as ([] & w3 & H3).
      unfold bind. rewrite H3. do 2 eexists. split; [reflexivity|now repeat split].
    - destruct (negb (Proc.isSpeaking p3)).
      + destruct (handleSilencePeriod_fields cb p3 w2) as (p4 & w4 & H4 & Ha & Hb' & Hc').
        exists p4, w4. split; [exact H4|]. repeat split; try assumption.
        unfold R.handleSilencePeriod, bind at 1, Date_now, gets in H4.
        destruct (Proc.silenceStartTime p3 =? 0)%Z; [now injection H4 as <- _|].
        destruct (2000 <? now w2 - Proc.silenceStartTime p3)%Z; [|now injection H4 as <- _].
        unfold bind in H4. destruct (R.processAccumulatedSpeech cb p3 w2) as [[[]|e] w5];
          [now injection H4 as <- _|discriminate].
      + do 2 eexists. split; [reflexivity|now repeat split]. }
  destruct Hbranch as (p4 & w4 & H4 & Ha4 & Hq4 & Hc4 & Hi4).
  rewrite (bind_ok _ _ _ _ _ H4). unfold R.cleanupOldChunks, bind, Date_now, gets.
  cbn [ret fst snd].
  do 2 eexists. split; [reflexivity|]. cbn.
  split; [rewrite Hc4; unfold p3; cbn; now rewrite Hc|].
  split; [rewrite Hi4; unfold p3; cbn; now rewrite Hip|].
  split; [rewrite Ha4; unfold p3; cbn; exact Hb|].
  exists chunk, (now w4). split.
  - unfold cutFrom. split; [exact Hl|]. rewrite Hd. reflexivity.
  - rewrite Hq4. unfold p3. cbn. now rewrite Hq.
Qed.

(** The fields after one call, with the processor's result read off. *)
Lemma afterFrame_cases cb frame p w :
  let p' := afterFrame cb p (w, frame) in
  Proc.config p' = Proc.config p
  /\ Proc.isProcessing p' = Proc.isProcessing p
  /\ if negb (Proc.isProcessing p) then p' = p
     else if Qle_bool (chunkDuration (Proc.config p))
               (inject_Z (now w - Proc.lastProcessTime p))
     then Proc.audioBuffer p' = []
          /\ exists c t,
               cutFrom (Proc.config p) (Proc.audioBuffer p ++ [frame]) c
               /\ Proc.chunkQueue p'
                  = filter (fun c => (t - timestamp c < 30000)%Z) (Proc.chunkQueue p ++ [c])
     else Proc.audioBuffer p' = Proc.audioBuffer p ++ [frame]
          /\ Proc.chunkQueue p' = Proc.chunkQueue p.
Proof.
  intros p'. unfold p', afterFrame. cbn [fst snd].
  destruct (processAudioFrame_cases cb frame p w) as (p1 & w1 & H1 & Hrest).
  rewrite H1. exact Hrest.
Qed.

Lemma concat_uniform_length {A} n (l : list (list A)) :
  Forall (fun x => length x = n) l -> length (concat l) = (length l * n)%nat.
Proof.
  induction 1 as [|x l Hx _ IH]; [reflexivity|].
  simpl. rewrite length_app, IH, Hx. lia.
Qed.

(** A chunk cut from whole frames is a chunk of whole frames. *)
Lemma cutFrom_wholeFrames cfg n frames frame c :
  Forall (fun x => length x = n) frames -> length frame = n ->
  cutFrom cfg (frames ++ [frame]) c -> wholeFrames cfg n c.
Proof.
  intros Hf Hn [Hl Hd]. exists (S (length frames)).
  assert (Hlen : length (concat (frames ++ [frame])) = (S (length frames) * n)%nat).
  { rewrite (concat_uniform_length n).
    - rewrite length_app. simpl. f_equal. lia.
    - apply Forall_app. split; [exact Hf|]. now constructor. }
  split; [lia|]. split; [now rewrite Hl|]. now rewrite Hd, Hlen.
Qed.

(** What a run keeps: the configuration, whole frames in the buffer, chunks
    of whole frames in the queue. *)
Lemma processFrames_invariant cb n calls : forall p,
  Forall (fun call => length (snd call) = n) calls ->
  Forall (fun frame => length frame = n) (Proc.audioBuffer p) ->
  Forall (wholeFrames (Proc.config p) n) (Proc.chunkQueue p) ->
  Proc.config (processFrames cb calls p) = Proc.config p
  /\ Forall (fun frame => length frame = n) (Proc.audioBuffer (processFrames cb calls p))
  /\ Forall (wholeFrames (Proc.config p) n) (Proc.chunkQueue (processFrames cb calls p)).
Proof.
  induction calls as [|[w frame] calls IH]; intros p Hcalls Hbuf Hq; [now repeat split|].
  apply Forall_cons in Hcalls. destruct Hcalls as [Hframe Hcalls]. cbn [snd] in Hframe.
  unfold processFrames in *. cbn [fold_left].
  pose proof (afterFrame_cases cb frame p w) as (Hc & _ & Hcase). cbv zeta in Hc, Hcase.
  set (p1 := afterFrame cb p (w, frame)) in *.
  assert (Hinv : Forall (fun frame => length frame = n) (Proc.audioBuffer p1)
                 /\ Forall (wholeFrames (Proc.config p) n) (Proc.chunkQueue p1)).
  { destruct (negb (Proc.isProcessing p)); [now rewrite Hcase|].
    destruct (Qle_bool _ _).
    - destruct Hcase as (Hb & c & t & Hcut & Hqueue). rewrite Hb, Hqueue.
      split; [constructor|]. apply Forall_forall. intros x Hx.
      apply list_elem_of_filter in Hx. destruct Hx as [_ Hx].
      apply elem_of_app in Hx. destruct Hx as [Hx|Hx].
      + rewrite Forall_forall in Hq. now apply Hq.
      + apply list_elem_of_singleton in Hx. subst x.
        exact (cutFrom_wholeFrames _ n _ frame c Hbuf Hframe Hcut).
    - destruct Hcase as [Hb Hqueue]. rewrite Hb, Hqueue. split; [|exact Hq].
      apply Forall_app. split; [exact Hbuf|]. now constructor. }
  destruct Hinv as [Hb1 Hq1]. rewrite <- Hc in Hq1.
  destruct (IH p1 Hcalls Hb1 Hq1) as (Hc' & Hb' & Hq').
  rewrite Hc in Hc', Hq'. now repeat split.
Qed.

(** A chunk of whole frames lasts at least one frame. *)
Lemma wholeFrames_duration cfg n c :
  (0 < sampleRate cfg)%Q -> wholeFrames cfg n c ->
  (inject_Z (Z.of_nat n) / sampleRate cfg * 1000 <= duration c)%Q.
Proof.
  intros Hr (k & Hk & _ & Hd). rewrite Hd.
  apply Qmult_le_compat_r; [|lra].
  unfold Qdiv. apply Qmult_le_compat_r.
  - rewrite <- Zle_Qle. nia.
  - apply Qlt_le_weak, Qinv_lt_0_compat, Hr.
Qed.

End ChunkerFacts.

Module ChunkClaims.
Import Platform W Monad Browser Logic Observe EventLoop Policy Scenario Frames SendFacts.
Import Num NumFacts Chunk ChunkFacts Chunker ChunkerFacts.
Local Open Scope monad_scope.





End ChunkClaims.

(** ** Initialisation of the manager *)

Module InitFacts.
Import Platform W Monad Browser Logic Observe EventLoop Policy Scenario Frames
  ReconnectFacts StopFacts.
Local Open Scope monad_scope.
Module R := RealtimeTranscriptionProcessor.

(** *** Reading a computation that returned *)

Lemma bind_returns {A B} (m : M A) (k : A -> M B) w b :
  fst (bind m k w) = Ok b ->
  exists a w1, m w = (Ok a, w1) /\ fst (k a w1) = Ok b.
Proof.
  unfold bind. destruct (m w) as [[a|e] w']; simpl; [|discriminate].
  intros H. now exists a, w'.
Qed.

Lemma bind_state {A B} (m : M A) (k : A -> M B) w a w1 :
  m w = (Ok a, w1) -> bind m k w = k a w1.
Proof. intros H. unfold bind. now rewrite H. Qed.

Lemma ret_returns {A} (a b : A) w : fst (ret a w) = Ok b -> a = b.
Proof. simpl. congruence. Qed.

Lemma preserved_run {A B} (f : World -> B) (m : M A) w r w1 :
  preserves f m -> m w = (r, w1) -> f w1 = f w.
Proof. intros P E. specialize (P w). now rewrite E in P. Qed.

Lemma ensured_run {A B} (f : World -> B) v (m : M A) w r w1 :
  ensures f v m -> m w = (r, w1) -> f w1 = v.
Proof. intros P E. specialize (P w). now rewrite E in P. Qed.

(** The head of a sequence that returned gave a value and a state. *)
Tactic Notation "step" hyp(H) ident(a) ident(w1) ident(Hm) :=
  apply bind_returns in H; destruct H as [a [w1 [Hm H]]]; cbv beta in H.

(** A computation that ends in [ret false] on every path did not return
    true. *)
Ltac returned H :=
  cbn [negb] in H; cbv zeta beta iota in H;
  lazymatch type of H with
  | fst (bind _ _ _) = Ok _ =>
      let a := fresh "a" in
      let w1 := fresh "w" in
      let Ha := fresh "Ha" in
      step H a w1 Ha; returned H
  | fst ((if negb ?b then _ else _) _) = Ok _ => destruct b eqn:?; cbn [negb] in H; returned H
  | fst ((if ?b then _ else _) _) = Ok _ => destruct b eqn:?; returned H
  | fst (match ?x with _ => _ end _) = Ok _ => destruct x eqn:?; returned H
  | fst (ret _ _) = Ok _ => apply ret_returns in H; try discriminate H
  | _ => idtac
  end.

(** *** Success of every stage *)

Lemma processor_start_true po stream p w r :
  fst (R.start po stream p w) = Ok r -> fst r = true ->
  R.contextCreated po = true /\ R.workletInitialized po = true
  /\ R.processingStarted po = true.
Proof.
  intros H Hr. unfold R.start in H. cbv zeta in H.
  step H r0 w1 Hbody.
  destruct (fst r0) eqn:Hr0.
  2:{ returned H. subst. discriminate. }
  clear H. apply (f_equal fst) in Hbody. simpl in Hbody.
  returned Hbody; subst; try discriminate. auto.
Qed.

Lemma connect_true cb so w :
  fst (S.connectWebSocket cb so w) = Ok (Some true) ->
  exists after, S.connect so = S.Opened after.
Proof.
  intros H. unfold S.connectWebSocket in H. destruct (S.connect so) as [after| | |t1 t2].
  - now exists after.
  - returned H.
  - returned H.
  - returned H.
    match type of H with (if ?b then _ else _) = _ => destruct b; discriminate end.
Qed.

Lemma initializeProcessor_true so stream w :
  fst (S.initializeProcessor so stream w) = Ok true ->
  R.contextCreated (S.processor so) = true /\ R.workletInitialized (S.processor so) = true
  /\ R.processingStarted (S.processor so) = true.
Proof.
  intros H. unfold S.initializeProcessor in H.
  step H cfg w1 H1. step H u w2 H2. step H r w3 H3. step H u' w4 H4.
  apply ret_returns in H.
  eapply (processor_start_true _ _ _ _ r); [rewrite H3; reflexivity|exact H].
Qed.

Lemma applyHD_keeps_config so stream : preserves configOf (S.applyHDProcessing so stream).
Proof. unfold configOf. frame. Qed.

Lemma connect_keeps_config cb so :
  (forall b, preserves configOf (cb b)) -> preserves configOf (S.connectWebSocket cb so).
Proof.
  intros Hcb. unfold configOf in *.
  assert (Hopen : forall po id, preserves (fun w => Svc.config (svc w)) (S.onopen cb po id)).
  { intros po id. unfold S.onopen.
    repeat (apply preserves_bind; [try solve [frame]|intros ?]); solve [frame]. }
  assert (Hclose : preserves (fun w => Svc.config (svc w)) (S.onclose cb)).
  { unfold S.onclose.
    repeat (apply preserves_bind; [try solve [frame]|intros ?]); solve [frame]. }
  assert (Hfirst : forall id deadline t1 t2,
            preserves (fun w => Svc.config (svc w)) (S.closedFirst cb so id deadline t1 t2)).
  { intros id deadline t1 t2. unfold S.closedFirst.
    repeat (apply preserves_bind; [try solve [frame]|intros ?]); try solve [frame]. }
  unfold S.connectWebSocket. destruct (S.connect so); [|frame|frame|].
  - apply preserves_bind; [frame|intros r]. destruct r as [[id timer]|]; [|frame].
    repeat (apply preserves_bind; [try solve [frame]|intros ?]); try solve [frame].
    all: apply Hopen.
  - apply preserves_bind; [frame|intros r]. destruct r as [[id timer]|]; [|frame].
    repeat (apply preserves_bind; [try solve [frame]|intros ?]); try solve [frame].
Qed.

(** [start] of the service returns true only if the socket opened and,
    when the processor is enabled, the processor started. *)
Lemma service_start_true cb so stream w :
  (forall b, preserves configOf (cb b)) ->
  fst (S.start cb so stream w) = Ok (Some true) ->
  (exists after, S.connect so = S.Opened after)
  /\ (Svc.enableRealtime (configOf w) = true ->
      R.contextCreated (S.processor so) = true /\ R.workletInitialized (S.processor so) = true
      /\ R.processingStarted (S.processor so) = true).
Proof.
  intros Hcb H. unfold S.start in H. cbv zeta in H.
  step H ok w1 Hbody.
  destruct ok as [[|]|]; [clear H|returned H|returned H].
  apply (f_equal fst) in Hbody. simpl in Hbody.
  step Hbody u wa Ha. step Hbody isValid wb Hb.
  destruct isValid; [cbn [negb] in Hbody|returned Hbody].
  step Hbody u1 wc Hc. step Hbody enableHD wd Hd. step Hbody processed we He.
  step Hbody settled wf Hf.
  destruct settled as [connected|]; [|returned Hbody].
  destruct connected; [cbn [negb] in Hbody|returned Hbody].
  split; [apply (connect_true cb so we); now rewrite Hf|].
  step Hbody enableRealtime wg Hg. step Hbody procStarted wh Hh.
  destruct procStarted; [cbn [negb] in Hbody|returned Hbody].
  intros Hen.
  assert (Hcfg : configOf wf = configOf w).
  { rewrite (preserved_run configOf _ we _ wf (connect_keeps_config cb so Hcb) Hf).
    assert (Hwe : configOf we = configOf wd).
    { destruct enableHD.
      - apply (preserved_run configOf _ wd _ we (applyHD_keeps_config so stream) He).
      - simpl in He. now injection He as _ <-. }
    rewrite Hwe.
    assert (Hwd : configOf wd = configOf wc)
      by (refine (preserved_run configOf _ _ _ _ _ Hd); unfold configOf; frame).
    assert (Hwc : configOf wc = configOf wb)
      by (refine (preserved_run configOf _ _ _ _ _ Hc); unfold configOf; frame).
    assert (Hwb : configOf wb = configOf wa)
      by (refine (preserved_run configOf _ _ _ _ _ Hb); unfold configOf; frame).
    assert (Hwa : configOf wa = configOf w)
      by (refine (preserved_run configOf _ _ _ _ _ Ha); unfold configOf; frame).
    congruence. }
  assert (Hrt : enableRealtime = true).
  { unfold S.this, gets in Hg. injection Hg as <- _. fold (configOf wf).
    now rewrite Hcfg. }
  subst enableRealtime.
  apply (initializeProcessor_true so processed wg). now rewrite Hh.
Qed.


(** [start] of the service never resumes only on the outcome [ClosedFirst]. *)
Lemma service_start_unsettled cb so stream w :
  fst (S.start cb so stream w) = Ok None ->
  exists t1 t2, S.connect so = S.ClosedFirst t1 t2.
Proof.
  intros H. unfold S.start in H. cbv zeta in H.
  step H ok w1 Hbody.
  destruct ok as [[|]|]; [returned H|returned H|clear H].
  apply (f_equal fst) in Hbody. simpl in Hbody.
  step Hbody u wa Ha. step Hbody isValid wb Hb.
  destruct isValid; [cbn [negb] in Hbody|returned Hbody].
  step Hbody u1 wc Hc. step Hbody enableHD wd Hd. step Hbody processed we He.
  step Hbody settled wf Hf.
  destruct settled as [connected|]; [returned Hbody|].
  apply (f_equal fst) in Hf. simpl in Hf. unfold S.connectWebSocket in Hf.
  destruct (S.connect so) as [after| | |t1 t2]; [returned Hf|returned Hf|returned Hf|].
  now exists t1, t2.
Qed.


(** *** [stop()] of the manager *)

Lemma manager_stop_safe : safe E.stop.
Proof. frame. Qed.

Lemma manager_stop_service : ensures (fun w => Mgr.transcriptionService (mgr w)) false E.stop.
Proof. ensure. Qed.

Lemma manager_stop_processor : ensures (fun w => Mgr.audioProcessor (mgr w)) None E.stop.
Proof. ensure. Qed.

Lemma manager_stop_hd : ensures (fun w => Mgr.hdProcessor (mgr w)) None E.stop.
Proof. ensure. Qed.

Lemma manager_stop_analyzer : ensures (fun w => Mgr.qualityAnalyzer (mgr w)) None E.stop.
Proof. ensure. Qed.

Lemma manager_stop_validator : ensures (fun w => Mgr.accuracyValidator (mgr w)) None E.stop.
Proof. ensure. Qed.

Lemma manager_stop_monitor : ensures (fun w => Mgr.streamMonitor (mgr w)) None E.stop.
Proof. ensure. Qed.

Lemma manager_stop_stream : ensures (fun w => Mgr.mediaStream (mgr w)) None E.stop.
Proof. ensure. Qed.

Lemma manager_stop_inactive : ensures (fun w => Mgr.isActive (mgr w)) false E.stop.
Proof. ensure. Qed.

Lemma manager_stop_cleared w : cleared (mgr (exec E.stop w)).
Proof.
  unfold cleared, exec.
  rewrite (manager_stop_service w), (manager_stop_processor w), (manager_stop_hd w),
    (manager_stop_analyzer w), (manager_stop_validator w), (manager_stop_monitor w),
    (manager_stop_stream w), (manager_stop_inactive w).
  repeat split.
Qed.

(** When the manager holds a service, [stop()] stops it. *)
Lemma manager_stop_stops_service w :
  Mgr.transcriptionService (mgr w) = true -> stopped (svc (exec E.stop w)).
Proof.
  intros Hts. unfold E.stop. rewrite exec_seq by frame. rewrite exec_seq by frame.
  unfold E.this at 1. rewrite exec_read.
  set (w1 := exec (E.assign (Mgr.set_isActive false))
               (exec (console Log "Stopping enhanced transcription manager...") w)).
  rewrite exec_seq by (destruct (Mgr.streamMonitor (mgr w1)); frame).
  set (w2 := exec match Mgr.streamMonitor (mgr w1) with
                  | Some id => clearInterval id ;; E.assign (Mgr.set_streamMonitor None)
                  | None => ret tt
                  end w1).
  assert (H2 : Mgr.transcriptionService (mgr w2) = true).
  { unfold w2. destruct (Mgr.streamMonitor (mgr w1)); exact Hts. }
  unfold E.this at 1. rewrite exec_read, H2.
  unfold exec at 1. rewrite (preserves_after svc) by (intros; frame).
  rewrite (preserves_after svc) by (intros; frame).
  apply (service_stop_stopped w2).
Qed.

(** *** [initialize] *)

Lemma initialize_safe o src : safe (E.initialize o src).
Proof. frame. Qed.

Lemma initialize_no_error o src :
  preserves (fun w => userErrors (trace w)) (E.initialize o src).
Proof. frame. Qed.

Lemma connection_callback_keeps_config b :
  preserves configOf (E.handleConnectionStateChange b).
Proof. unfold configOf. frame. Qed.

(** The stream that the first stage provides. *)
Lemma source_stage o src wa source wb :
  match src with
  | Some s => ret (Some s)
  | None => E.getAudioStream (E.acquired o)
  end wa = (Ok source, wb) ->
  (source = None -> src = None /\ E.acquired o = E.NoStream)
  /\ (source <> None -> src = None -> E.acquired o <> E.NoStream)
  /\ Mgr.options (mgr wb) = Mgr.options (mgr wa).
Proof.
  intros H. destruct src as [s|].
  - simpl in H. injection H as <- <-.
    split; [discriminate|]. split; [discriminate|]. reflexivity.
  - destruct (E.acquired o) eqn:Ha; cbn in H; injection H as <- <-; cbn;
      (split; [|split]); try reflexivity; try discriminate; try tauto;
      intros; try split; try reflexivity; try discriminate.
Qed.

(** When [initialize] returns false the manager is cleared and, if a stream
    was available so that the service was constructed, the service is
    stopped, at the time of the return. *)
Lemma initialize_false o src w :
  fst (E.initialize o src w) = Ok (Some false) ->
  cleared (mgr (exec (E.initialize o src) w))
  /\ ((src <> None \/ E.acquired o <> E.NoStream) ->
      stopped (svc (exec (E.initialize o src) w))).
Proof.
  intros H. unfold exec. unfold E.initialize in *. cbv zeta in *.
  step H ok w1 Hbody.
  rewrite (bind_state _ _ w ok w1 Hbody).
  destruct ok as [[|]|]; [returned H| |returned H]. clear H.
  fold (exec (console Error "Failed to initialize transcription manager:" ;;
              E.cleanup ;; ret (Some false)) w1).
  rewrite exec_seq by frame. rewrite exec_seq by (unfold E.cleanup; frame).
  unfold E.cleanup.
  set (w2 := exec (console Error "Failed to initialize transcription manager:") w1).
  change (exec (ret (Some false)) (exec E.stop w2)) with (exec E.stop w2).
  split; [apply manager_stop_cleared|].
  intros Havail. apply manager_stop_stops_service.
  change (Mgr.transcriptionService (mgr w2)) with (Mgr.transcriptionService (mgr w1)).
  (* the service is constructed as soon as a stream is known *)
  pose proof Hbody as Hb0.
  apply (f_equal fst) in Hbody. simpl in Hbody.
  step Hbody u wa Ha. step Hbody source wb Hb.
  destruct (source_stage o src wa source wb Hb) as [Hnone _].
  destruct source as [audioSource|].
  2:{ destruct (Hnone eq_refl) as [Hs Hq]. destruct Havail; congruence. }
  rewrite (bind_state _ _ w u wa Ha) in Hb0.
  rewrite (bind_state _ _ wa (Some audioSource) wb Hb) in Hb0.
  match type of Hb0 with
  | ?m wb = _ =>
      refine (ensured_run (fun w => Mgr.transcriptionService (mgr w)) true m wb _ w1 _ Hb0)
  end.
  ensure.
Qed.

End InitFacts.

Module InitClaims.
Import Platform W Monad Browser Logic Observe EventLoop Policy Scenario InitFacts.
Local Open Scope monad_scope.

(** C3 fails on the code.  [initialize] never invokes [onError], whatever
    happens.  When it returns false, every reference of the manager is
    cleared and the service, if it was constructed, is stopped at that time;
    yet the service does not stay stopped.  When the socket has opened and
    the processor then fails to start, the socket that [stop()] closed still
    carries its [onclose] handler and the timeout of the connection is still
    pending: the close event schedules a reconnection, the reconnection
    creates a socket, and when that socket opens the service is connected
    again, three seconds after [initialize] returned false.  When the socket
    closes before it opens and the socket of the reconnection opens before
    the timeout, [initialize] never returns: the service is connected, the
    manager holds it and is not active, and nothing is reported. *)
Theorem failed_initialize_leaves_service_running :
  (forall o src w,
     userErrors (trace (exec (E.initialize o src) w)) = userErrors (trace w))
  /\ (forall o src w,
        fst (E.initialize o src w) = Ok (Some false) ->
        cleared (mgr (exec (E.initialize o src) w))
        /\ ((src <> None \/ E.acquired o <> E.NoStream) ->
            stopped (svc (exec (E.initialize o src) w))))
  /\ (let w1 := exec (E.initialize processorFails None) world0 in
      let w2 := run w1 [SocketClose 0; FireTimer 1 outcomes; SocketOpen 1 outcomes] in
      fst (E.initialize processorFails None world0) = Ok (Some false)
      /\ cleared (mgr w1) /\ stopped (svc w1)
      /\ (readyState <$> sockets w1 !! 0%nat) = Some CLOSING
      /\ (callback <$> timers w1 !! 0%nat) = Some (ConnectTimeout 0)
      /\ Svc.isConnected (svc w2) = true
      /\ Svc.websocket (svc w2) = Some 1%nat
      /\ (readyState <$> sockets w2 !! 1%nat) = Some OPEN
      /\ (now w2 - now w1 = 3000)%Z
      /\ userErrors (trace w2) = [])
  /\ (let w3 := exec (E.initialize closedFirst None) world0 in
      fst (E.initialize closedFirst None world0) = Ok None
      /\ Svc.isConnected (svc w3) = true
      /\ (readyState <$> sockets w3 !! 1%nat) = Some OPEN
      /\ Mgr.transcriptionService (mgr w3) = true
      /\ Mgr.isActive (mgr w3) = false
      /\ userErrors (trace w3) = []).
Proof.
  split; [intros o src w; apply (initialize_no_error o src w)|].
  split; [intros o src w; apply (initialize_false o src w)|].
  split.
  - vm_compute. repeat split; reflexivity.
  - vm_compute. repeat split; reflexivity.
Qed.

End InitClaims.

(** ** Integers between rationals *)

Module RoundingFacts.
Local Open Scope Q_scope.

Lemma Z_le_of_Q_lt_succ (a b : Z) : inject_Z a < inject_Z b + 1 -> (a <= b)%Z.
Proof.
  intros H. apply Z.lt_succ_r. rewrite Zlt_Qlt.
  replace (Z.succ b) with (b + 1)%Z by lia. rewrite inject_Z_plus.
  change (inject_Z 1) with 1. exact H.
Qed.

Lemma Z_le_of_Q_succ_lt (a b : Z) : inject_Z a - 1 < inject_Z b -> (a <= b)%Z.
Proof.
  intros H. apply Z.lt_succ_r. rewrite Zlt_Qlt.
  replace (Z.succ b) with (b + 1)%Z by lia. rewrite inject_Z_plus.
  change (inject_Z 1) with 1. lra.
Qed.

End RoundingFacts.

(** ** The audio worklet *)

Module AudioProcessorFacts.
Import AudioProcessor.
Local Open Scope nat_scope.

Lemma new_wellFormed : wellFormed new.
Proof.
  unfold wellFormed, new. cbn [bufferSize sampleBuffer bufferIndex].
  rewrite repeat_length. lia.
Qed.

Lemma typedArraySet_fits target source offset :
  offset + length source <= length target ->
  typedArraySet target source offset
  = Some (take offset target ++ source ++ drop (offset + length source) target).
Proof.
  intros H. unfold typedArraySet.
  destruct (Nat.leb_spec (offset + length source) (length target)); [reflexivity|lia].
Qed.

Lemma take_drop_taken {A} n (l : list A) : take n l ++ drop (length (take n l)) l = l.
Proof.
  rewrite length_take. destruct (Nat.le_ge_cases n (length l)) as [H|H].
  - rewrite Nat.min_l by exact H. apply take_drop.
  - rewrite Nat.min_r by exact H. rewrite take_ge, drop_ge by lia. apply app_nil_r.
Qed.

Lemma accumulate_spec fuel : forall mono offset st posted0,
  wellFormed st ->
  length mono - offset < fuel ->
  exists st' frames,
    accumulate fuel mono offset st posted0 = (Returned, st', posted0 ++ frames)
    /\ wellFormed st'
    /\ bufferSize st' = bufferSize st
    /\ Forall (fun f => length f = bufferSize st) frames
    /\ concat frames ++ pending st' = pending st ++ drop offset mono.
Proof.
  induction fuel as [|fuel IH]; intros mono offset st posted0 Hwf Hfuel; [lia|].
  destruct Hwf as (Hpos & Hlen & Hidx).
  simpl. destruct (Nat.leb_spec (length mono) offset) as [Hdone|Hmore].
  - exists st, []. rewrite app_nil_r. repeat split; auto.
    simpl. rewrite drop_ge by lia. now rewrite app_nil_r.
  - set (remaining := bufferSize st - bufferIndex st).
    set (chunk := take remaining (drop offset mono)).
    assert (Hchunk : length chunk = Nat.min remaining (length mono - offset)).
    { unfold chunk. now rewrite length_take, length_drop. }
    assert (Hc1 : 0 < length chunk) by (unfold remaining in *; lia).
    rewrite typedArraySet_fits by (unfold remaining in *; lia).
    cbn [bufferSize bufferIndex sampleBuffer].
    set (buffer := take (bufferIndex st) (sampleBuffer st) ++ chunk
                   ++ drop (bufferIndex st + length chunk) (sampleBuffer st)).
    assert (Hbl : length buffer = bufferSize st).
    { unfold buffer. rewrite !length_app, length_take, length_drop.
      unfold remaining in *. lia. }
    assert (Htake : take (bufferIndex st + length chunk) buffer = pending st ++ chunk).
    { unfold buffer, pending. rewrite app_assoc.
      rewrite take_app_length'; [reflexivity|].
      rewrite length_app, length_take. lia. }
    assert (Hdrop : drop (offset + length chunk) mono = drop (length chunk) (drop offset mono)).
    { rewrite drop_drop. reflexivity. }
    destruct (Nat.leb_spec (bufferSize st) (bufferIndex st + length chunk)) as [Hfull|Hpart].
    + assert (Heq : bufferIndex st + length chunk = bufferSize st)
        by (unfold remaining in *; lia).
      destruct (IH mono (offset + length chunk)
                  {| bufferSize := bufferSize st; sampleBuffer := buffer; bufferIndex := 0 |}
                  (posted0 ++ [buffer]))
        as (st' & frames & Hacc & Hwf' & Hsz & Hall & Hcat).
      { unfold wellFormed. simpl. auto. }
      { lia. }
      cbn [bufferSize bufferIndex sampleBuffer] in Hsz, Hall, Hcat.
      unfold pending at 2 in Hcat. cbn [bufferIndex sampleBuffer] in Hcat.
      rewrite take_0 in Hcat. simpl in Hcat.
      assert (Hb : buffer = pending st ++ chunk).
      { rewrite <- Htake, Heq, <- Hbl. now rewrite take_ge by lia. }
      exists st', (buffer :: frames).
      split; [rewrite Hacc; now rewrite <- app_assoc|].
      split; [exact Hwf'|]. split; [exact Hsz|].
      split; [constructor; [exact Hbl|exact Hall]|].
      simpl. rewrite <- app_assoc, Hcat, Hb, <- app_assoc. f_equal.
      rewrite Hdrop. unfold chunk. apply take_drop_taken.
    + destruct (IH mono (offset + length chunk)
                  {| bufferSize := bufferSize st; sampleBuffer := buffer;
                     bufferIndex := bufferIndex st + length chunk |}
                  posted0)
        as (st' & frames & Hacc & Hwf' & Hsz & Hall & Hcat).
      { unfold wellFormed. simpl. auto. }
      { lia. }
      cbn [bufferSize bufferIndex sampleBuffer] in Hsz, Hall, Hcat.
      unfold pending at 2 in Hcat. cbn [bufferIndex sampleBuffer] in Hcat.
      exists st', frames.
      split; [exact Hacc|]. split; [exact Hwf'|]. split; [exact Hsz|].
      split; [exact Hall|].
      rewrite Hcat, Htake, <- app_assoc. f_equal.
      rewrite Hdrop. unfold chunk. apply take_drop_taken.
Qed.

Lemma process_spec inputs st :
  wellFormed st ->
  let r := process inputs [] st in
  completion r = Returned
  /\ wellFormed (after r)
  /\ bufferSize (after r) = bufferSize st
  /\ Forall (fun f => length f = bufferSize st) (posted r)
  /\ concat (posted r) ++ pending (after r) = pending st ++ heard inputs.
Proof.
  intros Hwf. unfold process, heard.
  destruct inputs as [|[|first rest] others]; cbn [completion after posted];
    try (split; [reflexivity|]; split; [exact Hwf|]; split; [reflexivity|];
         split; [constructor|]; simpl; now rewrite app_nil_r).
  set (mono := monoSamples (first :: rest)).
  destruct (accumulate_spec (S (length mono)) mono 0 st [] Hwf ltac:(lia))
    as (st' & frames & Hacc & Hwf' & Hsz & Hall & Hcat).
  cbn [passThrough completion after posted].
  rewrite Hacc. simpl. repeat split; auto; apply Hwf'.
Qed.

Lemma processAll_spec calls : forall st posted0,
  wellFormed st ->
  let r := fold_left processNext calls (st, posted0) in
  exists frames,
    snd r = posted0 ++ frames
    /\ wellFormed (fst r)
    /\ bufferSize (fst r) = bufferSize st
    /\ Forall (fun f => length f = bufferSize st) frames
    /\ concat frames ++ pending (fst r) = pending st ++ concat (map heard calls).
Proof.
  induction calls as [|inputs calls IH]; intros st posted0 Hwf.
  - exists []. simpl. rewrite !app_nil_r. repeat split; auto; apply Hwf.
  - destruct (process_spec inputs st Hwf) as (_ & Hwf1 & Hsz1 & Hall1 & Hcat1).
    change (fold_left processNext (inputs :: calls) (st, posted0))
      with (fold_left processNext calls
              (after (process inputs [] st), posted0 ++ posted (process inputs [] st))).
    destruct (IH (after (process inputs [] st)) (posted0 ++ posted (process inputs [] st)) Hwf1)
      as (frames & Hsnd & Hwf2 & Hsz2 & Hall2 & Hcat2).
    exists (posted (process inputs [] st) ++ frames).
    split; [now rewrite Hsnd, app_assoc|].
    split; [exact Hwf2|]. split; [congruence|].
    split.
    + apply Forall_app. split; [exact Hall1|]. now rewrite <- Hsz1.
    + rewrite concat_app, <- app_assoc, Hcat2, app_assoc, Hcat1, <- app_assoc.
      reflexivity.
Qed.

Lemma concat_length_uniform {A} n (frames : list (list A)) :
  Forall (fun f => length f = n) frames -> length (concat frames) = length frames * n.
Proof.
  induction 1 as [|f frames Hf _ IH]; [reflexivity|].
  simpl. rewrite length_app, IH, Hf. lia.
Qed.

End AudioProcessorFacts.

Module AudioProcessorProps.
Import AudioProcessor AudioProcessorFacts.
Local Open Scope nat_scope.

(** The worklet re-blocks the audio without losing, repeating or reordering
    a sample.  Over any run of [process] calls on a node without outputs,
    started with a buffer of [bufferSize] samples and an index below it, no
    call throws or loops, every buffer posted has exactly [bufferSize]
    samples, and the buffers posted followed by the samples pending in the
    buffer are the samples that were pending before followed by the
    (down-mixed) samples of the calls, in order. *)
Theorem worklet_reblocks_the_stream calls st :
  wellFormed st ->
  let r := processAll calls st in
  wellFormed (fst r)
  /\ Forall (fun f => length f = bufferSize st) (snd r)
  /\ concat (snd r) ++ pending (fst r) = pending st ++ concat (map heard calls).
Proof.
  intros Hwf r.
  destruct (processAll_spec calls st [] Hwf) as (frames & Hsnd & Hwf' & _ & Hall & Hcat).
  fold (processAll calls st) in *. fold r in Hsnd, Hwf', Hcat.
  simpl in Hsnd. rewrite Hsnd. auto.
Qed.

Lemma worklet_reblocks_the_stream_witness :
  let r := processAll [[[[1%Q; 2%Q]]]; [[[3%Q]]]] new in
  wellFormed (fst r)
  /\ Forall (fun f => length f = 4096) (snd r)
  /\ concat (snd r) ++ pending (fst r) = pending new ++ [1%Q; 2%Q; 3%Q].
Proof.
  apply (worklet_reblocks_the_stream [[[[1%Q; 2%Q]]]; [[[3%Q]]]] new).
  exact new_wellFormed.
Defined.

(** From the state of the constructor, one buffer of 4096 samples is posted
    for every 4096 samples heard, and the rest waits in the buffer: after any
    run of calls the number of buffers posted is the number of samples heard
    divided by 4096 and the index is the remainder. *)
Theorem worklet_posts_one_buffer_per_4096_samples calls :
  let r := processAll calls new in
  let heardSoFar := length (concat (map heard calls)) in
  length (snd r) = heardSoFar / 4096
  /\ bufferIndex (fst r) = heardSoFar mod 4096.
Proof.
  intros r heardSoFar.
  destruct (processAll_spec calls new [] new_wellFormed)
    as (frames & Hsnd & Hwf & Hsz & Hall & Hcat).
  fold (processAll calls new) in *. fold r in Hsnd, Hwf, Hsz, Hcat.
  simpl in Hsnd. rewrite Hsnd.
  change (bufferSize new) with 4096 in *.
  apply (f_equal (@length _)) in Hcat.
  rewrite !length_app, (concat_length_uniform 4096 frames Hall) in Hcat.
  change (pending new) with (@nil Q) in Hcat. simpl length in Hcat.
  fold heardSoFar in Hcat.
  destruct Hwf as (_ & Hlen & Hidx). rewrite Hsz in Hlen, Hidx.
  unfold pending in Hcat. rewrite length_take in Hcat.
  rewrite Nat.min_l in Hcat by lia.
  split.
  - apply (Nat.div_unique heardSoFar 4096 (length frames) (bufferIndex (fst r)));
      [exact Hidx|lia].
  - apply (Nat.mod_unique heardSoFar 4096 (length frames) (bufferIndex (fst r)));
      [exact Hidx|lia].
Qed.

End AudioProcessorProps.

(** *** The down-mix *)

Module DownmixFacts.
Import AudioProcessor.
Local Open Scope Q_scope.

Lemma fold_sum_bounds i lo hi (channels : list (list Q)) : forall acc,
  Forall (fun channel => lo <= sampleAt channel i <= hi) channels ->
  acc + inject_Z (Z.of_nat (length channels)) * lo
  <= fold_left (fun sum channel => sum + sampleAt channel i) channels acc
  <= acc + inject_Z (Z.of_nat (length channels)) * hi.
Proof.
  induction channels as [|c channels IH]; intros acc Hall.
  - cbn [length fold_left]. change (inject_Z (Z.of_nat 0)) with 0. lra.
  - inversion Hall as [|? ? Hc Hrest]. subst.
    specialize (IH (acc + sampleAt c i) Hrest).
    cbn [fold_left length]. rewrite Nat2Z.inj_succ. unfold Z.succ.
    rewrite inject_Z_plus. change (inject_Z 1) with 1. lra.
Qed.

Lemma mean_bounds lo hi sum (n : nat) :
  (0 < n)%nat ->
  inject_Z (Z.of_nat n) * lo <= sum <= inject_Z (Z.of_nat n) * hi ->
  lo <= sum / inject_Z (Z.of_nat n) <= hi.
Proof.
  intros Hn [H1 H2].
  assert (Hpos : 0 < inject_Z (Z.of_nat n)).
  { change 0 with (inject_Z 0). rewrite <- Zlt_Qlt. lia. }
  split.
  - apply Qle_shift_div_l; [exact Hpos|]. rewrite Qmult_comm. exact H1.
  - apply Qle_shift_div_r; [exact Hpos|]. rewrite Qmult_comm. exact H2.
Qed.

Lemma sampleAt_in_range lo hi channel i :
  Forall (fun x => lo <= x <= hi) channel -> (i < length channel)%nat ->
  lo <= sampleAt channel i <= hi.
Proof.
  intros Hall Hi. unfold sampleAt.
  destruct (channel !! i) as [x|] eqn:E.
  - simpl. rewrite List.Forall_forall in Hall. apply Hall.
    apply list_elem_of_In. eapply list_elem_of_lookup_2. exact E.
  - apply lookup_ge_None in E. lia.
Qed.

End DownmixFacts.

Module DownmixProps.
Import AudioProcessor DownmixFacts.
Local Open Scope Q_scope.

(** The down-mix keeps the number of samples and never leaves the range of
    its channels: when every sample of every channel lies between [lo] and
    [hi], so does every sample handed to the buffer. *)
Theorem downmix_stays_in_range first rest lo hi :
  Forall (fun channel => length channel = length first) rest ->
  Forall (fun channel => Forall (fun x => lo <= x <= hi) channel) (first :: rest) ->
  length (monoSamples (first :: rest)) = length first
  /\ Forall (fun x => lo <= x <= hi) (monoSamples (first :: rest)).
Proof.
  intros Hlen Hall. unfold monoSamples.
  destruct rest as [|second rest].
  - split; [reflexivity|]. now inversion Hall.
  - set (input := first :: second :: rest) in *.
    unfold downmix. split; [now rewrite length_map, length_seq|].
    apply List.Forall_forall. intros y Hy. apply in_map_iff in Hy.
    destruct Hy as [i [<- Hi]]. apply in_seq in Hi.
    apply mean_bounds; [simpl; lia|].
    pose proof (fold_sum_bounds i lo hi input 0) as Hsum.
    rewrite !Qplus_0_l in Hsum. apply Hsum.
    apply List.Forall_forall. intros channel Hc.
    assert (Hcl : length channel = length first).
    { destruct Hc as [<-|Hc]; [reflexivity|].
      rewrite List.Forall_forall in Hlen. now apply Hlen. }
    apply sampleAt_in_range; [|lia].
    rewrite List.Forall_forall in Hall. now apply Hall.
Qed.

Lemma downmix_stays_in_range_witness :
  length (monoSamples [[1; -1]; [1#2; 1]]) = 2%nat
  /\ Forall (fun x => -1 <= x <= 1) (monoSamples [[1; -1]; [1#2; 1]]).
Proof.
  apply (downmix_stays_in_range [1; -1] [[1#2; 1]] (-1) 1).
  - repeat constructor.
  - repeat constructor; discriminate.
Defined.

End DownmixProps.

(** ** [processAudioForDeepgram] *)

Module AudioUtilsFacts.
Import Num NumFacts AudioUtils.
Local Open Scope Q_scope.

Lemma clamp_range x : -1 <= clamp x <= 1.
Proof.
  unfold clamp, Math_max, Math_min.
  destruct (Q.max_spec (-1) (Qmin 1 x)) as [[H1 H2]|[H1 H2]];
  destruct (Q.min_spec 1 x) as [[H3 H4]|[H3 H4]]; rewrite H2 in *; try rewrite H4 in *; lra.
Qed.

Lemma clamp_id x : -1 <= x <= 1 -> clamp x == x.
Proof. apply Qmax_Qmin_clamp_id. Qed.

(** Rounding a scaled sample of [[-1, 1]] stays within the 16-bit range. *)
Lemma round_scaled_range s :
  -1 <= s <= 1 -> (-32767 <= Math_round (s * 32767) <= 32767)%Z.
Proof.
  intros Hs. pose proof (Math_round_spec (s * 32767)) as [Hlo Hhi].
  split.
  - apply Z.lt_succ_r. rewrite Zlt_Qlt.
    replace (Z.succ (Math_round (s * 32767))) with (Math_round (s * 32767) + 1)%Z by lia.
    rewrite inject_Z_plus. change (inject_Z 1) with 1.
    change (inject_Z (-32767)) with (-32767). lra.
  - apply Z.lt_succ_r. rewrite Zlt_Qlt.
    change (inject_Z (Z.succ 32767)) with 32768. lra.
Qed.

(** Every sample is stored without wrap-around, within half a step of the
    clamped input scaled by 32767. *)
Lemma deepgram_sample s :
  -1 <= s <= 1 ->
  let p := toInt16 (Math_round (s * 32767)) in
  (-32767 <= p <= 32767)%Z /\ Qabs (inject_Z p - s * 32767) <= 1#2.
Proof.
  intros Hs p. pose proof (round_scaled_range s Hs) as Hr.
  unfold p. rewrite toInt16_id by lia. split; [exact Hr|].
  pose proof (Math_round_spec (s * 32767)) as [Hlo Hhi].
  apply Qabs_Qle_condition. split; lra.
Qed.

End AudioUtilsFacts.

Module AudioUtilsProps.
Import Num NumFacts AudioUtils AudioUtilsFacts.
Local Open Scope Q_scope.

(** [processAudioForDeepgram] returns one 16-bit sample for each input
    sample, in order; the sample lies in [[-32767, 32767]], so the store
    never wraps, and it is within half a step of the input clamped to
    [[-1, 1]] and scaled by 32767. *)
Theorem processAudioForDeepgram_accuracy Math_sqrt Math_log10 inputData :
  Forall2 (fun x p =>
             (-32767 <= p <= 32767)%Z
             /\ Qabs (inject_Z p - clamp x * 32767) <= 1#2)
          inputData (fst (processAudioForDeepgram Math_sqrt Math_log10 inputData)).
Proof.
  unfold processAudioForDeepgram. cbn [fst]. rewrite map_map.
  induction inputData as [|x rest IH]; simpl; constructor; [|exact IH].
  apply deepgram_sample, clamp_range.
Qed.

End AudioUtilsProps.

(** ** [TranscriptionOptimizer]: audio *)

Module OptimizerAudioFacts.
Import Num NumFacts RoundingFacts AudioUtils AudioUtilsFacts OptimizerAudio.
Local Open Scope Q_scope.

Lemma dither_range rand :
  0 <= rand < 1 -> -(1#32768) <= ((rand - (1#2)) * 2) / 32768 < 1#32768.
Proof. intros H. unfold Qdiv. change (/ 32768) with (1#32768). lra. Qed.

Lemma ditheredSample_eq x rand :
  ditheredSample x rand == clamp x + ((rand - (1#2)) * 2) / 32768.
Proof. reflexivity. Qed.

(** Before the store the rounded value is within 3/2 of the clamped input
    scaled by 32767, and between -32768 and 32768. *)
Lemma rounded_dithered x rand :
  0 <= rand < 1 ->
  let r := Math_round (ditheredSample x rand * 32767) in
  (-32768 <= r <= 32768)%Z
  /\ Qabs (inject_Z r - clamp x * 32767) <= 3#2.
Proof.
  intros Hr r. pose proof (clamp_range x) as Hc.
  pose proof (dither_range rand Hr) as Hd.
  pose proof (Math_round_spec (ditheredSample x rand * 32767)) as [Hlo Hhi].
  fold r in Hlo, Hhi. rewrite ditheredSample_eq in Hlo, Hhi.
  set (d := ((rand - (1#2)) * 2) / 32768) in *.
  set (c := clamp x) in *.
  split; [split|].
  - apply Z_le_of_Q_lt_succ. change (inject_Z (-32768)) with (-32768). lra.
  - apply Z_le_of_Q_lt_succ. change (inject_Z 32768) with 32768. lra.
  - apply Qabs_Qle_condition. split; lra.
Qed.

Lemma clamp_le x b : -1 <= b -> x <= b -> clamp x <= b.
Proof.
  intros Hb Hx. unfold clamp, Math_max, Math_min.
  destruct (Q.max_spec (-1) (Qmin 1 x)) as [[H1 H2]|[H1 H2]];
  destruct (Q.min_spec 1 x) as [[H3 H4]|[H3 H4]]; rewrite H2 in *; try rewrite H4 in *; lra.
Qed.

Lemma clamp_top x : 1 <= x -> clamp x == 1.
Proof.
  intros Hx. unfold clamp, Math_max, Math_min.
  destruct (Q.max_spec (-1) (Qmin 1 x)) as [[H1 H2]|[H1 H2]];
  destruct (Q.min_spec 1 x) as [[H3 H4]|[H3 H4]]; rewrite H2 in *; try rewrite H4 in *; lra.
Qed.

(** *** The peak of a buffer *)

Lemma Qmax_scale g a b : 0 <= g -> Qmax (g * a) (g * b) == g * Qmax a b.
Proof.
  intros Hg.
  destruct (Q.max_spec a b) as [[H1 H2]|[H1 H2]]; rewrite H2.
  - apply Q.max_r. rewrite !(Qmult_comm g). apply Qmult_le_compat_r; [lra|exact Hg].
  - apply Q.max_l. rewrite !(Qmult_comm g). apply Qmult_le_compat_r; [exact H1|exact Hg].
Qed.

Lemma Qmax_eq a a' b b' : a == a' -> b == b' -> Qmax a b == Qmax a' b'.
Proof.
  intros Ha Hb.
  destruct (Q.max_spec a b) as [[H1 H2]|[H1 H2]];
  destruct (Q.max_spec a' b') as [[H3 H4]|[H3 H4]]; rewrite H2, H4; lra.
Qed.

Lemma fold_peak_nonneg data : forall a, 0 <= a ->
  0 <= fold_left (fun peak x => Math_max peak (Qabs x)) data a.
Proof.
  induction data as [|x rest IH]; intros a Ha; simpl; [exact Ha|].
  apply IH. unfold Math_max. eapply Qle_trans; [exact Ha|apply Q.le_max_l].
Qed.

Lemma fold_peak_scale g data : 0 <= g -> forall a a',
  a' == g * a ->
  fold_left (fun peak x => Math_max peak (Qabs x)) (map (fun x => x * g) data) a'
  == g * fold_left (fun peak x => Math_max peak (Qabs x)) data a.
Proof.
  intros Hg. induction data as [|x rest IH]; intros a a' Ha; simpl; [exact Ha|].
  apply IH. unfold Math_max.
  rewrite <- (Qmax_scale g a (Qabs x) Hg).
  apply Qmax_eq; [exact Ha|].
  eapply Qeq_trans; [apply Qabs_Qmult|].
  eapply Qeq_trans; [apply Qmult_comm|].
  apply Qmult_comp; [apply Qabs_pos, Hg|reflexivity].
Qed.

Lemma peakOf_nonneg data : 0 <= peakOf data.
Proof. apply fold_peak_nonneg. lra. Qed.

Lemma peakOf_scale g data : 0 <= g -> peakOf (map (fun x => x * g) data) == g * peakOf data.
Proof. intros Hg. apply fold_peak_scale; [exact Hg|lra]. Qed.

End OptimizerAudioFacts.

Module OptimizerAudioProps.
Import Num NumFacts RoundingFacts AudioUtils AudioUtilsFacts OptimizerAudio OptimizerAudioFacts.
Local Open Scope Q_scope.

(** [processAudioForTranscription]: one sample.  With the dither of one
    step, an input of at most 65533/65534 is stored without wrap-around,
    within 3/2 of the clamped input scaled by 32767.  At positive full scale
    the store wraps: for an input of 1 or more and a draw of 0.76 or more the
    rounded value is 32768 and the sample stored is -32768. *)
Theorem transcription_sample_wraps_only_at_full_scale x rand :
  0 <= rand < 1 ->
  (x <= 65533#65534 ->
   (-32768 <= convertSample x rand <= 32767)%Z
   /\ Qabs (inject_Z (convertSample x rand) - clamp x * 32767) <= 3#2)
  /\ (1 <= x -> 76#100 <= rand -> convertSample x rand = (-32768)%Z).
Proof.
  intros Hr. pose proof (rounded_dithered x rand Hr) as [Hrange Hacc].
  pose proof (Math_round_spec (ditheredSample x rand * 32767)) as [Hlo Hhi].
  pose proof (dither_range rand Hr) as Hd.
  unfold convertSample.
  set (r := Math_round (ditheredSample x rand * 32767)) in *.
  rewrite ditheredSample_eq in Hlo, Hhi.
  set (d := ((rand - (1#2)) * 2) / 32768) in *.
  split.
  - intros Hx. pose proof (clamp_le x (65533#65534) ltac:(lra) Hx) as Hc.
    assert (Hr32767 : (r <= 32767)%Z).
    { apply Z_le_of_Q_succ_lt. change (inject_Z 32767) with 32767. lra. }
    rewrite toInt16_id by lia. split; [lia|exact Hacc].
  - intros Hx Hrand. pose proof (clamp_top x Hx) as Hc.
    assert (Hd' : 52#3276800 <= d).
    { unfold d, Qdiv. change (/ 32768) with (1#32768). lra. }
    assert (Hr32768 : (32768 <= r)%Z).
    { apply Z_le_of_Q_lt_succ. change (inject_Z 32768) with 32768. lra. }
    replace r with 32768%Z by lia. reflexivity.
Qed.

Lemma transcription_sample_wraps_only_at_full_scale_witness :
  ((1#2 : Q) <= 65533#65534 ->
   (-32768 <= convertSample (1#2) (9#10) <= 32767)%Z
   /\ Qabs (inject_Z (convertSample (1#2) (9#10)) - clamp (1#2) * 32767) <= 3#2)
  /\ (1 <= (1#2 : Q) -> 76#100 <= (9#10 : Q) -> convertSample (1#2) (9#10) = (-32768)%Z).
Proof.
  apply (transcription_sample_wraps_only_at_full_scale (1#2) (9#10)).
  split; [discriminate|reflexivity].
Defined.

(** [normalizeAudioLevel] keeps the number of samples.  A buffer whose peak
    lies strictly between 0.1 and 1 is scaled by one positive gain so that
    its peak becomes 0.8; every other buffer is left as it is. *)
Theorem normalizeAudioLevel_peak data :
  length (normalizeAudioLevel data) = length data
  /\ (1#10 < peakOf data /\ peakOf data < 1 ->
      peakOf (normalizeAudioLevel data) == 8#10)
  /\ (~ (1#10 < peakOf data /\ peakOf data < 1) -> normalizeAudioLevel data = data).
Proof.
  unfold normalizeAudioLevel, ltb.
  destruct (gtb (peakOf data) (1#10)) eqn:Hlo; destruct (gtb 1 (peakOf data)) eqn:Hhi;
    cbn [andb].
  - apply gtb_true in Hlo. apply gtb_true in Hhi.
    split; [now rewrite length_map|].
    split; [|intros H; exfalso; apply H; split; assumption].
    intros _. rewrite peakOf_scale.
    + field. intros H0. rewrite H0 in Hlo. lra.
    + apply Qle_shift_div_l; [lra|]. rewrite Qmult_0_l. lra.
  - apply gtb_false in Hhi.
    split; [reflexivity|]. split; [intros [_ H]; lra|reflexivity].
  - apply gtb_false in Hlo.
    split; [reflexivity|]. split; [intros [H _]; lra|reflexivity].
  - apply gtb_false in Hlo.
    split; [reflexivity|]. split; [intros [H _]; lra|reflexivity].
Qed.

End OptimizerAudioProps.

(** ** [TranscriptionOptimizer]: transcripts *)

Module OptimizerTranscriptFacts.
Import Num NumFacts OptimizerTranscript.
Local Open Scope Q_scope.

Lemma append_assoc (a b c : string) : ((a ++ b) ++ c = a ++ (b ++ c))%string.
Proof.
  induction a as [|ch a IH]; [reflexivity|].
  change (String ch ((a ++ b) ++ c) = String ch (a ++ (b ++ c)))%string. now rewrite IH.
Qed.

Lemma append_empty_r (a : string) : (a ++ EmptyString = a)%string.
Proof.
  induction a as [|ch a IH]; [reflexivity|].
  change (String ch (a ++ EmptyString) = String ch a)%string. now rewrite IH.
Qed.

Lemma unit_clamp_range x : 0 <= Math_max 0 (Math_min 1 x) <= 1.
Proof.
  unfold Math_max, Math_min.
  destruct (Q.max_spec 0 (Qmin 1 x)) as [[H1 H2]|[H1 H2]];
  destruct (Q.min_spec 1 x) as [[H3 H4]|[H3 H4]]; rewrite H2 in *; try rewrite H4 in *; lra.
Qed.

(** [push] followed by one [shift] beyond [n] elements keeps the last [n]. *)
Lemma push_shift_keep_last {A} n (l : list A) x :
  (length l <= n)%nat ->
  (if (n <? length (l ++ [x]))%nat then tl (l ++ [x]) else l ++ [x])
  = Vad.keep_last n (l ++ [x]).
Proof.
  intros Hl. unfold Vad.keep_last. rewrite length_app. simpl length.
  destruct (Nat.ltb_spec n (length l + 1)).
  - replace (length l + 1 - n)%nat with 1%nat by lia. reflexivity.
  - replace (length l + 1 - n)%nat with 0%nat by lia. reflexivity.
Qed.

Section Trim.
Variable trim : string -> string.

Lemma snr_after_call now data st :
  signalToNoiseRatio (snd (processTranscript trim now data st)) = signalToNoiseRatio st.
Proof. unfold processTranscript. cbn [snd]. now destruct (is_final data). Qed.

Lemma calculateConfidence_reads_snr st st' transcript data :
  signalToNoiseRatio st' = signalToNoiseRatio st ->
  calculateConfidence st' transcript data = calculateConfidence st transcript data.
Proof. intros H. unfold calculateConfidence. now rewrite H. Qed.

Lemma scores_after_call now data st :
  (length (confidenceScores st) <= 50)%nat ->
  confidenceScores (snd (processTranscript trim now data st))
  = if is_final data
    then Vad.keep_last 50
           (confidenceScores st ++ [calculateConfidence st (transcriptOf trim data) data])
    else confidenceScores st.
Proof.
  intros Hl. unfold processTranscript. cbn [snd].
  destruct (is_final data); [|reflexivity].
  cbn [confidenceScores]. now apply push_shift_keep_last.
Qed.

Lemma scores_after_run calls : forall st,
  (length (confidenceScores st) <= 50)%nat ->
  confidenceScores (processAllTranscripts trim calls st)
  = Vad.keep_last 50 (confidenceScores st ++ finalConfidences trim calls st).
Proof.
  induction calls as [|[now data] calls IH]; intros st Hl.
  - unfold finalConfidences. simpl. rewrite app_nil_r.
    symmetry. now apply VadFacts.keep_last_short.
  - unfold processAllTranscripts in *. cbn [fold_left fst snd].
    set (st1 := snd (processTranscript trim now data st)).
    assert (Hs : signalToNoiseRatio st1 = signalToNoiseRatio st) by apply snr_after_call.
    assert (Hc : confidenceScores st1
                 = if is_final data
                   then Vad.keep_last 50
                          (confidenceScores st
                           ++ [calculateConfidence st (transcriptOf trim data) data])
                   else confidenceScores st) by now apply scores_after_call.
    assert (Hf : finalConfidences trim calls st1 = finalConfidences trim calls st).
    { unfold finalConfidences. apply map_ext. intros call.
      now apply calculateConfidence_reads_snr. }
    rewrite IH.
    + rewrite Hf, Hc. unfold finalConfidences at 2. cbn [List.filter snd].
      destruct (is_final data); [|reflexivity].
      cbn [map snd]. rewrite VadFacts.keep_last_app_keep.
      now rewrite <- app_assoc.
    + rewrite Hc. destruct (is_final data); [apply VadFacts.keep_last_length|exact Hl].
Qed.

Lemma stable_after_call now data st :
  stableTranscript (snd (processTranscript trim now data st))
  = if is_final data
    then (stableTranscript st ++ transcriptOf trim data ++ " ")%string
    else stableTranscript st.
Proof. unfold processTranscript. cbn [snd]. now destruct (is_final data). Qed.

Lemma stable_after_run calls : forall st,
  stableTranscript (processAllTranscripts trim calls st)
  = (stableTranscript st ++ finalText trim calls)%string.
Proof.
  induction calls as [|[now data] calls IH]; intros st.
  - simpl. now rewrite append_empty_r.
  - unfold processAllTranscripts in *. cbn [fold_left fst snd].
    rewrite IH, stable_after_call. cbn [finalText fold_right snd].
    fold (finalText trim calls).
    destruct (is_final data); [|reflexivity].
    now rewrite !append_assoc.
Qed.

End Trim.

End OptimizerTranscriptFacts.

Module OptimizerTranscriptProps.
Import Num NumFacts OptimizerTranscript OptimizerTranscriptFacts.
Local Open Scope Q_scope.

(** The stable transcript is never retracted.  Over any run of
    [processTranscript] calls it is its former value followed by the trimmed
    transcript and one space of each final result, once each and in the order
    of the calls; interim results do not touch it. *)
Theorem stable_transcript_appended_once trim calls st :
  stableTranscript (processAllTranscripts trim calls st)
  = (stableTranscript st ++ finalText trim calls)%string.
Proof. apply stable_after_run. Qed.

(** The confidence scores are a window of the last 50: over any run of
    calls the scores are the last 50 of the former scores followed by the
    confidence of each final result, in order. *)
Theorem confidence_scores_window trim calls st :
  (length (confidenceScores st) <= 50)%nat ->
  confidenceScores (processAllTranscripts trim calls st)
  = Vad.keep_last 50 (confidenceScores st ++ finalConfidences trim calls st)
  /\ (length (confidenceScores (processAllTranscripts trim calls st)) <= 50)%nat.
Proof.
  intros Hl. rewrite (scores_after_run trim calls st Hl).
  split; [reflexivity|apply VadFacts.keep_last_length].
Qed.

Lemma confidence_scores_window_witness :
  let call := (0%Z, {| transcript := Some "hello"; is_final := true; words := None |}) in
  let st := new defaultConfig in
  confidenceScores (processAllTranscripts (fun s => s) [call] st)
  = Vad.keep_last 50 (confidenceScores st ++ finalConfidences (fun s => s) [call] st)
  /\ (length (confidenceScores (processAllTranscripts (fun s => s) [call] st)) <= 50)%nat.
Proof.
  apply (confidence_scores_window (fun s => s)). simpl. lia.
Defined.

(** [calculateConfidence] returns a number between 0 and 1, except for an
    empty array of words, where the mean 0/0 makes the result NaN. *)
Theorem calculateConfidence_range st transcript data :
  match calculateConfidence st transcript data with
  | Some c => 0 <= c <= 1 /\ words data <> Some []
  | None => words data = Some []
  end.
Proof.
  unfold calculateConfidence.
  destruct (words data) as [[|w ws]|].
  - reflexivity.
  - split; [apply unit_clamp_range|discriminate].
  - split; [apply unit_clamp_range|discriminate].
Qed.

End OptimizerTranscriptProps.

(** ** The history of the detector *)

Module VadHistoryFacts.
Import Num NumFacts Vad VadFacts.
Local Open Scope Q_scope.

(** [sqrt_exact] is a square root as far as its sign goes. *)
Lemma sqrt_exact_nonneg v : 0 <= sqrt_exact v.
Proof.
  unfold sqrt_exact, Qle. cbn [Qnum Qden]. rewrite Z.mul_1_r.
  change (0 * _)%Z with 0%Z. apply Z.sqrt_nonneg.
Qed.

End VadHistoryFacts.

Module VadHistoryProps.
Import Num NumFacts Vad VadFacts VadHistoryFacts.
Local Open Scope Q_scope.

(** A frame is classified as speech only if one of the energies already in
    the history is less than half the energy of the frame.  So the first
    frame given to a detector is never speech, and neither is a frame in a
    run of frames of constant energy, however loud.  (Frames are not empty
    and [Math.sqrt] is not negative.) *)
Theorem speech_needs_a_quieter_frame Math_sqrt d audioData :
  (forall v, 0 <= Math_sqrt v) ->
  (1 <= historySize d)%nat ->
  (length (energyHistory d) <= historySize d)%nat ->
  audioData <> [] ->
  isSpeech (fst (detectVoiceActivity Math_sqrt d audioData)) = true ->
  exists e, In e (energyHistory d) /\ 2 * e < calculateEnergy Math_sqrt audioData.
Proof.
  intros Hsqrt Hsize Hlen _ Hspeech. unfold detectVoiceActivity in Hspeech.
  cbn [fst isSpeech] in Hspeech. apply gtb_true in Hspeech.
  set (energy := calculateEnergy Math_sqrt audioData) in *.
  rewrite (pushEnergy_keep_last d energy Hlen) in Hspeech.
  set (h := keep_last (historySize d) (energyHistory d ++ [energy])) in *.
  assert (Hne : h <> []).
  { intros H0. pose proof (keep_last_snoc_In (historySize d) (energyHistory d) energy Hsize) as Hin.
    fold h in Hin. rewrite H0 in Hin. contradiction. }
  destruct (calculateBackgroundNoise_attained h Hne) as [x [Hin Heq]].
  rewrite Heq in Hspeech.
  apply keep_last_In in Hin. apply in_app_or in Hin. destruct Hin as [Hin|[Hin|[]]].
  - exists x. split; [exact Hin|lra].
  - subst x. pose proof (Hsqrt (sumSquares audioData
                                 / inject_Z (Z.of_nat (length audioData)))) as H0.
    fold (calculateEnergy Math_sqrt audioData) in H0. fold energy in H0. lra.
Qed.

Lemma speech_needs_a_quieter_frame_witness :
  exists e, In e [1#1000] /\ 2 * e < calculateEnergy sqrt_exact [1#2].
Proof.
  apply (speech_needs_a_quieter_frame sqrt_exact
           {| energyHistory := [1#1000]; historySize := 10 |} [1#2]).
  - apply sqrt_exact_nonneg.
  - simpl. lia.
  - simpl. lia.
  - discriminate.
  - reflexivity.
Defined.

End VadHistoryProps.

(** ** [AudioQualityAnalyzer] *)

Module AudioQualityAnalyzerFacts.
Import Num NumFacts AudioQualityAnalyzer.
Local Open Scope Q_scope.

Lemma fold_max_ge rest : forall first,
  first <= fold_left (fun maxLevel x => if gtb x maxLevel then x else maxLevel) rest first.
Proof.
  induction rest as [|x rest IH]; intros first; simpl; [lra|].
  destruct (gtb x first) eqn:H.
  - apply gtb_true in H. eapply Qle_trans; [|apply IH]. lra.
  - apply IH.
Qed.

Lemma fold_min_le rest : forall first,
  fold_left (fun minLevel x => if ltb x minLevel then x else minLevel) rest first <= first.
Proof.
  induction rest as [|x rest IH]; intros first; simpl; [lra|].
  unfold ltb. destruct (gtb first x) eqn:H.
  - apply gtb_true in H. eapply Qle_trans; [apply IH|]. lra.
  - apply IH.
Qed.

Lemma snr_nonneg first rest : 0 <= getSignalLevel first rest - getNoiseLevel first rest.
Proof.
  pose proof (fold_max_ge rest first). pose proof (fold_min_le rest first).
  unfold getSignalLevel, getNoiseLevel. lra.
Qed.

Lemma snrScore_saturated snr : 0 <= snr -> Math_max 0 (Math_min 1 ((snr + 60) / 60)) == 1.
Proof.
  intros H. unfold Math_max, Math_min.
  assert (H1 : 1 <= (snr + 60) / 60).
  { apply Qle_shift_div_l; lra. }
  rewrite (Q.min_l 1 _ H1). apply Q.max_r. lra.
Qed.

End AudioQualityAnalyzerFacts.

Module AudioQualityAnalyzerProps.
Import Num NumFacts VadHistoryFacts AudioQualityAnalyzer AudioQualityAnalyzerFacts.
Local Open Scope Q_scope.

(** The signal-to-noise ratio of [analyzeQuality] is the spread between the
    largest and the smallest frequency bin, so it is never negative and its
    score is always 1: the quality score is 0.5 plus 0.3 times the distortion
    score plus 0.2 times the flatness, and lies between 0.5 and 1. *)
Theorem qualityScore_at_least_half Math_sqrt rand first rest :
  0 <= rand < 1 ->
  (forall v, 0 <= Math_sqrt v) ->
  let q := analyzeQuality Math_sqrt rand first rest in
  0 <= snr q
  /\ qualityScore q == (1#2) + (1 - rand) * (3#10) + frequencyFlatness q * (2#10)
  /\ 1#2 <= qualityScore q <= 1.
Proof.
  intros Hr Hsqrt q.
  pose proof (snr_nonneg first rest) as Hsnr.
  assert (Hflat : 0 <= frequencyFlatness q <= 1).
  { unfold q, analyzeQuality, calculateFrequencyFlatness. cbn [frequencyFlatness].
    set (sd := Math_sqrt _). pose proof (Hsqrt (Qabs
      (fold_left (fun acc x => acc + x * x) (first :: rest) 0
         / inject_Z (Z.of_nat (length (first :: rest)))
       - fold_left Qplus (first :: rest) 0 / inject_Z (Z.of_nat (length (first :: rest)))
         * (fold_left Qplus (first :: rest) 0 / inject_Z (Z.of_nat (length (first :: rest))))))) as Hsd.
    fold sd in Hsd. unfold Math_max.
    destruct (Q.max_spec 0 (1 - sd / 100)) as [[H1 H2]|[H1 H2]]; rewrite H2.
    - split; [lra|]. unfold Qdiv. assert (0 <= sd * / 100).
      { apply Qmult_le_0_compat; [exact Hsd|]. change (/ 100) with (1#100). lra. }
      lra.
    - lra. }
  assert (Hscore : qualityScore q
                   == (1#2) + (1 - rand) * (3#10) + frequencyFlatness q * (2#10)).
  { unfold q, analyzeQuality. cbn [qualityScore frequencyFlatness].
    unfold calculateQualityScore.
    rewrite (snrScore_saturated _ Hsnr).
    unfold calculateTHD, Math_max.
    rewrite (Q.max_r 0 (1 - rand * (1#10) * 10)) by lra. ring. }
  split; [exact Hsnr|]. split; [exact Hscore|].
  rewrite Hscore. split; lra.
Qed.

Lemma qualityScore_at_least_half_witness :
  let q := analyzeQuality Vad.sqrt_exact (1#2) (-30) [-40] in
  0 <= snr q
  /\ qualityScore q == (1#2) + (1 - (1#2)) * (3#10) + frequencyFlatness q * (2#10)
  /\ 1#2 <= qualityScore q <= 1.
Proof.
  apply (qualityScore_at_least_half Vad.sqrt_exact (1#2) (-30) [-40]).
  - split; [discriminate|reflexivity].
  - apply sqrt_exact_nonneg.
Defined.

End AudioQualityAnalyzerProps.

(** ** PCM conversion at full scale *)

Module PcmWrapFacts.
Import Num NumFacts RoundingFacts Pcm PcmFacts.
Local Open Scope Q_scope.

Lemma scaled_top x rand : 1 <= x -> scaled x rand == (1 + (rand - (1#2)) * (1#1000)) * 32767.
Proof.
  intros Hx. unfold scaled, applyDithering, Math_max, Math_min.
  rewrite (Q.min_l 1 x Hx). rewrite Q.max_r by lra. reflexivity.
Qed.

Lemma scaled_bottom x rand : x <= -1 -> scaled x rand == (-1 + (rand - (1#2)) * (1#1000)) * 32767.
Proof.
  intros Hx. unfold scaled, applyDithering, Math_max, Math_min.
  rewrite (Q.min_r 1 x) by lra. rewrite Q.max_l by lra. reflexivity.
Qed.

Lemma toInt16_above n : (32768 <= n <= 98303)%Z -> toInt16 n = (n - 65536)%Z.
Proof.
  intros H. unfold toInt16.
  replace (n + 32768)%Z with ((n - 32768) + 1 * 65536)%Z by lia.
  rewrite Z.mod_add by lia. rewrite Z.mod_small; lia.
Qed.

Lemma toInt16_below n : (-98304 <= n <= -32769)%Z -> toInt16 n = (n + 65536)%Z.
Proof.
  intros H. unfold toInt16.
  replace (n + 32768)%Z with ((n + 98304) + (-1) * 65536)%Z by lia.
  rewrite Z.mod_add by lia. rewrite Z.mod_small; lia.
Qed.

End PcmWrapFacts.

Module PcmWrapProps.
Import Num NumFacts RoundingFacts Pcm PcmFacts PcmWrapFacts.
Local Open Scope Q_scope.

(** [convertToPCM] clamps before it adds the dither, so at full scale the
    store into the [Int16Array] wraps and the sign of the sample flips.  A
    sample of 1 or more with a draw of 0.516 or more is stored as a value
    between -32768 and -32753; a sample of -1 or less with a draw of 0.45 or
    less is stored as a value between 32752 and 32767. *)
Theorem full_scale_samples_flip_sign x rand :
  0 <= rand < 1 ->
  (1 <= x -> 516#1000 <= rand ->
   (-32768 <= convertSample x rand <= -32753)%Z)
  /\ (x <= -1 -> rand <= 45#100 ->
      (32752 <= convertSample x rand <= 32767)%Z).
Proof.
  intros Hr.
  pose proof (Math_round_spec (scaled x rand)) as [Hlo Hhi].
  change (convertSample x rand) with (toInt16 (Math_round (scaled x rand))).
  set (r := Math_round (scaled x rand)) in *.
  split.
  - intros Hx Hrand. rewrite (scaled_top x rand Hx) in Hlo, Hhi.
    assert (H1 : (32768 <= r)%Z).
    { apply Z_le_of_Q_lt_succ. change (inject_Z 32768) with 32768. lra. }
    assert (H2 : (r <= 32783)%Z).
    { apply Z_le_of_Q_lt_succ. change (inject_Z 32783) with 32783. lra. }
    rewrite toInt16_above by lia. lia.
  - intros Hx Hrand. rewrite (scaled_bottom x rand Hx) in Hlo, Hhi.
    assert (H1 : (r <= -32769)%Z).
    { apply Z_le_of_Q_lt_succ. change (inject_Z (-32769)) with (-32769). lra. }
    assert (H2 : (-32784 <= r)%Z).
    { apply Z_le_of_Q_lt_succ. change (inject_Z (-32784)) with (-32784). lra. }
    rewrite toInt16_below by lia. lia.
Qed.

Lemma full_scale_samples_flip_sign_witness :
  (1 <= (1 : Q) -> 516#1000 <= (9#10 : Q) ->
   (-32768 <= convertSample 1 (9#10) <= -32753)%Z)
  /\ ((1 : Q) <= -1 -> (9#10 : Q) <= 45#100 ->
      (32752 <= convertSample 1 (9#10) <= 32767)%Z).
Proof.
  apply (full_scale_samples_flip_sign 1 (9#10)). split; [discriminate|reflexivity].
Defined.

End PcmWrapProps.

(** ** The service after [stop()] *)

Module ServiceStopFacts.
Import Platform W Monad Browser Logic Observe EventLoop Policy Scenario Frames
  SendFacts ReconnectFacts StopFacts InitFacts.
Local Open Scope monad_scope.
Local Open Scope Z_scope.

Lemma world_eta w :
  {| now := now w; trace := trace w; timers := timers w; nextTimer := nextTimer w;
     sockets := sockets w; nextSocket := nextSocket w; streams := streams w;
     nextStream := nextStream w; components := components w;
     nextComponent := nextComponent w; math_sqrt := math_sqrt w; random := random w;
     randomCalls := randomCalls w; quality := quality w; qualityCalls := qualityCalls w;
     svc := svc w; mgr := mgr w |} = w.
Proof. now destruct w. Qed.

Lemma audio_frame_without_processor samples w :
  Svc.audioProcessor (svc w) = None -> step w (AudioFrame samples) = w.
Proof.
  intros H. unfold step, task, processAudioFrame, S.onProcessor, S.this, exec, bind, gets.
  simpl. now rewrite H.
Qed.

Lemma send_without_socket audioData w :
  Svc.websocket (svc w) = None -> step w (CallSendAudioData audioData) = w.
Proof.
  intros H. unfold step, task, exec. rewrite sendAudioData_cases. simpl.
  unfold afterSend. now rewrite H.
Qed.

(** [stop()] on a stopped service only writes its two lines. *)
Lemma service_stop_again w :
  stopped (svc w) ->
  exec S.stop w
  = set_trace (trace w ++ [Console Log "Stopping optimized transcription service...";
                           Console Log "Optimized transcription service stopped"]) w.
Proof.
  intros (Hc & Hw & Hi & Ha & Hh & Hm).
  destruct w as [? tr ? ? ? ? ? ? ? ? ? ? ? ? ? s ?]. destruct s.
  simpl in Hc, Hw, Hi, Ha, Hh, Hm. subst.
  cbv beta iota zeta delta -[app]. rewrite <- app_assoc. reflexivity.
Qed.

End ServiceStopFacts.

Module ServiceStopProps.
Import Platform W Monad Browser Logic Observe EventLoop Policy Scenario Frames
  SendFacts ReconnectFacts StopFacts InitFacts ServiceStopFacts.
Local Open Scope monad_scope.

(** [stop()] of the service never throws and leaves the service stopped,
    whatever state it finds; a second [stop()] changes nothing but the
    console. *)
Theorem service_stop_is_idempotent w :
  (exists w', S.stop w = (Ok tt, w') /\ stopped (svc w'))
  /\ exec S.stop (exec S.stop w)
     = set_trace (trace (exec S.stop w)
                  ++ [Console Log "Stopping optimized transcription service...";
                      Console Log "Optimized transcription service stopped"])
         (exec S.stop w).
Proof.
  split.
  - destruct (service_stop_safe w) as [[] H]. exists (exec S.stop w).
    split; [|apply service_stop_stopped].
    unfold exec. destruct (S.stop w) as [r w']. simpl in *. now subst.
  - apply service_stop_again, service_stop_stopped.
Qed.

(** After [stop()] of the service, audio frames from the worklet and calls
    of [sendAudioData] have no effect at all. *)
Theorem stopped_service_ignores_audio w :
  let w' := exec S.stop w in
  (forall samples, step w' (AudioFrame samples) = w')
  /\ (forall audioData, step w' (CallSendAudioData audioData) = w').
Proof.
  intros w'. destruct (service_stop_stopped w) as (_ & Hw & _ & Ha & _).
  split; intros x.
  - now apply audio_frame_without_processor.
  - now apply send_without_socket.
Qed.

End ServiceStopProps.

(** ** Delivery of a result to the consumer *)

Module DeliveryFacts.
Import Platform W Monad Browser Logic Observe EventLoop Policy Scenario Frames
  SendFacts ReconnectFacts StopFacts InitFacts.
Local Open Scope monad_scope.

Lemma userEvents_snoc tr e :
  match e with Console _ _ => False | _ => True end ->
  userEvents (tr ++ [e]) = userEvents tr ++ [e].
Proof.
  intros H. unfold userEvents. rewrite List.filter_app. simpl.
  destruct e; [contradiction|reflexivity|reflexivity].
Qed.

Lemma preserves_userEvents_console lvl msg :
  preserves (fun w => userEvents (trace w)) (console lvl msg).
Proof. intros w. simpl. apply userEvents_console. Qed.

#[export] Hint Resolve preserves_userEvents_console : frame.

(** The dispatch of a Results message with one alternative. *)
Lemma results_message_dispatch cb w transcript conf is_final :
  S.handleWebSocketMessage cb
    (Some (Js.Obj [("type", Js.Str "Results");
                   ("channel", Js.Obj [("alternatives",
                      Js.Arr [Js.Obj [("transcript", transcript); ("confidence", conf)]])]);
                   ("is_final", is_final)])) w
  = guarded
      (cb {| Result.text := transcript;
             Result.confidence := Js.or conf (Js.Num (85#100));
             Result.isFinal := Js.not is_final;
             Result.timestamp := now w;
             Result.duration := Js.Num 0;
             Result.language := Js.Str (Svc.language (Svc.config (svc w)));
             Result.words := None |}) w.
Proof. reflexivity. Qed.

Lemma updateMetrics_safe r : safe (E.updateMetrics r).
Proof. frame. Qed.

Lemma updateMetrics_keeps_userEvents r :
  preserves (fun w => userEvents (trace w)) (E.updateMetrics r).
Proof. frame. Qed.

Lemma updateMetrics_keeps_svc r : preserves svc (E.updateMetrics r).
Proof. frame. Qed.

Lemma updateMetrics_accuracy r :
  Js.truthy (Result.confidence r) = true ->
  ensures (fun w => Mgr.accuracy (Mgr.metrics (mgr w))) (Result.confidence r)
    (E.updateMetrics r).
Proof.
  intros H. unfold E.updateMetrics. rewrite H. unfold when.
  apply ensures_here; [ensure|intros ?; frame].
Qed.

(** The manager's handler passes the result on, once. *)
Lemma handleTranscriptionResult_delivers r w :
  exists w1,
    E.updateMetrics r w = (Ok tt, w1)
    /\ E.handleTranscriptionResult r w
       = (Ok tt, set_trace (trace w1 ++ [UserTranscription (Result.text r)
                                           (Result.confidence r)
                                           (Mgr.metrics (mgr w1))]) w1).
Proof.
  destruct (updateMetrics_safe r w) as [[] H].
  destruct (E.updateMetrics r w) as [res w1] eqn:E. simpl in H. subst res.
  exists w1. split; [reflexivity|].
  unfold E.handleTranscriptionResult, tryCatch. unfold bind at 1. rewrite E.
  reflexivity.
Qed.

Lemma confidence_default_truthy conf : Js.truthy (Js.or conf (Js.Num (85#100))) = true.
Proof. unfold Js.or. destruct (Js.truthy conf) eqn:E; [exact E|reflexivity]. Qed.

Lemma guarded_returns m w w1 : m w = (Ok tt, w1) -> guarded m w = (Ok tt, w1).
Proof. intros H. unfold guarded, tryCatch. now rewrite H. Qed.

(** A message that is not of type Results never reaches the callback. *)
Lemma other_message_keeps_userEvents cb parsed :
  match parsed with
  | Some data =>
      match Js.get data "type" with
      | Some ty => Js.eq_str ty "Results" = false
      | None => True
      end
  | None => True
  end ->
  preserves (fun w => userEvents (trace w)) (S.handleWebSocketMessage cb parsed).
Proof.
  intros H. unfold S.handleWebSocketMessage.
  destruct parsed as [data|]; [|frame].
  destruct (Js.get data "type") as [ty|]; [|frame].
  rewrite H. frame.
Qed.

End DeliveryFacts.

(** ** The audio path *)

Module AudioPathFacts.
Import Platform W Monad Browser Logic Observe EventLoop Policy Scenario Frames SendFacts.
Import Num NumFacts Chunk ChunkFacts DeliveryFacts.
Local Open Scope monad_scope.

(** The callback that the service gives to the processor hands one result
    to the manager, which reports it to the consumer. *)
Lemma processorCallback_delivers text conf w :
  exists w1 metrics,
    S.processorCallback E.handleTranscriptionResult text conf w
    = (Ok tt, set_trace (trace w1 ++ [UserTranscription (Js.Str text) (Js.Num conf) metrics]) w1)
    /\ userEvents (trace w1) = userEvents (trace w)
    /\ svc w1 = svc w /\ now w1 = now w.
Proof.
  unfold S.processorCallback, bind at 1, Date_now, gets. cbn [fst snd].
  unfold bind at 1, S.this, gets. cbn [fst snd].
  match goal with |- context [E.handleTranscriptionResult ?r w] =>
    destruct (handleTranscriptionResult_delivers r w) as [w1 [Hu Hd]];
    exists w1, (Mgr.metrics (mgr w1)); rewrite Hd; split; [reflexivity|];
    pose proof (updateMetrics_keeps_userEvents r w) as Hk;
    pose proof (updateMetrics_keeps_svc r w) as Hs;
    assert (Hn : preserves now (E.updateMetrics r)) by frame;
    specialize (Hn w);
    unfold exec in Hk, Hs, Hn; rewrite Hu in Hk, Hs, Hn; simpl in Hk, Hs, Hn;
    now repeat split
  end.
Qed.

Lemma buffer_snoc_nonempty {A} (l : list A) x : (length (l ++ [x]) =? 0)%nat = false.
Proof. rewrite length_app. simpl. apply Nat.eqb_neq. lia. Qed.

(** The chunk that [makeChunk] builds carries the verdict of the detector on
    the buffered samples. *)
Lemma makeChunk_verdict p w :
  let combined := concat (Proc.audioBuffer p) in
  let vad := fst (Vad.detectVoiceActivity (math_sqrt w) (Proc.vad p) combined) in
  exists chunk p1 w1,
    R.makeChunk p w = (Ok (chunk, p1), w1)
    /\ isSpeech chunk = Vad.isSpeech vad /\ confidence chunk = Vad.confidence vad
    /\ length (data chunk) = length combined
    /\ timestamp chunk = now w
    /\ now w1 = now w /\ trace w1 = trace w /\ svc w1 = svc w /\ mgr w1 = mgr w
    /\ sockets w1 = sockets w
    /\ Proc.audioBuffer p1 = [] /\ Proc.chunkQueue p1 = Proc.chunkQueue p.
Proof.
  intros combined vad. unfold R.makeChunk. cbn. do 3 eexists.
  split; [reflexivity|]. cbn.
  do 2 (split; [reflexivity|]). split; [apply PcmFacts.convertToPCM_length|].
  now repeat split.
Qed.

Lemma processAudioChunk_accepted cb p w chunk p1 w1 :
  (length (Proc.audioBuffer p) =? 0)%nat = false ->
  R.makeChunk p w = (Ok (chunk, p1), w1) ->
  isSpeech chunk = true -> (7#10 < confidence chunk)%Q ->
  R.processAudioChunk cb p w
  = (R.processTranscriptionChunk cb chunk ;;
     R.cleanupOldChunks (Proc.set_chunkQueue (Proc.chunkQueue p1 ++ [chunk]) p1)) w1.
Proof.
  intros Hne Hm Hs Hc.
  unfold R.processAudioChunk. rewrite Hne.
  unfold bind at 1. rewrite Hm. cbn [fst snd].
  apply gtb_true in Hc. rewrite Hs, Hc. cbn [andb]. unfold bind.
  destruct (R.processTranscriptionChunk _ _ _) as [[[]|e] w2]; reflexivity.
Qed.

Lemma processTranscriptionChunk_accepted cb chunk :
  isSpeech chunk = true -> (7#10 < confidence chunk)%Q ->
  R.processTranscriptionChunk cb chunk
  = tryCatch
      (cb ("[Audio chunk: " ++ pretty (length (data chunk)) ++ " samples]")%string
          (confidence chunk))
      (fun _ => console Error "Error processing transcription chunk:").
Proof.
  intros Hs Hc. unfold R.processTranscriptionChunk.
  rewrite Hs. simpl negb. simpl orb.
  assert (Hlt : Num.ltb (confidence chunk) (1#2) = false).
  { unfold Num.ltb. apply gtb_false. lra. }
  rewrite Hlt. reflexivity.
Qed.

(** A frame that completes an accepted chunk: the consumer is called once,
    with the text of the placeholder. *)
Lemma accepted_frame_reported samples w p :
  Svc.audioProcessor (svc w) = Some p ->
  Proc.isProcessing p = true ->
  Qle_bool (chunkDuration (Proc.config p)) (inject_Z (now w - Proc.lastProcessTime p)) = true ->
  let combined := concat (Proc.audioBuffer p ++ [samples]) in
  let vad := fst (Vad.detectVoiceActivity (math_sqrt w) (Proc.vad p) combined) in
  Vad.isSpeech vad = true -> (7#10 < Vad.confidence vad)%Q ->
  let w' := step w (AudioFrame samples) in
  exists metrics p' chunk,
    userEvents (trace w')
    = userEvents (trace w)
      ++ [UserTranscription
            (Js.Str ("[Audio chunk: " ++ pretty (length combined) ++ " samples]"))
            (Js.Num (Vad.confidence vad)) metrics]
    /\ Svc.audioProcessor (svc w') = Some p'
    /\ Proc.audioBuffer p' = []
    /\ last (Proc.chunkQueue p') = Some chunk
    /\ isSpeech chunk = true /\ confidence chunk = Vad.confidence vad
    /\ length (data chunk) = length combined.
Proof.
  intros Hp Hproc Hcut combined vad Hs Hc w'.
  set (p0 := Proc.set_audioBuffer (Proc.audioBuffer p ++ [samples]) p).
  destruct (makeChunk_verdict p0 w)
    as (chunk & p1 & w1 & Hm & His & Hconf & Hlen & Hts & Hnow & Htr & Hsvc & Hmgr & _ & Hbuf & Hq).
  change (concat (Proc.audioBuffer p0)) with combined in *.
  change (Proc.vad p0) with (Proc.vad p) in *. fold vad in His, Hconf.
  assert (Hs' : isSpeech chunk = true) by congruence.
  assert (Hc' : (7#10 < confidence chunk)%Q) by (rewrite Hconf; exact Hc).
  destruct (processorCallback_delivers
              ("[Audio chunk: " ++ pretty (length (data chunk)) ++ " samples]")%string
              (confidence chunk) w1) as (w2 & metrics & Hcb & Hu2 & Hsvc2 & Hnow2).
  eassert (Hrun : w' = _).
  { unfold w', step, exec, task, processAudioFrame, S.onProcessor.
    unfold bind at 1, S.this, gets. cbn [fst snd]. rewrite Hp.
    unfold bind at 1. unfold R.processAudioFrame at 1. rewrite Hproc. cbn [negb].
    unfold bind at 1, Date_now, gets. cbn [fst snd].
    change (Proc.config (Proc.set_audioBuffer _ p)) with (Proc.config p).
    change (Proc.lastProcessTime (Proc.set_audioBuffer _ p)) with (Proc.lastProcessTime p).
    rewrite Hcut. unfold bind at 1.
    rewrite (processAudioChunk_accepted _ p0 w chunk p1 w1
               (buffer_snoc_nonempty _ _) Hm Hs' Hc').
    unfold bind at 1. rewrite (processTranscriptionChunk_accepted _ chunk Hs' Hc').
    unfold tryCatch. rewrite Hcb. cbn. reflexivity. }
  exists metrics. eexists. exists chunk. rewrite Hrun.
  split.
  { change (trace (set_svc ?s ?x)) with (trace x).
    change (trace (set_trace ?t ?x)) with t.
    rewrite userEvents_snoc by exact I. now rewrite Hu2, Htr, Hlen, Hconf. }
  split; [reflexivity|].
  split; [exact Hbuf|].
  split; [|now repeat split].
  change (Proc.chunkQueue (Proc.set_lastProcessTime ?t (Proc.set_chunkQueue ?q ?x))) with q.
  rewrite filter_app.
  rewrite (filter_cons_True _ chunk []) by (cbv beta; rewrite Hts, Hnow2, Hnow; lia).
  rewrite filter_nil. apply last_snoc.
Qed.

End AudioPathFacts.

Module AudioPathClaims.
Import Platform W Monad Browser Logic Observe EventLoop Policy Scenario Frames SendFacts.
Import Num NumFacts Chunk ChunkFacts DeliveryFacts AudioPathFacts.
Local Open Scope monad_scope.



End AudioPathClaims.

Module DeliveryProps.
Import Platform W Monad Browser Logic Observe EventLoop Policy Scenario Frames
  SendFacts ReconnectFacts StopFacts InitFacts DeliveryFacts.
Local Open Scope monad_scope.

(** A Results message with one alternative, arriving on a socket of the
    page that is open or closing, reaches the consumer's transcription
    callback exactly once, with the transcript of the alternative and its
    confidence (0.85 when the confidence is missing or zero); the metrics
    passed are those of the manager, whose accuracy is that confidence.  The
    service is left as it was.  A message of any other type, and a message
    that does not parse, reach no callback. *)
Theorem result_reaches_consumer_once id w s transcript conf is_final :
  sockets w !! id = Some s ->
  readyState s = OPEN \/ readyState s = CLOSING ->
  let message :=
    Js.Obj [("type", Js.Str "Results");
            ("channel", Js.Obj [("alternatives",
               Js.Arr [Js.Obj [("transcript", transcript); ("confidence", conf)]])]);
            ("is_final", is_final)] in
  let w' := step w (SocketMessage id (Some message)) in
  svc w' = svc w
  /\ Mgr.accuracy (Mgr.metrics (mgr w')) = Js.or conf (Js.Num (85#100))
  /\ userEvents (trace w')
     = userEvents (trace w)
       ++ [UserTranscription transcript (Js.or conf (Js.Num (85#100)))
             (Mgr.metrics (mgr w'))]
  /\ (forall parsed,
        match parsed with
        | Some data =>
            match Js.get data "type" with
            | Some ty => Js.eq_str ty "Results" = false
            | None => True
            end
        | None => True
        end ->
        userEvents (trace (step w (SocketMessage id parsed))) = userEvents (trace w)).
Proof.
  intros Hs Hr message w'.
  assert (Htask : forall parsed,
            task (SocketMessage id parsed) w = handleWebSocketMessage parsed w).
  { intros parsed. unfold task, socketState, ws_readyState, bind, gets. simpl.
    rewrite Hs. simpl. destruct Hr as [-> | ->]; reflexivity. }
  set (r := {| Result.text := transcript;
               Result.confidence := Js.or conf (Js.Num (85#100));
               Result.isFinal := Js.not is_final;
               Result.timestamp := now w;
               Result.duration := Js.Num 0;
               Result.language := Js.Str (Svc.language (Svc.config (svc w)));
               Result.words := None |}).
  destruct (handleTranscriptionResult_delivers r w) as [w1 [Hu Hd]].
  assert (Hw' : w' = set_trace (trace w1 ++ [UserTranscription transcript
                                   (Js.or conf (Js.Num (85#100)))
                                   (Mgr.metrics (mgr w1))]) w1).
  { unfold w', step, exec. rewrite Htask. unfold handleWebSocketMessage, message.
    rewrite results_message_dispatch. fold r.
    now rewrite (guarded_returns _ _ _ Hd). }
  rewrite Hw'. cbn [svc mgr trace set_trace].
  split; [exact (preserved_run svc _ _ _ _ (updateMetrics_keeps_svc r) Hu)|].
  split.
  { exact (ensured_run _ _ _ _ _ _ (updateMetrics_accuracy r (confidence_default_truthy conf)) Hu). }
  split.
  { rewrite userEvents_snoc by exact I. f_equal.
    exact (preserved_run _ _ _ _ _ (updateMetrics_keeps_userEvents r) Hu). }
  intros parsed Hp. unfold step, exec.
  rewrite Htask. apply (other_message_keeps_userEvents _ parsed Hp w).
Qed.

Lemma result_reaches_consumer_once_witness :
  let message :=
    Js.Obj [("type", Js.Str "Results");
            ("channel", Js.Obj [("alternatives",
               Js.Arr [Js.Obj [("transcript", Js.Str "hello world");
                               ("confidence", Js.Num (98#100))]])]);
            ("is_final", Js.Bool true)] in
  let w' := step started (SocketMessage 0 (Some message)) in
  userEvents (trace w')
  = userEvents (trace started)
    ++ [UserTranscription (Js.Str "hello world") (Js.Num (98#100)) (Mgr.metrics (mgr w'))].
Proof.
  intros message w'.
  destruct (result_reaches_consumer_once 0 started
              {| readyState := OPEN; sent := []; sendThrows := false;
                 promisePending := false; awaiter := AwaitStart |}
              (Js.Str "hello world") (Js.Num (98#100)) (Js.Bool true))
    as (_ & _ & H & _).
  - reflexivity.
  - left. reflexivity.
  - exact H.
Defined.

End DeliveryProps.

(** ** The stream monitor *)

Module HealthFacts.
Import Platform W Monad Browser Session Logic Observe EventLoop Policy Scenario Frames
  SendFacts ReconnectFacts StopFacts InitFacts DeliveryFacts.
Local Open Scope monad_scope.
Local Open Scope Z_scope.

Lemma filter_valid_empty tracks :
  (length (filter (fun t => AudioErrorHandler.trackValid t = true) tracks) =? 0)%nat
  = negb (existsb AudioErrorHandler.trackValid tracks).
Proof.
  induction tracks as [|t tracks IH]; [reflexivity|].
  rewrite filter_cons. simpl existsb.
  destruct (decide (AudioErrorHandler.trackValid t = true)) as [H|H].
  - rewrite H. reflexivity.
  - apply not_true_is_false in H. rewrite H. exact IH.
Qed.

Lemma existsb_nil_length {A} (f : A -> bool) l : (length l =? 0)%nat = true -> existsb f l = false.
Proof. destruct l; [reflexivity|discriminate]. Qed.

Lemma validateAudioStream_result stream w :
  fst (AudioErrorHandler.validateAudioStream stream w) = Ok (healthy stream w).
Proof.
  unfold AudioErrorHandler.validateAudioStream, healthy, tracksOf, getTracks, bind, gets, console, modify.
  simpl. set (tracks := default [] (streams w !! stream)).
  destruct (length tracks =? 0)%nat eqn:E; simpl.
  - now rewrite (existsb_nil_length _ _ E).
  - rewrite filter_valid_empty. now destruct (existsb AudioErrorHandler.trackValid tracks).
Qed.

Lemma checkHealth_result stream k w :
  fst (E.checkHealth stream k w) = Ok (if healthy stream w then 0 else k + 1).
Proof.
  unfold E.checkHealth, healthy, tracksOf, getTracks. unfold bind at 1, gets. simpl.
  set (tracks := default [] (streams w !! stream)).
  unfold bind at 1. unfold console at 1, modify. simpl.
  destruct (length tracks =? 0)%nat eqn:E.
  - rewrite (existsb_nil_length _ _ E).
    assert (Hs : safe (when (3 <=? k + 1) E.onDisconnect)) by frame.
    unfold bind. simpl.
    match goal with |- context [when ?b ?m ?x] => destruct (Hs x) as [[] Hx]; destruct (when b m x) as [res wx] end.
    simpl in Hx. subst res. reflexivity.
  - destruct (existsb AudioErrorHandler.trackValid tracks); [reflexivity|].
    assert (Hs : safe (when (3 <=? k + 1) E.onDisconnect)) by frame.
    unfold bind. simpl.
    match goal with |- context [when ?b ?m ?x] => destruct (Hs x) as [[] Hx]; destruct (when b m x) as [res wx] end.
    simpl in Hx. subst res. reflexivity.
Qed.

Lemma onDisconnect_effect w : E.onDisconnect w = (Ok tt, disconnected w).
Proof.
  unfold E.onDisconnect, E.handleStreamDisconnection, E.onErrorCallback, setTimeout, addTimer,
    console, bind, modify, ret, disconnected.
  cbn [trace set_trace nextTimer timers now].
  destruct w. cbn. rewrite <- app_assoc. reflexivity.
Qed.

Lemma checkHealth_unhealthy stream k w :
  healthy stream w = false ->
  E.checkHealth stream k w = (Ok (k + 1), checkedUnhealthy stream k w).
Proof.
  intros H. unfold healthy in H.
  unfold E.checkHealth, checkedUnhealthy, unhealthyWarning, getTracks.
  unfold bind at 1, gets. cbn beta iota zeta. fold (tracksOf stream w).
  unfold bind at 1, console at 1, modify. cbn beta iota zeta.
  assert (Hk : forall msg,
    (console Warn msg ;; when (3 <=? k + 1) E.onDisconnect ;; ret (k + 1))
      (set_trace (trace w ++ [Console Log "Audio stream health check"]) w)
    = (Ok (k + 1),
       if 3 <=? k + 1
       then disconnected (set_trace (trace w ++ [Console Log "Audio stream health check";
                                                 Console Warn msg]) w)
       else set_trace (trace w ++ [Console Log "Audio stream health check";
                                   Console Warn msg]) w)).
  { intros msg. unfold bind at 1, console, modify. cbn beta iota zeta.
    cbn [trace set_trace]. rewrite <- app_assoc. cbn [app].
    assert (Hset : forall a b x, set_trace a (set_trace b x) = set_trace a x)
      by (intros a b x; now destruct x).
    rewrite Hset. unfold bind, when.
    destruct (3 <=? k + 1); [rewrite onDisconnect_effect|]; reflexivity. }
  destruct (length (tracksOf stream w) =? 0)%nat; [apply Hk|].
  rewrite H. apply Hk.
Qed.

(** One tick of the stream monitor on a stream that is not healthy. *)
Lemma health_tick id o w t stream k :
  timers w !! id = Some t -> callback t = CheckHealth stream k -> periodic t = true ->
  (id < nextTimer w)%nat -> healthy stream w = false ->
  let w' := step w (FireTimer id o) in
  (exists t', timers w' !! id = Some t' /\ callback t' = CheckHealth stream (k + 1)
              /\ periodic t' = true)
  /\ (id < nextTimer w')%nat
  /\ healthy stream w' = false
  /\ userErrors (trace w')
     = userErrors (trace w)
       ++ (if 3 <=? k + 1 then [UserError "Audio stream disconnected"] else []).
Proof.
  intros Ht Hcb Hp Hid Hh w'.
  assert (Hw' : w' = exec (fired id t o) w).
  { unfold w', step. change (task (FireTimer id o)) with (fireTimer id o).
    now rewrite fireTimer_unfold, Ht. }
  unfold fired, exec in Hw'. rewrite Hp, Hcb in Hw'.
  unfold bind at 1, modify at 1 in Hw'. cbn beta iota zeta in Hw'.
  unfold bind at 1, modify at 1 in Hw'. cbn beta iota zeta in Hw'.
  unfold runCallback in Hw'. unfold bind at 1 in Hw'.
  set (w2 := set_timers _ _) in Hw'.
  assert (Hh2 : healthy stream w2 = false) by exact Hh.
  rewrite (checkHealth_unhealthy stream k w2 Hh2) in Hw'.
  unfold modify in Hw'. cbn [snd] in Hw'.
  set (t1 := set_due (due t + delay t) t) in *.
  assert (Ht2 : timers w2 !! id = Some t1) by apply lookup_insert_eq.
  assert (Hcases : exists w3, checkedUnhealthy stream k w2 = w3
            /\ timers w3 !! id = Some t1 /\ (id < nextTimer w3)%nat
            /\ streams w3 = streams w
            /\ userErrors (trace w3)
               = userErrors (trace w)
                 ++ (if 3 <=? k + 1 then [UserError "Audio stream disconnected"] else [])).
  { eexists. split; [reflexivity|]. unfold checkedUnhealthy.
    destruct (3 <=? k + 1).
    - unfold disconnected. cbn [timers set_timers set_nextTimer set_trace nextTimer streams trace].
      split; [|split; [|split]].
      + rewrite lookup_insert_ne; [exact Ht2|]. cbn. lia.
      + cbn. lia.
      + reflexivity.
      + change (trace w2) with (trace w).
        unfold userErrors. rewrite !List.filter_app. simpl. now rewrite ?app_nil_r.
    - cbn [timers set_trace nextTimer streams trace].
      split; [exact Ht2|]. split; [exact Hid|]. split; [reflexivity|].
      change (trace w2) with (trace w).
      unfold userErrors. rewrite !List.filter_app. simpl. now rewrite !app_nil_r. }
  destruct Hcases as (w3 & Hw3 & Ht3 & Hid3 & Hs3 & He3). rewrite Hw3 in Hw'.
  clearbody w'. subst w'. cbn [timers set_timers nextTimer streams trace].
  split; [|split; [exact Hid3|split; [|exact He3]]].
  - exists (set_callback (CheckHealth stream (k + 1)) t1).
    rewrite lookup_alter_eq, Ht3. simpl. auto.
  - unfold healthy, tracksOf in *. cbn [streams set_timers]. now rewrite Hs3.
Qed.

Lemma health_ticks id o stream n : forall w t k,
  0 <= k ->
  timers w !! id = Some t -> callback t = CheckHealth stream k -> periodic t = true ->
  (id < nextTimer w)%nat -> healthy stream w = false ->
  userErrors (trace (run w (repeat (FireTimer id o) n)))
  = userErrors (trace w)
    ++ repeat (UserError "Audio stream disconnected") (n - Z.to_nat (2 - k)).
Proof.
  induction n as [|n IH]; intros w t k Hk Ht Hcb Hp Hid Hh.
  - simpl. now rewrite app_nil_r.
  - destruct (health_tick id o w t stream k Ht Hcb Hp Hid Hh)
      as ((t' & Ht' & Hcb' & Hp') & Hid' & Hh' & He').
    change (run w (repeat (FireTimer id o) (S n)))
      with (run (step w (FireTimer id o)) (repeat (FireTimer id o) n)).
    rewrite (IH _ t' (k + 1) ltac:(lia) Ht' Hcb' Hp' Hid' Hh'), He', <- app_assoc.
    f_equal.
    destruct (Z.leb_spec 3 (k + 1)).
    + replace (S n - Z.to_nat (2 - k))%nat with (1 + (n - Z.to_nat (2 - (k + 1))))%nat by lia.
      reflexivity.
    + replace (S n - Z.to_nat (2 - k))%nat with (n - Z.to_nat (2 - (k + 1)))%nat by lia.
      reflexivity.
Qed.

End HealthFacts.

Module HealthProps.
Import Platform W Monad Browser Session Logic Observe EventLoop Policy Scenario Frames
  SendFacts ReconnectFacts StopFacts InitFacts DeliveryFacts HealthFacts.
Local Open Scope monad_scope.
Local Open Scope Z_scope.

(** The stream monitor does not reset its counter when it reports.  On a
    stream that stays unhealthy, the first two checks report nothing and
    every check from the third on calls [onError] with "Audio stream
    disconnected" (and schedules one more reconnection): after [n] checks
    there are [n - 2] reports. *)
Theorem monitor_reports_every_check_from_the_third id o stream t w n :
  timers w !! id = Some t -> callback t = CheckHealth stream 0 -> periodic t = true ->
  (id < nextTimer w)%nat -> healthy stream w = false ->
  userErrors (trace (run w (repeat (FireTimer id o) n)))
  = userErrors (trace w) ++ repeat (UserError "Audio stream disconnected") (n - 2).
Proof.
  intros Ht Hcb Hp Hid Hh.
  now rewrite (health_ticks id o stream n w t 0 ltac:(lia) Ht Hcb Hp Hid Hh).
Qed.

Lemma monitor_reports_every_check_from_the_third_witness :
  let w := exec (stopAndRemoveTracks 0) started in
  userErrors (trace (run w (repeat (FireTimer 2 outcomes) 5)))
  = userErrors (trace w) ++ repeat (UserError "Audio stream disconnected") 3.
Proof.
  intros w.
  apply (monitor_reports_every_check_from_the_third 2 outcomes 0%nat
           {| callback := CheckHealth 0 0; delay := 10000; due := 11120; periodic := true |}
           w 5); try reflexivity.
  vm_compute. lia.
Defined.

(** [validateAudioStream] and the check of the stream monitor apply one
    test: the stream has a track that is live, or enabled and not muted.
    Validation returns the outcome of the test and the check returns 0 when
    it passes and the counter plus one when it fails.  A track that has ended
    passes the test as long as it is enabled and not muted, so a stream of
    such tracks still passes after all its tracks have been stopped. *)
Theorem validation_and_health_check_agree stream k w :
  fst (AudioErrorHandler.validateAudioStream stream w) = Ok (healthy stream w)
  /\ fst (E.checkHealth stream k w) = Ok (if healthy stream w then 0 else k + 1)
  /\ (tracksOf stream w <> [] ->
      Forall (fun t => enabled t = true /\ muted t = false) (tracksOf stream w) ->
      healthy stream (exec (stopTracks stream) w) = true).
Proof.
  split; [apply validateAudioStream_result|]. split; [apply checkHealth_result|].
  intros Hne Hall. unfold healthy, tracksOf, exec, stopTracks, modify in *.
  cbn [snd streams set_streams]. rewrite lookup_alter_eq.
  destruct (streams w !! stream) as [tracks|]; [|now contradiction Hne].
  simpl in *. destruct tracks as [|t tracks]; [now contradiction Hne|].
  simpl. inversion Hall as [|? ? [He Hm] _]. subst.
  unfold AudioErrorHandler.trackValid. simpl. now rewrite He, Hm.
Qed.

End HealthProps.

(** ** [reconnect()] of the manager *)

Module ManagerReconnectFacts.
Import Platform W Monad Browser Session Logic Observe EventLoop Policy Scenario Frames
  SendFacts ReconnectFacts StopFacts InitFacts DeliveryFacts.
Local Open Scope monad_scope.

Lemma reconnect_unfold o :
  E.reconnect o
  = (ok <- reconnectBody o ;;
     match ok with
     | Some true => ret (Some tt)
     | Some false =>
         console Error "Reconnection failed:" ;;
         E.onErrorCallback "Failed to reconnect transcription service" ;;
         ret (Some tt)
     | None => ret None
     end).
Proof. reflexivity. Qed.

Lemma reconnectBody_safe o : safe (reconnectBody o).
Proof. frame. Qed.

Lemma reconnectBody_keeps_userErrors o :
  preserves (fun w => userErrors (trace w)) (reconnectBody o).
Proof. frame. Qed.

Lemma getAudioStream_some a w s w1 :
  E.getAudioStream a w = (Ok (Some s), w1) -> a <> E.NoStream.
Proof. destruct a; [discriminate|discriminate|]. cbn. discriminate. Qed.

(** The body gets as far as the start of the service only with a stream
    and a service. *)
Lemma reconnectBody_started o w r :
  fst (reconnectBody o w) = Ok r -> r <> Some false ->
  E.acquired o <> E.NoStream
  /\ Mgr.transcriptionService (mgr w) = true
  /\ exists s w1, fst (E.service_start (E.service o) s w1) = Ok r.
Proof.
  intros H Hr. unfold reconnectBody in H.
  step H u wa Ha. step H ts wb Hb. step H u1 wc Hc. step H newStream wd Hd.
  destruct newStream as [s|]; [|returned H; now subst].
  step H u2 we He.
  destruct ts; [cbn [negb] in H|returned H; now subst].
  step H settled wf Hf.
  split; [exact (getAudioStream_some _ _ _ _ Hd)|]. split.
  - unfold E.this, gets in Hb. injection Hb as Hts _.
    assert (Hwa : Mgr.transcriptionService (mgr wa) = Mgr.transcriptionService (mgr w))
      by (refine (preserved_run (fun w => Mgr.transcriptionService (mgr w)) _ _ _ _ _ Ha); frame).
    congruence.
  - exists s, we. rewrite Hf. simpl. f_equal.
    destruct settled as [[|]|]; returned H; now subst.
Qed.

End ManagerReconnectFacts.

Module ManagerReconnectProps.
Import Platform W Monad Browser Session Logic Observe EventLoop Policy Scenario Frames
  SendFacts ReconnectFacts StopFacts InitFacts DeliveryFacts ManagerReconnectFacts.
Local Open Scope monad_scope.


End ManagerReconnectProps.

(** ** Release of the capture *)

Module TracksFacts.
Import Platform W Monad Browser Session Logic Observe EventLoop Policy Scenario Frames
  SendFacts ReconnectFacts StopFacts InitFacts DeliveryFacts HealthFacts.
Local Open Scope monad_scope.

Lemma stopTracks_ends stream : ensures (allEnded stream) true (stopTracks stream).
Proof.
  intros w. unfold allEnded, tracksOf, stopTracks, modify. cbn [snd streams set_streams].
  rewrite lookup_alter_eq. destruct (streams w !! stream) as [tracks|]; [|reflexivity].
  simpl. induction tracks as [|t tracks IH]; [reflexivity|]. simpl. exact IH.
Qed.

Lemma preserves_exec {A B} (f : World -> B) (m : M A) w :
  preserves f m -> f (exec m w) = f w.
Proof. intros H. apply H. Qed.

Lemma stopMedia_ends stream w :
  Mgr.mediaStream (mgr w) = Some stream -> allEnded stream (exec stopMedia w) = true.
Proof.
  intros H. unfold stopMedia, E.this. rewrite exec_read, H.
  unfold exec. rewrite (preserves_after (allEnded stream)) by (intros; frame).
  rewrite (preserves_after (allEnded stream)) by (intros; frame).
  apply stopTracks_ends.
Qed.

Lemma manager_stop_ends_tracks stream w :
  Mgr.mediaStream (mgr w) = Some stream -> allEnded stream (exec E.stop w) = true.
Proof.
  intros H. unfold E.stop.
  rewrite exec_seq by frame. rewrite exec_seq by frame.
  unfold E.this at 1. rewrite exec_read.
  match goal with |- context [exec (bind (match ?x with _ => _ end) _) ?w0] =>
    rewrite (exec_seq (match x with Some id => _ | None => _ end) _ w0)
      by (destruct x; frame) end.
  unfold E.this at 1. rewrite exec_read.
  match goal with |- context [exec (bind (if ?x then _ else _) _) ?w0] =>
    rewrite (exec_seq (if x then _ else _) _ w0) by (destruct x; frame) end.
  unfold E.this at 1. rewrite exec_read.
  match goal with |- context [exec (bind (match ?x with _ => _ end) _) ?w0] =>
    rewrite (exec_seq (match x with Some id => _ | None => _ end) _ w0)
      by (destruct x; frame) end.
  unfold E.this at 1. rewrite exec_read.
  match goal with |- context [exec (bind (match ?x with _ => _ end) _) ?w0] =>
    rewrite (exec_seq (match x with Some id => _ | None => _ end) _ w0)
      by (destruct x; frame) end.
  unfold E.this at 1. rewrite exec_read.
  match goal with |- context [exec (bind (match ?x with _ => _ end) _) ?w0] =>
    rewrite (exec_seq (match x with Some id => _ | None => _ end) _ w0)
      by (destruct x; frame) end.
  unfold E.this at 1. rewrite exec_read.
  match goal with |- context [exec (bind (match ?x with _ => _ end) _) ?w0] =>
    rewrite (exec_seq (match x with Some id => _ | None => _ end) _ w0)
      by (destruct x; frame) end.
  fold stopMedia. apply stopMedia_ends.
  repeat (rewrite (preserves_exec (fun w => Mgr.mediaStream (mgr w))) by frame).
  exact H.
Qed.

End TracksFacts.

Module TracksProps.
Import Platform W Monad Browser Session Logic Observe EventLoop Policy Scenario Frames
  SendFacts ReconnectFacts StopFacts InitFacts DeliveryFacts HealthFacts TracksFacts.
Local Open Scope monad_scope.

(** After [stop()] of the manager every track of the stream it held has
    ended: the capture is released, whatever the service and the processor
    did to the stream before. *)
Theorem stop_ends_every_track stream w :
  Mgr.mediaStream (mgr w) = Some stream ->
  Forall (fun t => trackReadyState t = ended) (tracksOf stream (exec E.stop w)).
Proof.
  intros H. pose proof (manager_stop_ends_tracks stream w H) as Hall.
  unfold allEnded in Hall. apply List.Forall_forall. intros t Ht.
  rewrite forallb_forall in Hall. specialize (Hall t Ht).
  destruct (trackReadyState t); [discriminate|reflexivity].
Qed.

Lemma stop_ends_every_track_witness :
  Forall (fun t => trackReadyState t = ended) (tracksOf 0 (exec E.stop started)).
Proof. apply (stop_ends_every_track 0 started). reflexivity. Defined.

End TracksProps.

(** ** The flush of accumulated speech *)

Module SpeechProps.
Import Platform W Monad Browser Logic Observe EventLoop Policy Scenario Frames.
Import Num NumFacts Chunk ChunkFacts.
Local Open Scope monad_scope.

(** The flush after two seconds of silence reports all the speech that is
    queued as one chunk: the samples of every speech chunk of the queue, in
    order, under the confidence of the first one.  Nothing is reported when no
    speech chunk is queued, or when the confidence of the first speech chunk
    is below 0.5, whatever the confidence of the others. *)
Theorem accumulated_speech_is_reported_as_one_chunk cb p :
  match filter (fun c => isSpeech c = true) (Proc.chunkQueue p) with
  | [] => R.processAccumulatedSpeech cb p = ret tt
  | c0 :: rest =>
      R.processAccumulatedSpeech cb p
      = if Num.ltb (confidence c0) (1#2) then ret tt
        else tryCatch
               (cb ("[Audio chunk: "
                    ++ pretty (length (concat (map data (c0 :: rest))))
                    ++ " samples]")%string
                   (confidence c0))
               (fun _ => console Error "Error processing transcription chunk:")
  end.
Proof.
  unfold R.processAccumulatedSpeech.
  destruct (filter (fun c => isSpeech c = true) (Proc.chunkQueue p)) as [|c0 rest] eqn:E;
    [reflexivity|].
  assert (Hs : isSpeech c0 = true).
  { assert (Hin : c0 ∈ filter (fun c => isSpeech c = true) (Proc.chunkQueue p))
      by (rewrite E; left).
    apply list_elem_of_filter in Hin. tauto. }
  unfold R.processTranscriptionChunk. cbn [isSpeech set_duration set_data confidence data].
  rewrite Hs. cbn [negb orb].
  destruct (Num.ltb (confidence c0) (1#2)); reflexivity.
Qed.

End SpeechProps.

(** ** Success of [initialize] *)

Module SuccessFacts.
Import Platform W Monad Browser Session Logic Observe EventLoop Policy Scenario Frames
  SendFacts ReconnectFacts StopFacts InitFacts DeliveryFacts HealthFacts.
Local Open Scope monad_scope.

Lemma safe_run {A} (m : M A) w : safe m -> exists a w1, m w = (Ok a, w1).
Proof.
  intros H. destruct (H w) as [a Ha]. destruct (m w) as [r w1]. simpl in Ha. subst.
  now exists a, w1.
Qed.

Lemma validate_healthy stream w isValid w1 :
  AudioErrorHandler.validateAudioStream stream w = (Ok isValid, w1) ->
  isValid = healthy stream w.
Proof.
  intros H. pose proof (validateAudioStream_result stream w) as Hr.
  rewrite H in Hr. simpl in Hr. congruence.
Qed.

Lemma healthy_streams stream w w1 : streams w1 = streams w -> healthy stream w1 = healthy stream w.
Proof. intros H. unfold healthy, tracksOf. now rewrite H. Qed.

(** *** The processor *)

Lemma processor_start_safe po stream p : safe (R.start po stream p).
Proof. frame. Qed.

Lemma processor_starts po stream p w :
  healthy stream w = true ->
  R.contextCreated po = true -> R.workletInitialized po = true ->
  R.processingStarted po = true ->
  exists r w1, R.start po stream p w = (Ok r, w1) /\ fst r = true.
Proof.
  intros Hh Hc Hi Hs.
  destruct (safe_run _ w (processor_start_safe po stream p)) as (r & w1 & Hrun).
  exists r, w1. split; [exact Hrun|].
  destruct (fst r) eqn:Hr; [reflexivity|exfalso].
  apply (f_equal fst) in Hrun. simpl in Hrun.
  unfold R.start in Hrun. cbv zeta in Hrun.
  step Hrun r0 wa Hbody.
  assert (Hr0 : fst r0 = false).
  { destruct (fst r0) eqn:E; [|reflexivity].
    apply ret_returns in Hrun. subst. congruence. }
  clear Hrun. apply (f_equal fst) in Hbody. simpl in Hbody.
  step Hbody u wb Hb. step Hbody isValid wc Hcv.
  apply validate_healthy in Hcv.
  assert (Hwb : healthy stream wb = healthy stream w).
  { apply healthy_streams. refine (preserved_run streams _ _ _ _ _ Hb). frame. }
  rewrite Hwb, Hh in Hcv. subst isValid. cbn [negb] in Hbody.
  rewrite Hc, Hi, Hs in Hbody. cbn [negb] in Hbody.
  returned Hbody. subst r0. discriminate.
Qed.

Lemma initializeProcessor_safe so stream : safe (S.initializeProcessor so stream).
Proof. frame. Qed.

Lemma initializeProcessor_starts so stream w :
  healthy stream w = true ->
  R.contextCreated (S.processor so) = true -> R.workletInitialized (S.processor so) = true ->
  R.processingStarted (S.processor so) = true ->
  fst (S.initializeProcessor so stream w) = Ok true.
Proof.
  intros Hh Hc Hi Hs.
  destruct (safe_run _ w (initializeProcessor_safe so stream)) as (b & w1 & Hrun).
  rewrite Hrun. simpl. f_equal.
  apply (f_equal fst) in Hrun. simpl in Hrun. unfold S.initializeProcessor in Hrun.
  step Hrun cfg wa Ha. step Hrun u wb Hb. step Hrun r wc Hr. step Hrun u' wd Hd.
  apply ret_returns in Hrun. subst b.
  assert (Hsb : streams wb = streams wa)
    by (refine (preserved_run streams _ _ _ _ _ Hb); frame).
  assert (Hsa : streams wa = streams w)
    by (refine (preserved_run streams _ _ _ _ _ Ha); frame).
  assert (Hwb : healthy stream wb = true).
  { rewrite <- Hh. apply healthy_streams. congruence. }
  match type of Hr with
  | RealtimeTranscriptionProcessor.start _ _ ?p _ = _ =>
      destruct (processor_starts (S.processor so) stream p wb Hwb Hc Hi Hs)
        as (r' & w' & Hrun' & Htrue)
  end.
  rewrite Hrun' in Hr. now injection Hr as <- _.
Qed.

(** *** The socket *)

Lemma connect_begin_result a w :
  fst (S.connectWebSocket_begin a false w) = Ok (Some (nextSocket w, nextTimer w)).
Proof. reflexivity. Qed.

Lemma connect_opens cb so after :
  (forall b, safe (cb b)) ->
  S.connect so = S.Opened after ->
  forall w, fst (S.connectWebSocket cb so w) = Ok (Some true).
Proof.
  intros Hcb Hconn w.
  assert (Hsafe : safe (S.connectWebSocket cb so)).
  { unfold S.connectWebSocket. rewrite Hconn.
    apply safe_bind; [frame|intros r]. destruct r as [[id timer]|]; [|frame].
    apply safe_bind; [frame|intros ?]. apply safe_bind; [frame|intros ?].
    apply safe_bind; [|intros ?; frame].
    unfold S.onopen.
    repeat (apply safe_bind; [try solve [frame]|intros ?]); try solve [frame].
    all: apply Hcb. }
  destruct (safe_run _ w Hsafe) as (b & w1 & Hrun). rewrite Hrun. simpl. f_equal.
  apply (f_equal fst) in Hrun. simpl in Hrun.
  unfold S.connectWebSocket in Hrun. rewrite Hconn in Hrun.
  step Hrun r wa Ha.
  pose proof (connect_begin_result AwaitStart w) as Hbegin. rewrite Ha in Hbegin.
  simpl in Hbegin. injection Hbegin as ->.
  returned Hrun. congruence.
Qed.

(** *** The HD stage *)

Lemma applyHD_healthy so stream w processed w1 :
  S.applyHDProcessing so stream w = (Ok processed, w1) ->
  healthy stream w = true ->
  (S.hdInitialized so = true -> existsb AudioErrorHandler.trackValid (S.hdTracks so) = true) ->
  healthy processed w1 = true.
Proof.
  intros Hrun Hh Hhd. unfold S.applyHDProcessing in Hrun.
  apply (f_equal (fun r => (fst r, streams (snd r)))) in Hrun. cbn [fst snd] in Hrun.
  destruct (S.hdInitialized so).
  - cbn in Hrun. injection Hrun as <- Hs.
    unfold healthy, tracksOf. rewrite <- Hs, lookup_insert_eq. simpl. now apply Hhd.
  - cbn in Hrun. injection Hrun as <- Hs.
    unfold healthy, tracksOf in *. now rewrite <- Hs.
Qed.

(** *** The service *)

Lemma service_start_safe cb so stream : (forall b, safe (cb b)) -> safe (S.start cb so stream).
Proof.
  intros Hcb. unfold S.start. cbv zeta.
  assert (Hconn : safe (S.connectWebSocket cb so)).
  { assert (Hopen : forall po id, safe (S.onopen cb po id)).
    { intros po id. unfold S.onopen.
      repeat (apply safe_bind; [try solve [frame]|intros ?]); try solve [frame].
      all: apply Hcb. }
    assert (Hclose : safe (S.onclose cb)).
    { unfold S.onclose.
      repeat (apply safe_bind; [try solve [frame]|intros ?]); try solve [frame].
      all: apply Hcb. }
    unfold S.connectWebSocket. destruct (S.connect so); [|frame|frame|].
    - apply safe_bind; [frame|intros r]. destruct r as [[id timer]|]; [|frame].
      apply safe_bind; [frame|intros ?]. apply safe_bind; [frame|intros ?].
      apply safe_bind; [apply Hopen|intros ?; frame].
    - apply safe_bind; [frame|intros r]. destruct r as [[id timer]|]; [|frame].
      apply safe_bind; [frame|intros ?].
      apply safe_bind; [|intros ?; frame].
      destruct (_ && _); [|frame]. unfold S.closedFirst.
      apply safe_bind; [frame|intros ?]. apply safe_bind; [frame|intros ?].
      apply safe_bind; [frame|intros ?]. apply safe_bind; [apply Hclose|intros ?].
      apply safe_bind; [frame|intros ?]. apply safe_bind; [frame|intros tm].
      destruct tm as [t|]; [|frame]. destruct (_ && _ && _); [|frame].
      apply safe_bind; [frame|intros ?]. apply safe_bind; [frame|intros ?].
      apply safe_bind; [frame|intros ?]. apply safe_bind; [frame|intros ws].
      destruct ws as [id1|]; [|frame].
      apply safe_bind; [frame|intros ?]. apply safe_bind; [frame|intros rs].
      destruct rs as [[]|]; solve [frame]. }
  apply safe_bind; [|intros ok; frame].
  apply safe_bind; [frame|intros ?]. apply safe_bind; [frame|intros isValid].
  destruct isValid; cbn [negb]; [|frame].
  apply safe_bind; [frame|intros ?]. apply safe_bind; [frame|intros ?].
  apply safe_bind; [frame|intros ?]. apply safe_bind; [exact Hconn|intros connected].
  destruct connected; cbn [negb]; frame.
Qed.

Lemma bind_runs {A B} (m : M A) (k : A -> M B) w b w2 :
  bind m k w = (Ok b, w2) -> exists a w1, m w = (Ok a, w1) /\ k a w1 = (Ok b, w2).
Proof.
  unfold bind. destruct (m w) as [[a|e] w1]; [|discriminate].
  intros H. now exists a, w1.
Qed.

Tactic Notation "run" hyp(H) ident(a) ident(w1) ident(Hm) :=
  apply bind_runs in H; destruct H as [a [w1 [Hm H]]]; cbv beta in H.

(** What a step that ran left unchanged. *)
Ltac kept f H :=
  let E := fresh "Hkept" in
  lazymatch type of H with
  | ?m ?w = (?r, ?w1) =>
      assert (E : f w1 = f w) by (refine (preserved_run f m w r w1 _ H); frame);
      cbv beta in E
  end.

Tactic Notation "keeps" constr(f) "in" hyp(H) "as" ident(E) :=
  lazymatch type of H with
  | ?m ?w = (?r, ?w1) =>
      assert (E : f w1 = f w) by (refine (preserved_run f m w r w1 _ H); frame);
      cbv beta in E
  end.

Lemma run_fst {A} (m : M A) w r w1 : m w = (r, w1) -> fst (m w) = r.
Proof. intros H. now rewrite H. Qed.

Lemma settle_pending id w s :
  sockets w !! id = Some s -> promisePending s = true ->
  exists w1, settle id w = (Ok (Some (awaiter s)), w1) /\ streams w1 = streams w.
Proof.
  intros Hs Hp. unfold settle. rewrite Hs, Hp. eexists. split; reflexivity.
Qed.

(** The socket that [start] creates is awaited by [start] itself, so its
    open handler does not restart the processor: the streams stay as they
    are. *)
Lemma connect_keeps_streams cb so after w b w2 :
  (forall b, preserves streams (cb b)) ->
  (forall b, preserves sockets (cb b)) ->
  S.connect so = S.Opened after ->
  S.connectWebSocket cb so w = (Ok b, w2) -> streams w2 = streams w.
Proof.
  intros Hst Hso Hconn H. unfold S.connectWebSocket in H. rewrite Hconn in H.
  run H r wa Ha.
  assert (Hbegin : r = Some (nextSocket w, nextTimer w)
                   /\ streams wa = streams w
                   /\ sockets wa !! nextSocket w
                      = Some {| readyState := CONNECTING; sent := []; sendThrows := false;
                                promisePending := true; awaiter := AwaitStart |}).
  { unfold S.connectWebSocket_begin in Ha. cbn in Ha. injection Ha as <- <-.
    split; [reflexivity|]. split; [reflexivity|]. cbn. apply lookup_insert_eq. }
  destruct Hbegin as (-> & Hsa & Hka).
  run H u1 wb Hb. run H u2 wc Hc.
  unfold modify in Hb, Hc. injection Hb as _ <-. injection Hc as _ <-.
  run H u3 wd Hd. apply (f_equal snd) in H. simpl in H. subst w2.
  set (wc := set_sockets _ _) in Hd.
  assert (Hsc : streams wc = streams w) by exact Hsa.
  assert (Hkc : sockets wc !! nextSocket w
                = Some {| readyState := OPEN; sent := []; sendThrows := false;
                          promisePending := true; awaiter := AwaitStart |}).
  { unfold wc. cbn [sockets set_sockets set_now]. rewrite lookup_alter_eq, Hka. reflexivity. }
  clearbody wc. unfold S.onopen in Hd.
  run Hd v1 w3 H3. run Hd v2 w4 H4. run Hd v3 w5 H5. run Hd v4 w6 H6.
  run Hd v5 w7 H7. run Hd v6 w8 H8.
  assert (Hs8 : streams w8 = streams wc /\ sockets w8 = sockets wc).
  { pose proof (preserved_run streams _ _ _ _ (Hst true) H8).
    pose proof (preserved_run sockets _ _ _ _ (Hso true) H8).
    kept streams H7. kept streams H6. kept streams H5. kept streams H4. kept streams H3.
    kept sockets H7. kept sockets H6. kept sockets H5. kept sockets H4. kept sockets H3.
    split; congruence. }
  destruct Hs8 as [Hs8 Hk8].
  unfold S.resolve in Hd. run Hd aw w9 H9.
  destruct (settle_pending (nextSocket w) w8 _ ltac:(rewrite Hk8; exact Hkc) eq_refl)
    as (w9' & Hset & Hs9).
  rewrite Hset in H9. injection H9 as <- <-. simpl in Hd.
  injection Hd as _ <-. congruence.
Qed.

Lemma service_starts cb so stream w after :
  (forall b, safe (cb b)) ->
  (forall b, preserves streams (cb b)) ->
  (forall b, preserves sockets (cb b)) ->
  (forall b, preserves configOf (cb b)) ->
  healthy stream w = true ->
  S.connect so = S.Opened after ->
  (Svc.enableHD (configOf w) = true -> S.hdInitialized so = true ->
   existsb AudioErrorHandler.trackValid (S.hdTracks so) = true) ->
  (Svc.enableRealtime (configOf w) = true ->
   R.contextCreated (S.processor so) = true /\ R.workletInitialized (S.processor so) = true
   /\ R.processingStarted (S.processor so) = true) ->
  fst (S.start cb so stream w) = Ok (Some true).
Proof.
  intros Hsafe Hstreams Hsockets Hconfig Hh Hconn Hhd Hproc.
  destruct (safe_run _ w (service_start_safe cb so stream Hsafe)) as (b & w1 & Hrun).
  rewrite Hrun. simpl. f_equal. destruct b as [[|]|]; [reflexivity|exfalso|exfalso].
  2:{ destruct (service_start_unsettled cb so stream w) as (t1 & t2 & Hc);
        [now rewrite Hrun|congruence]. }
  apply (f_equal fst) in Hrun. simpl in Hrun. unfold S.start in Hrun. cbv zeta in Hrun.
  step Hrun ok w2 Hbody.
  destruct ok as [[|]|];
    [apply ret_returns in Hrun; discriminate|clear Hrun|apply ret_returns in Hrun; discriminate].
  apply (f_equal fst) in Hbody. simpl in Hbody.
  step Hbody u wa Ha. step Hbody isValid wb Hb.
  assert (Hsa : streams wa = streams w)
    by (refine (preserved_run streams _ _ _ _ _ Ha); frame).
  assert (Hca : configOf wa = configOf w)
    by (refine (preserved_run configOf _ _ _ _ _ Ha); unfold configOf; frame).
  pose proof (validate_healthy _ _ _ _ Hb) as Hv.
  rewrite (healthy_streams stream w wa Hsa), Hh in Hv. subst isValid. cbn [negb] in Hbody.
  assert (Hsb : streams wb = streams wa)
    by (refine (preserved_run streams _ _ _ _ _ Hb); frame).
  assert (Hcb : configOf wb = configOf wa)
    by (refine (preserved_run configOf _ _ _ _ _ Hb); unfold configOf; frame).
  step Hbody u1 wc Hc. step Hbody enableHD wd Hd. step Hbody processed we He.
  assert (Hsc : streams wc = streams wb)
    by (refine (preserved_run streams _ _ _ _ _ Hc); frame).
  assert (Hcc : configOf wc = configOf wb)
    by (refine (preserved_run configOf _ _ _ _ _ Hc); unfold configOf; frame).
  unfold S.this, gets in Hd. injection Hd as HenableHD Hwd. subst wd.
  fold (configOf wc) in HenableHD.
  assert (Hcfgc : configOf wc = configOf w) by congruence.
  assert (Hhc : healthy stream wc = true).
  { rewrite <- Hh. apply healthy_streams. congruence. }
  assert (Hpe : healthy processed we = true /\ configOf we = configOf w).
  { destruct enableHD.
    - split.
      + apply (applyHD_healthy so stream wc processed we He Hhc).
        apply Hhd. now rewrite <- Hcfgc, HenableHD.
      + rewrite <- Hcfgc. apply (preserved_run configOf _ wc _ we (applyHD_keeps_config so stream) He).
    - simpl in He. injection He as <- <-. split; [exact Hhc|exact Hcfgc]. }
  destruct Hpe as [Hhe Hce].
  step Hbody settled wf Hf.
  pose proof (connect_opens cb so after Hsafe Hconn we) as Hopen.
  rewrite Hf in Hopen. simpl in Hopen. injection Hopen as ->. cbn [negb] in Hbody.
  assert (Hsf : streams wf = streams we)
    by (exact (connect_keeps_streams cb so after we _ wf Hstreams Hsockets Hconn Hf)).
  assert (Hcf : configOf wf = configOf we)
    by (exact (preserved_run configOf _ _ _ _ (connect_keeps_config cb so Hconfig) Hf)).
  step Hbody enableRealtime wg Hg.
  unfold S.this, gets in Hg. injection Hg as Hrt Hwg. subst wg.
  fold (configOf wf) in Hrt.
  step Hbody procStarted wh Hh'.
  assert (Hps : procStarted = true).
  { destruct enableRealtime.
    - assert (Hen : Svc.enableRealtime (configOf w) = true) by congruence.
      destruct (Hproc Hen) as (H1 & H2 & H3).
      assert (Hhf : healthy processed wf = true).
      { rewrite <- Hhe. now apply healthy_streams. }
      pose proof (initializeProcessor_starts so processed wf Hhf H1 H2 H3) as Hi.
      rewrite Hh' in Hi. simpl in Hi. congruence.
    - simpl in Hh'. now injection Hh' as <- _. }
  subst procStarted. cbn [negb] in Hbody.
  returned Hbody.
Qed.

Lemma onopen_connected cb po id :
  (forall b, preserves (fun w => Svc.isConnected (svc w)) (cb b)) ->
  ensures (fun w => Svc.isConnected (svc w)) true (S.onopen cb po id).
Proof.
  intros Hcb. unfold S.onopen.
  apply ensures_later; [frame|intros ?].
  apply ensures_here; [ensure|intros ?].
  repeat (apply preserves_bind; [try solve [frame]|intros ?]); try solve [frame].
Qed.

(** After a [start] that returned true the service is connected. *)
Lemma service_started_connected cb so stream w w1 :
  (forall b, preserves (fun w => Svc.isConnected (svc w)) (cb b)) ->
  S.start cb so stream w = (Ok (Some true), w1) -> Svc.isConnected (svc w1) = true.
Proof.
  intros Hcb H. unfold S.start in H. cbv zeta in H.
  run H ok w2 Hbody.
  destruct ok as [[|]|];
    [|exfalso; apply run_fst in H; returned H|exfalso; apply run_fst in H; returned H].
  injection H as <-.
  run Hbody u wa Ha. run Hbody isValid wb Hb.
  destruct isValid; cbn [negb] in Hbody; [|discriminate].
  run Hbody u1 wc Hc. run Hbody enableHD wd Hd. run Hbody processed we He.
  run Hbody settled wf Hf.
  destruct settled as [[|]|]; cbn [negb] in Hbody; [|discriminate|discriminate].
  run Hbody enableRealtime wg Hg. run Hbody procStarted wh Hh.
  destruct procStarted; cbn [negb] in Hbody; [|discriminate].
  run Hbody u2 wi Hi. run Hbody u3 wj Hj. injection Hbody as <-.
  assert (Hcf : Svc.isConnected (svc wf) = true).
  { unfold S.connectWebSocket in Hf. destruct (S.connect so).
    - run Hf r w3 H3. destruct r as [[id timer]|]; [|discriminate].
      run Hf v1 w4 H4. run Hf v2 w5 H5. run Hf v3 w6 H6. injection Hf as <-.
      exact (ensured_run _ _ _ _ _ _ (onopen_connected cb _ id Hcb) H6).
    - exfalso. apply run_fst in Hf. returned Hf.
    - exfalso. apply run_fst in Hf. returned Hf.
    - exfalso. apply run_fst in Hf. returned Hf.
      match type of Hf with (if ?b then _ else _) = _ => destruct b; discriminate end. }
  kept (fun w => Svc.isConnected (svc w)) Hj.
  kept (fun w => Svc.isConnected (svc w)) Hi.
  assert (Hkh : Svc.isConnected (svc wh) = Svc.isConnected (svc wg)).
  { destruct enableRealtime.
    - refine (preserved_run (fun w => Svc.isConnected (svc w)) _ _ _ _ _ Hh). frame.
    - simpl in Hh. now injection Hh as <-. }
  kept (fun w => Svc.isConnected (svc w)) Hg.
  congruence.
Qed.

End SuccessFacts.

Module SuccessProps.
Import Platform W Monad Browser Session Logic Observe EventLoop Policy Scenario Frames
  SendFacts ReconnectFacts StopFacts InitFacts DeliveryFacts HealthFacts SuccessFacts.
Local Open Scope monad_scope.



End SuccessProps.
